(** * checkov: the Bridgecrew platform integration

    A shallow embedding of [checkov/common/bridgecrew/platform_integration.py]
    (class [BcPlatformIntegration]) and the properties of its session
    life cycle: credential setup, repository upload, scan-result upload and
    commit.

    Python objects are modelled by the data the module looks at: decoded JSON
    documents, optional strings for attributes that start as [None], and a
    record for the [self] object.  Everything the module calls but does not
    define (urllib3, boto3, [os.walk], the [wrapper] module, the constant
    [SUPPORTED_FILE_EXTENSIONS]) is a field of an environment record.  Methods
    are functions in a small monad that threads [self], records every
    external call in a trace and propagates Python exceptions; an exception
    keeps the attribute writes made before it, as in Python. *)

From Stdlib Require Import ZArith String Ascii List Lia.
From stdpp Require Import base option list strings gmap fin_maps.

#[local] Set Warnings "-register-all".
#[local] Open Scope string_scope.
#[local] Open Scope list_scope.
#[local] Open Scope Z_scope.

(** ** Values *)

(** The result of [json.loads]: a JSON document.  A JSON object becomes a
    Python [dict] with string keys, modelled as a finite map.  [JNull] is
    Python's [None]. *)
Inductive json :=
| JNull
| JBool (b : bool)
| JNum (n : Z)
| JStr (s : string)
| JArr (items : list json)
| JObj (fields : gmap string json).

(** Python truthiness ([bool(v)]) of a decoded JSON value. *)
Definition json_truthy (v : json) : bool :=
  match v with
  | JNull => false
  | JBool b => b
  | JNum n => negb (n =? 0)
  | JStr s => negb (String.eqb s "")
  | JArr items => match items with [] => false | _ => true end
  | JObj fields => negb (bool_decide (fields = ∅))
  end.

(** [v == "literal"] for a decoded JSON value [v]. *)
Definition json_eq_str (v : json) (lit : string) : bool :=
  match v with
  | JStr s => String.eqb s lit
  | _ => false
  end.

(** The name Python prints for the type of a JSON value. *)
Definition type_name (v : json) : string :=
  match v with
  | JNull => "NoneType"
  | JBool _ => "bool"
  | JNum _ => "int"
  | JStr _ => "str"
  | JArr _ => "list"
  | JObj _ => "dict"
  end.

(** [str(x)] for an attribute that holds [None] or a string. *)
Definition py_str (x : option string) : string :=
  match x with
  | None => "None"
  | Some s => s
  end.

(** Truthiness of an attribute that holds [None] or a string. *)
Definition str_truthy (x : option string) : bool :=
  match x with
  | None => false
  | Some s => negb (String.eqb s "")
  end.

(** An attribute holding [None] or a string, as a JSON value (for
    [json.dumps] and request headers). *)
Definition json_of_opt (x : option string) : json :=
  match x with
  | None => JNull
  | Some s => JStr s
  end.

(** ** Exceptions *)

(** The three classes that the [except] clauses of the module name.  An
    [except C] clause catches the instances of [C] and of every class
    derived from [C]. *)
Inductive caught_class :=
| OfHTTPError
| OfClientError
| OfJSONDecodeError.

(** The exceptions that occur in the module.  A constructor named after a
    class is an instance of exactly that class; the payload is the message
    ([KeyError] carries the missing key).  [PyException] is the base class
    [Exception] raised directly.  [Subclass base cls msg] is an instance of
    a class [cls] derived from one of the three classes the module catches
    (urllib3's [MaxRetryError] and [TimeoutError] derive from [HTTPError]);
    for a class with several of them among its ancestors, [base] is the one
    whose clause comes first.  [OtherError] is an instance of any other
    class, one that derives from none of the three. *)
Inductive exn :=
| HTTPError (msg : string)
| ClientError (msg : string)
| JSONDecodeError (msg : string)
| UnicodeDecodeError (msg : string)
| KeyError (key : string)
| TypeError (msg : string)
| ValueError (msg : string)
| AttributeError (msg : string)
| UnboundLocalError (msg : string)
| PyException (msg : string)
| OtherError (cls msg : string)
| Subclass (base : caught_class) (cls msg : string).

Inductive outcome (A : Type) :=
| Return (a : A)
| Raise (e : exn).
Arguments Return {A} a.
Arguments Raise {A} e.

Definition is_Return {A} (r : outcome A) : bool :=
  match r with
  | Return _ => true
  | Raise _ => false
  end.

(** ** String operations of Python used by the module *)

Definition slash : ascii := "/"%char.
Definition dot : ascii := "."%char.

(** [s.partition("/")] without the separator: the text before and after
    the first "/", or [None] when [s] has no "/". *)
Fixpoint str_cut (s : string) : option (string * string) :=
  match s with
  | EmptyString => None
  | String c s' =>
      if Ascii.eqb c slash then Some (EmptyString, s')
      else match str_cut s' with
           | Some (a, b) => Some (String c a, b)
           | None => None
           end
  end.

(** [s.split("/", 1)] *)
Definition str_split1 (s : string) : list string :=
  match str_cut s with
  | Some (a, b) => [a; b]
  | None => [s]
  end.

(** [s.split("/")] *)
Fixpoint str_split (s : string) : list string :=
  match s with
  | EmptyString => [EmptyString]
  | String c s' =>
      if Ascii.eqb c slash then EmptyString :: str_split s'
      else match str_split s' with
           | x :: xs => String c x :: xs
           | [] => [String c EmptyString]
           end
  end.

(** ["/".join(l)] *)
Fixpoint str_join (l : list string) : string :=
  match l with
  | [] => ""
  | [x] => x
  | x :: xs => x +:+ "/" +:+ str_join xs
  end.

(** [l[-1]] on a list of strings that [split] returned. *)
Definition last_item (l : list string) : string := List.last l "".

(** [s.startswith("/")] and [s.endswith("/")] *)
Definition starts_with_slash (s : string) : bool :=
  match s with
  | String c _ => Ascii.eqb c slash
  | EmptyString => false
  end.

Fixpoint ends_with_slash (s : string) : bool :=
  match s with
  | EmptyString => false
  | String c EmptyString => Ascii.eqb c slash
  | String _ s' => ends_with_slash s'
  end.

(** [s.rfind(c)]: the last index of [c], or -1. *)
Fixpoint rfind_from (c : ascii) (s : string) (i acc : Z) : Z :=
  match s with
  | EmptyString => acc
  | String a s' => rfind_from c s' (i + 1) (if Ascii.eqb a c then i else acc)
  end.

Definition rfind (c : ascii) (s : string) : Z := rfind_from c s 0 (-1).

(** [p[:k]] and [p[k:]] for [0 <= k]. *)
Definition slice_to (p : string) (k : Z) : string :=
  substring 0 (Z.to_nat k) p.

Definition slice_from (p : string) (k : Z) : string :=
  substring (Z.to_nat k) (String.length p - Z.to_nat k) p.

(** ** [os.path] (posixpath) *)

(** The [while] loop of [genericpath._splitext]: is some character at an
    index in [filenameIndex, dotIndex) not a dot? *)
Fixpoint splitext_scan (p : string) (filenameIndex : Z) (steps : nat) : bool :=
  match steps with
  | O => false
  | S steps' =>
      match String.get (Z.to_nat filenameIndex) p with
      | Some c =>
          if Ascii.eqb c dot then splitext_scan p (filenameIndex + 1) steps'
          else true
      | None => true
      end
  end.

(** [os.path.splitext(p)] *)
Definition splitext (p : string) : string * string :=
  let sepIndex := rfind slash p in
  let dotIndex := rfind dot p in
  if (dotIndex >? sepIndex) &&
     splitext_scan p (sepIndex + 1) (Z.to_nat (dotIndex - (sepIndex + 1)))
  then (slice_to p dotIndex, slice_from p dotIndex)
  else (p, "").

(** [os.path.join(a, b)] for two strings. *)
Definition path_join (a b : string) : string :=
  if starts_with_slash b then b
  else if String.eqb a "" || ends_with_slash a then a +:+ b
  else a +:+ "/" +:+ b.

(** [os.path.join( *l )] for a non-empty list. *)
Definition path_join_list (l : list string) : string :=
  match l with
  | [] => ""
  | a :: rest => fold_left path_join rest a
  end.

(** The loop of [posixpath.normpath] over the components; [new_comps] is
    kept reversed (its head is the last component appended). *)
Fixpoint normpath_comps (initial_slashes : bool) (comps new_comps : list string)
  : list string :=
  match comps with
  | [] => rev new_comps
  | comp :: rest =>
      if String.eqb comp "" || String.eqb comp "." then
        normpath_comps initial_slashes rest new_comps
      else if negb (String.eqb comp "..")
              || (negb initial_slashes && match new_comps with [] => true | _ => false end)
              || match new_comps with
                 | last :: _ => String.eqb last ".."
                 | [] => false
                 end
      then normpath_comps initial_slashes rest (comp :: new_comps)
      else match new_comps with
           | _ :: popped => normpath_comps initial_slashes rest popped
           | [] => normpath_comps initial_slashes rest new_comps
           end
  end.

(** The number of leading slashes [normpath] keeps: one or two initial
    slashes are kept, three or more count as one. *)
Definition initial_slashes (path : string) : nat :=
  match path with
  | String c1 (String c2 (String c3 _)) =>
      if Ascii.eqb c1 slash then
        if Ascii.eqb c2 slash && negb (Ascii.eqb c3 slash) then 2%nat else 1%nat
      else 0%nat
  | String c1 (String c2 EmptyString) =>
      if Ascii.eqb c1 slash then
        if Ascii.eqb c2 slash then 2%nat else 1%nat
      else 0%nat
  | String c1 EmptyString => if Ascii.eqb c1 slash then 1%nat else 0%nat
  | EmptyString => 0%nat
  end.

Fixpoint slashes (n : nat) : string :=
  match n with
  | O => ""
  | S n' => String slash (slashes n')
  end.

(** [os.path.normpath(path)] *)
Definition normpath (path : string) : string :=
  if String.eqb path "" then "."
  else
    let n := initial_slashes path in
    let comps := normpath_comps (negb (Nat.eqb n 0)) (str_split path) [] in
    let joined := slashes n +:+ str_join comps in
    if String.eqb joined "" then "." else joined.

(** [os.path.abspath(path)], with [cwd] the value of [os.getcwd()]. *)
Definition abspath (cwd path : string) : string :=
  if starts_with_slash path then normpath path
  else normpath (path_join cwd path).

(** [len(os.path.commonprefix([l1, l2]))] for two lists of components. *)
Fixpoint common_prefix_len (l1 l2 : list string) : nat :=
  match l1, l2 with
  | x :: l1', y :: l2' =>
      if String.eqb x y then S (common_prefix_len l1' l2') else O
  | _, _ => O
  end.

Definition nonempty_comps (path : string) : list string :=
  List.filter (fun x => negb (String.eqb x "")) (str_split path).

(** The body of [os.path.relpath(path, start)] once [path] is known to be
    non-empty. *)
Definition relpath_of (cwd path start : string) : string :=
  let start_list := nonempty_comps (abspath cwd start) in
  let path_list := nonempty_comps (abspath cwd path) in
  let i := common_prefix_len start_list path_list in
  let rel_list :=
    repeat ".." (List.length start_list - i) ++ skipn i path_list in
  match rel_list with
  | [] => "."
  | _ => path_join_list rel_list
  end.

(** [os.path.relpath(path, start)] *)
Definition relpath (cwd path start : string) : outcome string :=
  if String.eqb path "" then Raise (ValueError "no path specified")
  else Return (relpath_of cwd path start).

(** ** The outside world *)

(** An HTTP response as the module reads it: [request.status] and the result
    of [json.loads(request.data.decode("utf8"))], which either raises
    [UnicodeDecodeError], raises [JSONDecodeError], or yields a document. *)
Inductive body :=
| BadUtf8 (msg : string)
| BadJson (msg : string)
| Json (doc : json).

Record HttpResponse := mkResponse { status : Z; data : body }.

(** [json.loads(data.decode("utf8"))] *)
Definition json_loads (d : body) : outcome json :=
  match d with
  | BadUtf8 msg => Raise (UnicodeDecodeError msg)
  | BadJson msg => Raise (JSONDecodeError msg)
  | Json doc => Return doc
  end.

(** The object [boto3.client("s3", ...)] returns: its constructor arguments. *)
Record S3Client := mkClient {
  aws_access_key_id : json;
  aws_secret_access_key : json;
  aws_session_token : json;
  region_name : string }.

Inductive log_level := INFO | ERROR.

(** The pieces of an f-string passed to [logging]: literal text and the
    interpolated values. *)
Inductive fpart :=
| FLit (s : string)
| FStr (v : option string)
| FJson (v : json)
| FExn (e : exn).

(** The arguments of [http.request(method, url, body=json.dumps(payload),
    headers=headers)]. *)
Record HttpRequest := mkRequest {
  method : string;
  url : string;
  payload : json;
  headers : json }.

(** The calls the module makes to the outside, in the order made. *)
Inductive event :=
| EHttpRequest (rq : HttpRequest)
| EBoto3Client (client : S3Client)
| ESleep (seconds : Z)
| EUploadFile (client : S3Client) (filename : string) (bkt : option string)
    (key : string)
| EEnrichMetadata (client : option S3Client) (bkt path : option string)
| EPersistChecksResults (doc : json) (client : option S3Client)
    (bkt path : option string)
| ELog (level : log_level) (msg : list fpart).

(** What the module imports and calls.  Each call that reaches the outside
    sees the calls made so far, so the same request may be answered
    differently the second time.  [SUPPORTED_FILE_EXTENSIONS] comes from
    [checkov.common.models.consts]; [reduce_scan_reports],
    [enrich_and_persist_checks_metadata] and [persist_checks_results] come
    from the [wrapper] module.  [http_request] answers with a response or
    raises; [boto3_client] and [upload_file] raise [Some e] or succeed. *)
Record Env (Report : Type) := mkEnv {
  SUPPORTED_FILE_EXTENSIONS : list string;
  http_request : list event → HttpRequest → outcome HttpResponse;
  boto3_client : list event → S3Client → option exn;
  upload_file : list event → S3Client → string → option string → string → option exn;
  os_walk : string → list (string * list string * list string);
  os_getcwd : string;
  reduce_scan_reports : list Report → outcome json;
  enrich_and_persist_checks_metadata :
    list event → list Report → option S3Client → option string → option string →
    outcome json;
  persist_checks_results :
    list event → json → option S3Client → option string → option string →
    option exn }.
Arguments SUPPORTED_FILE_EXTENSIONS {Report} _.
Arguments http_request {Report} _ _ _.
Arguments boto3_client {Report} _ _ _.
Arguments upload_file {Report} _ _ _ _ _ _.
Arguments os_walk {Report} _ _.
Arguments os_getcwd {Report} _.
Arguments reduce_scan_reports {Report} _ _.
Arguments enrich_and_persist_checks_metadata {Report} _ _ _ _ _ _.
Arguments persist_checks_results {Report} _ _ _ _ _ _.

(** ** The session object *)

(** The attributes of a [BcPlatformIntegration] instance.  [credentials]
    holds whatever the response had under ["creds"]; [JNull] is [None]. *)
Record Session (Report : Type) := mkSession {
  bc_api_key : option string;
  s3_client : option S3Client;
  bucket : option string;
  credentials : json;
  repo_path : option string;
  timestamp : option string;
  scan_reports : list Report }.
Arguments mkSession {Report} _ _ _ _ _ _ _.
Arguments bc_api_key {Report} _.
Arguments s3_client {Report} _.
Arguments bucket {Report} _.
Arguments credentials {Report} _.
Arguments repo_path {Report} _.
Arguments timestamp {Report} _.
Arguments scan_reports {Report} _.

(** [__init__] *)
Definition BcPlatformIntegration {Report : Type} : Session Report :=
  mkSession None None None JNull None None [].

(** ** Python operations that may raise *)

(** [v[key]] for a string [key]. *)
Definition getitem (v : json) (key : string) : outcome json :=
  match v with
  | JObj fields =>
      match fields !! key with
      | Some x => Return x
      | None => Raise (KeyError key)
      end
  | JStr _ => Raise (TypeError "string indices must be integers")
  | JArr _ => Raise (TypeError "list indices must be integers or slices, not str")
  | _ => Raise (TypeError ("'" +:+ type_name v +:+ "' object is not subscriptable"))
  end.

(** [v.split("/", 1)] *)
Definition split1_method (v : json) : outcome (list string) :=
  match v with
  | JStr s => Return (str_split1 s)
  | _ => Raise (AttributeError
                  ("'" +:+ type_name v +:+ "' object has no attribute 'split'"))
  end.

(** [x.split("/")] for an attribute that holds [None] or a string. *)
Definition split_method (x : option string) : outcome (list string) :=
  match x with
  | Some s => Return (str_split s)
  | None => Raise (AttributeError "'NoneType' object has no attribute 'split'")
  end.

(** [a, b = l] *)
Definition unpack2 (l : list string) : outcome (string * string) :=
  match l with
  | [a; b] => Return (a, b)
  | _ :: _ :: _ :: _ => Raise (ValueError "too many values to unpack (expected 2)")
  | [_] => Raise (ValueError "not enough values to unpack (expected 2, got 1)")
  | [] => Raise (ValueError "not enough values to unpack (expected 2, got 0)")
  end.

(** [os.path.join(a, b)] where [a] is an attribute that may be [None]. *)
Definition os_path_join (a : option string) (b : string) : outcome string :=
  match a with
  | Some s => Return (path_join s b)
  | None => Raise (TypeError
                     "expected str, bytes or os.PathLike object, not NoneType")
  end.

(** ** The monad of method bodies *)

(** A computation over a state [St] (the [self] object, possibly with the
    local variables of the running method) that appends to the trace of
    external calls and ends by returning or raising. *)
Definition M (St A : Type) : Type :=
  St → list event → outcome A * St * list event.

Definition ret {St A} (a : A) : M St A := λ s t, (Return a, s, t).

Definition raise {St A} (e : exn) : M St A := λ s t, (Raise e, s, t).

Definition bind {St A B} (c : M St A) (k : A → M St B) : M St B :=
  λ s t, match c s t with
         | (Return a, s', t') => k a s' t'
         | (Raise e, s', t') => (Raise e, s', t')
         end.

Declare Scope py_scope.
Delimit Scope py_scope with py.
Notation "x <- c ;; k" := (bind c (λ x, k))
  (at level 100, c at next level, right associativity) : py_scope.
Notation "c ;; k" := (bind c (λ _, k))
  (at level 100, right associativity) : py_scope.
#[local] Open Scope py_scope.

Definition get {St} : M St St := λ s t, (Return s, s, t).

Definition modify {St} (f : St → St) : M St unit := λ s t, (Return tt, f s, t).

Definition lift {St A} (r : outcome A) : M St A := λ s t, (r, s, t).

Definition emit {St} (ev : event) : M St unit :=
  λ s t, (Return tt, s, t ++ [ev]).

(** [try: c  except ... as e: h e] where [h] re-raises what it does not
    handle. *)
Definition try_except {St A} (c : M St A) (h : exn → M St A) : M St A :=
  λ s t, match c s t with
         | (Raise e, s', t') => h e s' t'
         | r => r
         end.

(** [try: c  finally: f].  The [finally] block always runs; when it raises,
    its exception replaces the outcome of [c]. *)
Definition try_finally {St A} (c : M St A) (f : M St unit) : M St A :=
  λ s t, match c s t with
         | (r, s', t') =>
             match f s' t' with
             | (Return _, s'', t'') => (r, s'', t'')
             | (Raise e, s'', t'') => (Raise e, s'', t'')
             end
         end.

(** [for x in l: body x] *)
Fixpoint for_each {St A} (l : list A) (body : A → M St unit) : M St unit :=
  match l with
  | [] => ret tt
  | x :: l' => body x ;; for_each l' body
  end.

(** Run a method body that has local variables [L] next to [self]. *)
Definition with_locals {St L A} (l0 : L) (c : M (St * L) A) : M St A :=
  λ s t, match c (s, l0) t with
         | (r, (s', _), t') => (r, s', t')
         end.

Definition get_self {St L} : M (St * L) St := λ s t, (Return (fst s), s, t).

Definition get_locals {St L} : M (St * L) L := λ s t, (Return (snd s), s, t).

Definition modify_locals {St L} (f : L → L) : M (St * L) unit :=
  λ s t, (Return tt, (fst s, f (snd s)), t).

Definition logging_error {St} (msg : list fpart) : M St unit :=
  emit (ELog ERROR msg).

Definition logging_info {St} (msg : list fpart) : M St unit :=
  emit (ELog INFO msg).

Definition sleep {St} (seconds : Z) : M St unit := emit (ESleep seconds).

(** ** Module constants *)

Definition BC_API_URL : string := "https://www.bridgecrew.cloud/api/v1".
Definition INTEGRATIONS_API_URL : string :=
  BC_API_URL +:+ "/integrations/types/checkov".
Definition DEFAULT_REGION : string := "us-west-2".

(** The newline of the log messages. *)
Definition nl : string := String (ascii_of_nat 10) EmptyString.

(** ** Attribute assignment *)

Section Attributes.
Context {Report : Type}.

Definition set_bc_api_key (v : option string) (s : Session Report) :=
  mkSession v (s3_client s) (bucket s) (credentials s) (repo_path s)
    (timestamp s) (scan_reports s).

Definition set_s3_client (v : option S3Client) (s : Session Report) :=
  mkSession (bc_api_key s) v (bucket s) (credentials s) (repo_path s)
    (timestamp s) (scan_reports s).

Definition set_bucket (v : option string) (s : Session Report) :=
  mkSession (bc_api_key s) (s3_client s) v (credentials s) (repo_path s)
    (timestamp s) (scan_reports s).

Definition set_credentials (v : json) (s : Session Report) :=
  mkSession (bc_api_key s) (s3_client s) (bucket s) v (repo_path s)
    (timestamp s) (scan_reports s).

Definition set_repo_path (v : option string) (s : Session Report) :=
  mkSession (bc_api_key s) (s3_client s) (bucket s) (credentials s) v
    (timestamp s) (scan_reports s).

Definition set_timestamp (v : option string) (s : Session Report) :=
  mkSession (bc_api_key s) (s3_client s) (bucket s) (credentials s)
    (repo_path s) v (scan_reports s).

Definition set_scan_reports (v : list Report) (s : Session Report) :=
  mkSession (bc_api_key s) (s3_client s) (bucket s) (credentials s)
    (repo_path s) (timestamp s) v.
End Attributes.

(** The local variables of [commit_repository].  [request] starts as
    Python's [None] (here [None]); [response] is unbound (here [None]) until
    [json.loads] has returned. *)
Record commit_locals := mkLocals {
  request : option HttpResponse;
  response : option json }.

Definition set_request (v : HttpResponse) (l : commit_locals) : commit_locals :=
  mkLocals (Some v) (response l).

Definition set_response (v : json) (l : commit_locals) : commit_locals :=
  mkLocals (request l) (Some v).

(** ** The methods of [BcPlatformIntegration] *)

Section Methods.
Context {Report : Type} (E : Env Report).

(** [http.request(method, url, body=json.dumps(payload), headers=headers)] *)
Definition call_http_request {St} (method url : string) (payload headers : json)
  : M St HttpResponse :=
  λ s t, (http_request E t (mkRequest method url payload headers), s,
          t ++ [EHttpRequest (mkRequest method url payload headers)]).

(** [boto3.client("s3", ...)] *)
Definition call_boto3_client {St} (c : S3Client) : M St S3Client :=
  λ s t, (match boto3_client E t c with
          | Some e => Raise e
          | None => Return c
          end, s, t ++ [EBoto3Client c]).

(** [client.upload_file(filename, bucket, key)]; on [None] the attribute
    lookup raises before anything is sent. *)
Definition call_upload_file {St} (client : option S3Client) (filename : string)
    (bkt : option string) (key : string) : M St unit :=
  match client with
  | None =>
      raise (AttributeError "'NoneType' object has no attribute 'upload_file'")
  | Some c =>
      λ s t, (match upload_file E t c filename bkt key with
              | Some e => Raise e
              | None => Return tt
              end, s, t ++ [EUploadFile c filename bkt key])
  end.

Definition call_enrich_and_persist_checks_metadata {St}
    (reports : list Report) (client : option S3Client)
    (bkt path : option string) : M St json :=
  λ s t, (enrich_and_persist_checks_metadata E t reports client bkt path, s,
          t ++ [EEnrichMetadata client bkt path]).

Definition call_persist_checks_results {St} (doc : json)
    (client : option S3Client) (bkt path : option string) : M St unit :=
  λ s t, (match persist_checks_results E t doc client bkt path with
          | Some e => Raise e
          | None => Return tt
          end, s, t ++ [EPersistChecksResults doc client bkt path]).

(** The three [except] clauses of [setup_bridgecrew_credentials], tried in
    the order of the source; each catches its class and the classes derived
    from it. *)
Definition setup_handlers (e : exn) : M (Session Report) unit :=
  match e with
  | HTTPError _ | Subclass OfHTTPError _ _ =>
      logging_error [FLit "Failed to get customer assumed role"; FLit nl; FExn e] ;;
      raise e
  | ClientError _ | Subclass OfClientError _ _ =>
      self <- get ;;
      logging_error [FLit "Failed to initiate client with credentials ";
                     FJson (credentials self); FLit nl; FExn e] ;;
      raise e
  | JSONDecodeError _ | Subclass OfJSONDecodeError _ _ =>
      logging_error [FLit "Response of "; FLit INTEGRATIONS_API_URL;
                     FLit " is not a valid JSON"; FLit nl; FExn e] ;;
      raise e
  | _ => raise e
  end.

Definition setup_bridgecrew_credentials (api_key repo_id : string)
  : M (Session Report) unit :=
  modify (set_bc_api_key (Some api_key)) ;;
  try_except
    (rq <- call_http_request "POST" INTEGRATIONS_API_URL
             (JObj {[ "repoId" := JStr repo_id ]})
             (JObj (<[ "Authorization" := JStr api_key ]>
                      {[ "Content-Type" := JStr "application/json" ]})) ;;
     resp <- lift (json_loads (data rq)) ;;
     repo_full_path <- lift (getitem resp "path") ;;
     parts <- lift (split1_method repo_full_path) ;;
     bp <- lift (unpack2 parts) ;;
     modify (set_bucket (Some (fst bp))) ;;
     modify (set_repo_path (Some (snd bp))) ;;
     self <- get ;;
     segments <- lift (split_method (repo_path self)) ;;
     modify (set_timestamp (Some (last_item segments))) ;;
     creds <- lift (getitem resp "creds") ;;
     modify (set_credentials creds) ;;
     self <- get ;;
     access_key <- lift (getitem (credentials self) "AccessKeyId") ;;
     secret_key <- lift (getitem (credentials self) "SecretAccessKey") ;;
     token <- lift (getitem (credentials self) "SessionToken") ;;
     client <- call_boto3_client
                 (mkClient access_key secret_key token DEFAULT_REGION) ;;
     modify (set_s3_client (Some client)) ;;
     sleep 10)
    setup_handlers.

(** [all([self.repo_path, self.credentials, self.s3_client])]; a client
    object is always truthy. *)
Definition is_integration_configured (self : Session Report) : bool :=
  str_truthy (repo_path self)
  && json_truthy (credentials self)
  && match s3_client self with Some _ => true | None => false end.

Definition _persist_file (full_file_path relative_file_path : string)
  : M (Session Report) unit :=
  self <- get ;;
  file_object_key <- lift (os_path_join (repo_path self) relative_file_path) ;;
  try_except
    (self <- get ;;
     call_upload_file (s3_client self) full_file_path (bucket self)
       file_object_key)
    (λ e,
       self <- get ;;
       logging_error [FLit "failed to persist file "; FLit full_file_path;
                      FLit " into S3 bucket "; FStr (bucket self);
                      FLit nl; FExn e] ;;
       raise e).

(** [file_extension in SUPPORTED_FILE_EXTENSIONS] *)
Definition supported (file_path : string) : bool :=
  bool_decide (snd (splitext file_path) ∈ SUPPORTED_FILE_EXTENSIONS E).

Definition persist_repository (root_dir : string) : M (Session Report) unit :=
  for_each (os_walk E root_dir) (λ entry,
    let root_path := fst (fst entry) in
    let f_names := snd entry in
    for_each f_names (λ file_path,
      if supported file_path then
        let full_file_path := path_join root_path file_path in
        relative_file_path <-
          lift (relpath (os_getcwd E) full_file_path root_dir) ;;
        _persist_file full_file_path relative_file_path
      else ret tt)).
End Methods.

(** ** Merging the metadata paths into the reduced result *)

(** Modelled from the spec: [dpath.util.merge] and the [wrapper] module that
    builds its two arguments are not in this module.  The merge is the
    structural merge of section 4.3 over tree-shaped values (a mapping from
    strings to values or sub-mappings): where both sides hold a mapping the
    mappings are combined key by key, recursively; anywhere else the value of
    the metadata map ([src]) takes precedence; keys that only one side has
    are kept. *)
Fixpoint merge (dst src : json) : json :=
  match dst, src with
  | JObj d, JObj s => JObj (union_with (λ a b, Some (merge a b)) d s)
  | _, _ => src
  end.

(** The value found by following a path of keys from the root. *)
Fixpoint get_path (p : list string) (doc : json) : option json :=
  match p with
  | [] => Some doc
  | k :: p' =>
      match doc with
      | JObj fields =>
          match fields !! k with
          | Some v => get_path p' v
          | None => None
          end
      | _ => None
      end
  end.

(** A path is named by a document when following it from the root ends at a
    scalar before the path is used up, or reaches a value.  [outside p src]
    says that [p] leaves the mappings of [src] at a key [src] does not have. *)
Fixpoint outside (p : list string) (src : json) : bool :=
  match p, src with
  | k :: p', JObj fields =>
      match fields !! k with
      | None => true
      | Some v => outside p' v
      end
  | _, _ => false
  end.

Section Results.
Context {Report : Type} (E : Env Report).

Definition persist_scan_results (reports : list Report)
  : M (Session Report) unit :=
  modify (set_scan_reports reports) ;;
  reduced_scan_reports <- lift (reduce_scan_reports E reports) ;;
  self <- get ;;
  checks_metadata_paths <-
    call_enrich_and_persist_checks_metadata E reports (s3_client self)
      (bucket self) (repo_path self) ;;
  let merged := merge reduced_scan_reports checks_metadata_paths in
  self <- get ;;
  call_persist_checks_results E merged (s3_client self) (bucket self)
    (repo_path self).

(** The body of the [try] block of [commit_repository]. *)
Definition commit_try : M (Session Report * commit_locals) unit :=
  self <- get_self ;;
  rq <- call_http_request E "PUT" INTEGRATIONS_API_URL
          (JObj (<[ "path" := json_of_opt (repo_path self) ]>
                   {[ "branch" := JStr "master" ]}))
          (JObj (<[ "Authorization" := json_of_opt (bc_api_key self) ]>
                   {[ "Content-Type" := JStr "application/json" ]})) ;;
  modify_locals (set_request rq) ;;
  resp <- lift (json_loads (data rq)) ;;
  modify_locals (set_response resp).

(** The two [except] clauses of [commit_repository]; each catches its class
    and the classes derived from it. *)
Definition commit_handlers (e : exn) : M (Session Report * commit_locals) unit :=
  match e with
  | HTTPError _ | Subclass OfHTTPError _ _ =>
      self <- get_self ;;
      logging_error [FLit "Failed to commit repository ";
                     FStr (repo_path self); FLit nl; FExn e] ;;
      raise e
  | JSONDecodeError _ | Subclass OfJSONDecodeError _ _ =>
      logging_error [FLit "Response of "; FLit INTEGRATIONS_API_URL;
                     FLit " is not a valid JSON"; FLit nl; FExn e] ;;
      raise e
  | _ => raise e
  end.

(** [request.status == 201 and response["result"] == "Success"], reading
    the local variables as they are when the [finally] block runs. *)
Definition commit_succeeded : M (Session Report * commit_locals) bool :=
  locals <- get_locals ;;
  match request locals with
  | None =>
      raise (AttributeError "'NoneType' object has no attribute 'status'")
  | Some rq =>
      if status rq =? 201 then
        match response locals with
        | None =>
            raise (UnboundLocalError
                     "local variable 'response' referenced before assignment")
        | Some resp =>
            result <- lift (getitem resp "result") ;;
            ret (json_eq_str result "Success")
        end
      else ret false
  end.

(** The [finally] block of [commit_repository]. *)
Definition commit_finally : M (Session Report * commit_locals) unit :=
  ok <- commit_succeeded ;;
  self <- get_self ;;
  if ok then
    logging_info [FLit "Finalize repository "; FStr (repo_path self);
                  FLit " in bridgecrew's platform"]
  else
    raise (PyException ("Failed to finalize repository "
                        +:+ py_str (repo_path self)
                        +:+ " in bridgecrew's platform")).

Definition commit_repository : M (Session Report) unit :=
  with_locals (mkLocals None None)
    (try_finally (try_except commit_try commit_handlers) commit_finally).
End Results.

(** ** Reading the result of a run *)

Definition outcome_of {St A} (x : outcome A * St * list event) : outcome A :=
  fst (fst x).

Definition state_of {St A} (x : outcome A * St * list event) : St :=
  snd (fst x).

Definition trace_of {St A} (x : outcome A * St * list event) : list event :=
  snd x.

(** A computation preserves the view [f] of its state: [f] is [id] for a
    method body over [self], [fst] for a body with local variables. *)
Definition preserves {St X A} (f : St → X) (c : M St A) : Prop :=
  ∀ s t, f (state_of (c s t)) = f s.

(** A computation that raises leaves the view [f] of its state as it was. *)
Definition raise_preserves {St X A} (f : St → X) (c : M St A) : Prop :=
  ∀ s t e, outcome_of (c s t) = Raise e → f (state_of (c s t)) = f s.

(** The [EHttpRequest] events of a trace. *)
Definition is_http_request (ev : event) : bool :=
  match ev with
  | EHttpRequest _ => true
  | _ => false
  end.

Definition http_requests (t : list event) : list event :=
  List.filter is_http_request t.

(** The [EUploadFile] events of a trace. *)
Definition is_upload (ev : event) : bool :=
  match ev with
  | EUploadFile _ _ _ _ => true
  | _ => false
  end.

Definition uploads (t : list event) : list event :=
  List.filter is_upload t.

(** ** The requests the module sends *)

(** The request of [setup_bridgecrew_credentials]. *)
Definition setup_request (api_key repo_id : string) : HttpRequest :=
  mkRequest "POST" INTEGRATIONS_API_URL
    (JObj {[ "repoId" := JStr repo_id ]})
    (JObj (<[ "Authorization" := JStr api_key ]>
             {[ "Content-Type" := JStr "application/json" ]})).

(** The request of [commit_repository]. *)
Definition commit_request {Report} (self : Session Report) : HttpRequest :=
  mkRequest "PUT" INTEGRATIONS_API_URL
    (JObj (<[ "path" := json_of_opt (repo_path self) ]>
             {[ "branch" := JStr "master" ]}))
    (JObj (<[ "Authorization" := json_of_opt (bc_api_key self) ]>
             {[ "Content-Type" := JStr "application/json" ]})).

(** ** Classes of answers to the credential request *)

(** A credential-exchange response that is valid JSON with a ["path"] string
    and a ["creds"] object holding the three credential fields. *)
Definition valid_setup_response (rq : HttpResponse) : bool :=
  match data rq with
  | Json (JObj o) =>
      match o !! "path", o !! "creds" with
      | Some (JStr _), Some (JObj c) =>
          bool_decide (is_Some (c !! "AccessKeyId"))
          && bool_decide (is_Some (c !! "SecretAccessKey"))
          && bool_decide (is_Some (c !! "SessionToken"))
      | _, _ => false
      end
  | _ => false
  end.

(** The ["path"] string of a response contains a "/". *)
Definition path_splits (rq : HttpResponse) : bool :=
  match data rq with
  | Json (JObj o) =>
      match o !! "path" with
      | Some (JStr full) => bool_decide (is_Some (str_cut full))
      | _ => false
      end
  | _ => false
  end.

(** The ["path"] string of a response has a "/" with at least one character
    after the first one. *)
Definition path_has_session (rq : HttpResponse) : bool :=
  match data rq with
  | Json (JObj o) =>
      match o !! "path" with
      | Some (JStr full) =>
          match str_cut full with
          | Some (_, rest) => negb (String.eqb rest "")
          | None => false
          end
      | _ => false
      end
  | _ => false
  end.

(** A malformed credential-exchange response: the body is not a JSON
    document (its bytes are not UTF-8, or its text is not JSON), or the
    document is not an object (so it has neither ["path"] nor ["creds"]), or
    it is an object without ["path"], or an object without ["creds"]. *)
Definition malformed_setup_response (rq : HttpResponse) : bool :=
  match data rq with
  | BadUtf8 _ | BadJson _ => true
  | Json (JObj o) =>
      bool_decide (o !! "path" = None) || bool_decide (o !! "creds" = None)
  | Json _ => true
  end.

(** The answer to the credential request makes the setup fail before the
    path is read: the request raised, the body is not JSON, or the document
    is an object without ["path"]. *)
Definition fails_before_path (a : outcome HttpResponse) : bool :=
  match a with
  | Raise _ => true
  | Return rq =>
      match data rq with
      | BadUtf8 _ | BadJson _ => true
      | Json (JObj o) => bool_decide (o !! "path" = None)
      | Json _ => false
      end
  end.

(** ** The session invariant *)

(** The session after a setup that returned. *)
Definition configured_session {Report} (self : Session Report)
    (api b p : string) (creds : json) (client : S3Client) : Session Report :=
  mkSession (Some api) (Some client) (Some b) creds (Some p)
    (Some (last_item (str_split p))) (scan_reports self).

(** An attribute is set when it is not [None]. *)
Definition repo_path_set {Report} (self : Session Report) : bool :=
  match repo_path self with
  | Some _ => true
  | None => false
  end.

Definition credentials_set {Report} (self : Session Report) : bool :=
  match credentials self with
  | JNull => false
  | _ => true
  end.

(** [repo_path] and [credentials] are both unset or both set. *)
Definition session_invariant {Report} (self : Session Report) : bool :=
  Bool.eqb (repo_path_set self) (credentials_set self).

(** ** What [commit_repository] logs and raises *)

(** The exception of the [else] branch of the [finally] block. *)
Definition finalize_failure {Report} (self : Session Report) : exn :=
  PyException ("Failed to finalize repository " +:+ py_str (repo_path self)
               +:+ " in bridgecrew's platform").

(** The exceptions of the [finally] block when it reads a local variable
    that holds [None] or is unbound. *)
Definition request_is_none : exn :=
  AttributeError "'NoneType' object has no attribute 'status'".

Definition response_is_unbound : exn :=
  UnboundLocalError "local variable 'response' referenced before assignment".

(** The log records of the [except] clauses of [commit_repository]. *)
Definition commit_handler_log {Report} (self : Session Report) (e : exn)
  : list event :=
  match e with
  | HTTPError _ | Subclass OfHTTPError _ _ =>
      [ELog ERROR [FLit "Failed to commit repository "; FStr (repo_path self);
                   FLit nl; FExn e]]
  | JSONDecodeError _ | Subclass OfJSONDecodeError _ _ =>
      [ELog ERROR [FLit "Response of "; FLit INTEGRATIONS_API_URL;
                   FLit " is not a valid JSON"; FLit nl; FExn e]]
  | _ => []
  end.

(** The log record of a commit that succeeded. *)
Definition finalize_log {Report} (self : Session Report) : event :=
  ELog INFO [FLit "Finalize repository "; FStr (repo_path self);
             FLit " in bridgecrew's platform"].

(** ** The uploads of [persist_repository] *)

Section Uploads.
Context {Report : Type} (E : Env Report).

(** The files that [os.walk] yields, each with the directory it was found
    in, in the order of the walk. *)
Definition walked_files (root_dir : string) : list (string * string) :=
  flat_map (λ entry, map (pair (fst (fst entry))) (snd entry))
    (os_walk E root_dir).

(** The walked files whose extension is supported. *)
Definition eligible_files (root_dir : string) : list (string * string) :=
  List.filter (λ rf, supported E (snd rf)) (walked_files root_dir).

(** No file name of the walk is the empty string. *)
Definition walk_names_nonempty (root_dir : string) : bool :=
  forallb (λ rf, negb (String.eqb (snd rf) "")) (walked_files root_dir).

(** [os.path.join(root_path, file_path)] for a walked file. *)
Definition full_path (rf : string * string) : string :=
  path_join (fst rf) (snd rf).

(** The storage key of a file: the session path joined with the path of
    the file relative to [root_dir]. *)
Definition object_key (session_path root_dir : string) (rf : string * string)
  : string :=
  path_join session_path (relpath_of (os_getcwd E) (full_path rf) root_dir).

(** The upload call for a file. *)
Definition upload_of (c : S3Client) (bkt : option string)
    (session_path root_dir : string) (rf : string * string) : event :=
  EUploadFile c (full_path rf) bkt (object_key session_path root_dir rf).

(** The answer of the storage to the upload of a file, given the calls
    made before it. *)
Definition upload_answer (t : list event) (c : S3Client) (bkt : option string)
    (session_path root_dir : string) (rf : string * string) : option exn :=
  upload_file E t c (full_path rf) bkt (object_key session_path root_dir rf).

(** The body of the loops of [persist_repository] for one eligible file. *)
Definition persist_one (root_dir : string) (rf : string * string)
  : M (Session Report) unit :=
  relative_file_path <-
    lift (relpath (os_getcwd E) (full_path rf) root_dir) ;;
  _persist_file E (full_path rf) relative_file_path.
End Uploads.

(** The log record of [_persist_file] for a failed upload. *)
Definition upload_failure_log (full_file_path : string) (bkt : option string)
    (e : exn) : event :=
  ELog ERROR [FLit "failed to persist file "; FLit full_file_path;
              FLit " into S3 bucket "; FStr bkt; FLit nl; FExn e].

(** ** The size of a document *)

(** The number of nodes of a document, counting through mappings. *)
Fixpoint json_size (v : json) : nat :=
  match v with
  | JObj fields => S (map_fold (λ _ x n, (json_size x + n)%nat) 0%nat fields)
  | _ => 1%nat
  end.

(** ** Sample data *)

Definition sample_creds : json :=
  JObj (<[ "AccessKeyId" := JStr "AKIAEXAMPLE" ]>
          (<[ "SecretAccessKey" := JStr "secret" ]>
             {[ "SessionToken" := JStr "token" ]})).

Definition setup_body (path : string) : body :=
  Json (JObj (<[ "path" := JStr path ]> {[ "creds" := sample_creds ]})).

Definition commit_body (result : string) : body :=
  Json (JObj {[ "result" := JStr result ]}).

(** An environment that answers every POST with [post] and every PUT with
    [put], constructs every storage client, fails the upload of the files
    listed in [failing] and of no other, and whose [os.walk] yields [walk].
    Scan reports are numbers; the reducer and the metadata publisher return
    fixed documents. *)
Definition sample_env (post put : outcome HttpResponse)
    (walk : list (string * list string * list string))
    (failing : list string) : Env nat :=
  mkEnv nat
    [".tf"; ".yml"; ".yaml"; ".json"; ".template"]
    (λ _ rq, if String.eqb (method rq) "POST" then post else put)
    (λ _ _, None)
    (λ _ _ filename _ _,
       if bool_decide (filename ∈ failing)
       then Some (OtherError "S3UploadFailedError" filename)
       else None)
    (λ _, walk)
    "/home/user"
    (λ _, Return (JObj {[ "terraform" := JObj {[ "checks" := JNum 2 ]} ]}))
    (λ _ _ _ _ _,
       Return (JObj {[ "terraform" :=
                         JObj {[ "checks_metadata_path" := JStr "m.json" ]} ]}))
    (λ _ _ _ _ _, None).

(** Sample answers to the credential request. *)
Definition good_setup_answer : outcome HttpResponse :=
  Return (mkResponse 200 (setup_body "bucket/checkov/owner/repo/1600000000")).

Definition empty_path_answer : outcome HttpResponse :=
  Return (mkResponse 200 (setup_body "bucket/")).

Definition no_creds_answer : outcome HttpResponse :=
  Return (mkResponse 200
            (Json (JObj {[ "path" := JStr "bucket/checkov/owner/repo/1600000000" ]}))).

Definition no_path_answer : outcome HttpResponse :=
  Return (mkResponse 200 (Json (JObj {[ "creds" := sample_creds ]}))).

Definition bad_json_answer : outcome HttpResponse :=
  Return (mkResponse 502 (BadJson "Expecting value: line 1 column 1 (char 0)")).

(** Sample answers to the commit request. *)
Definition commit_answer (code : Z) (result : string) : outcome HttpResponse :=
  Return (mkResponse code (commit_body result)).

(** A session as [setup_bridgecrew_credentials] leaves it after
    [good_setup_answer]. *)
Definition open_session : Session nat :=
  state_of
    (setup_bridgecrew_credentials
       (sample_env good_setup_answer (commit_answer 201 "Success") [] [])
       "api-key" "owner/repo" BcPlatformIntegration []).

(** A sample walk: five files with a supported extension and two without,
    in two directories. *)
Definition sample_walk : list (string * list string * list string) :=
  [("/repo", ["modules"], ["main.tf"; "README.md"; "vars.tf"; "ci.yml"]);
   ("/repo/modules", [], ["vpc.tf"; "notes.txt"; "stack.json"])].

(** Sample documents: a reduced result with two check types and the
    metadata path map for one of them. *)
Definition sample_reduced : json :=
  JObj (<[ "terraform" := JObj {[ "checks" := JNum 2 ]} ]>
          {[ "cloudformation" := JObj {[ "checks" := JNum 1 ]} ]}).

Definition sample_metadata_paths : json :=
  JObj {[ "terraform" := JObj {[ "checks_metadata_path" := JStr "m.json" ]} ]}.

(** ** Notions for the further properties *)

(** [c in s] for a character [c]. *)
Fixpoint str_contains (c : ascii) (s : string) : bool :=
  match s with
  | EmptyString => false
  | String a s' => Ascii.eqb a c || str_contains c s'
  end.

(** The first credential field, in the order in which the arguments of
    [boto3.client] are evaluated, that a credentials object lacks. *)
Definition first_missing_credential (c : gmap string json) : option string :=
  if bool_decide (c !! "AccessKeyId" = None) then Some "AccessKeyId"
  else if bool_decide (c !! "SecretAccessKey" = None) then Some "SecretAccessKey"
  else if bool_decide (c !! "SessionToken" = None) then Some "SessionToken"
  else None.

(** Kinds of events. *)
Definition is_sleep (ev : event) : bool :=
  match ev with
  | ESleep _ => true
  | _ => false
  end.

Definition is_client (ev : event) : bool :=
  match ev with
  | EBoto3Client _ => true
  | _ => false
  end.

Definition is_log (ev : event) : bool :=
  match ev with
  | ELog _ _ => true
  | _ => false
  end.

Definition is_info_log (ev : event) : bool :=
  match ev with
  | ELog INFO _ => true
  | _ => false
  end.

Definition is_wrapper_call (ev : event) : bool :=
  match ev with
  | EEnrichMetadata _ _ _ | EPersistChecksResults _ _ _ _ => true
  | _ => false
  end.

(** A computation appends to the trace it is given, and only events that
    satisfy [Q]. *)
Definition emits_only {St A} (Q : event → bool) (c : M St A) : Prop :=
  ∀ s t, ∃ t', trace_of (c s t) = t ++ t' ∧ forallb Q t' = true.

(** The same for the runs that raise. *)
Definition raise_emits_only {St A} (Q : event → bool) (c : M St A) : Prop :=
  ∀ s t e, outcome_of (c s t) = Raise e →
    ∃ t', trace_of (c s t) = t ++ t' ∧ forallb Q t' = true.

(** The log records of the [except] clauses of
    [setup_bridgecrew_credentials]. *)
Definition setup_handler_log {Report} (self : Session Report) (e : exn)
  : list event :=
  match e with
  | HTTPError _ | Subclass OfHTTPError _ _ =>
      [ELog ERROR [FLit "Failed to get customer assumed role"; FLit nl; FExn e]]
  | ClientError _ | Subclass OfClientError _ _ =>
      [ELog ERROR [FLit "Failed to initiate client with credentials ";
                   FJson (credentials self); FLit nl; FExn e]]
  | JSONDecodeError _ | Subclass OfJSONDecodeError _ _ =>
      [ELog ERROR [FLit "Response of "; FLit INTEGRATIONS_API_URL;
                   FLit " is not a valid JSON"; FLit nl; FExn e]]
  | _ => []
  end.

(** The session when [setup_bridgecrew_credentials] has stored the path and
    the credentials and has not bound a client. *)
Definition session_with_credentials {Report} (self : Session Report)
    (api b p : string) (creds : json) : Session Report :=
  mkSession (Some api) (s3_client self) (Some b) creds (Some p)
    (Some (last_item (str_split p))) (scan_reports self).

(** The session when [setup_bridgecrew_credentials] has stored the path
    only. *)
Definition session_with_path {Report} (self : Session Report)
    (api b p : string) : Session Report :=
  mkSession (Some api) (s3_client self) (Some b) (credentials self) (Some p)
    (Some (last_item (str_split p))) (scan_reports self).

(** An environment like [E] whose [boto3.client] raises [e]. *)
Definition with_boto3_failure {Report} (E : Env Report) (e : exn) : Env Report :=
  mkEnv Report (SUPPORTED_FILE_EXTENSIONS E) (http_request E) (λ _ _, Some e)
    (upload_file E) (os_walk E) (os_getcwd E) (reduce_scan_reports E)
    (enrich_and_persist_checks_metadata E) (persist_checks_results E).

(** A sample answer with the credentials document [creds]. *)
Definition creds_answer (creds : json) : outcome HttpResponse :=
  Return (mkResponse 200
            (Json (JObj (<[ "path" := JStr "bucket/checkov/owner/repo/1600000000" ]>
                           {[ "creds" := creds ]})))).

(** A sample answer with the value [path] under ["path"]. *)
Definition path_answer (path : json) : outcome HttpResponse :=
  Return (mkResponse 200
            (Json (JObj (<[ "path" := path ]> {[ "creds" := sample_creds ]})))).

(** A file name without an extension for [os.path.splitext]: it has no dot,
    or its only dot is its first character. *)
Definition no_extension (file_path : string) : bool :=
  negb (str_contains dot file_path)
  || match file_path with
     | String c rest =>
         Ascii.eqb c dot && negb (str_contains dot rest)
         && negb (str_contains slash rest)
     | EmptyString => false
     end.

(** A path component: not empty and not starting with "/". *)
Definition component (x : string) : Prop :=
  x ≠ "" ∧ starts_with_slash x = false.

(** The separator [os.path.join] puts after its first argument. *)
Definition join_separator (a : string) : string :=
  if String.eqb a "" || ends_with_slash a then "" else "/".

(** * Properties *)

(** ** The string and path operations on examples *)

(** The values are those of Python's [str.split] and [posixpath]. *)
Example split1_path :
  str_split1 "bucket/checkov/owner/repo" = ["bucket"; "checkov/owner/repo"].
Proof. reflexivity. Qed.

Example split1_no_slash : str_split1 "bucket" = ["bucket"].
Proof. reflexivity. Qed.

Example split1_trailing_slash : str_split1 "bucket/" = ["bucket"; ""].
Proof. reflexivity. Qed.

Example split_segments :
  str_split "checkov/owner//repo/" = ["checkov"; "owner"; ""; "repo"; ""].
Proof. reflexivity. Qed.

Example splitext_plain : splitext "main.tf" = ("main", ".tf").
Proof. reflexivity. Qed.

Example splitext_hidden : splitext ".bashrc" = (".bashrc", "").
Proof. reflexivity. Qed.

Example splitext_last_dot : splitext "archive.tar.gz" = ("archive.tar", ".gz").
Proof. reflexivity. Qed.

Example splitext_dot_in_directory :
  splitext "conf.d/readme" = ("conf.d/readme", "").
Proof. reflexivity. Qed.

Example join_relative : path_join "/repo" "main.tf" = "/repo/main.tf".
Proof. reflexivity. Qed.

Example join_trailing_slash : path_join "/repo/" "main.tf" = "/repo/main.tf".
Proof. reflexivity. Qed.

Example join_absolute : path_join "/repo" "/etc/passwd" = "/etc/passwd".
Proof. reflexivity. Qed.

Example join_empty_head : path_join "" "main.tf" = "main.tf".
Proof. reflexivity. Qed.

Example normpath_dots : normpath "/a/./b/../c//d/" = "/a/c/d".
Proof. reflexivity. Qed.

Example normpath_two_slashes : normpath "//a/.." = "//".
Proof. reflexivity. Qed.

Example normpath_parent : normpath "../a/../../b" = "../../b".
Proof. reflexivity. Qed.

Example relpath_below :
  relpath "/home/user" "/repo/sub/main.tf" "/repo" = Return "sub/main.tf".
Proof. reflexivity. Qed.

Example relpath_relative_root :
  relpath "/home/user" "repo/./sub/main.tf" "repo/" = Return "sub/main.tf".
Proof. reflexivity. Qed.

Example relpath_sibling :
  relpath "/home/user" "/repo/sub/main.tf" "/repo/other" = Return "../sub/main.tf".
Proof. reflexivity. Qed.

Example relpath_same : relpath "/home/user" "/repo" "/repo" = Return ".".
Proof. reflexivity. Qed.

Example relpath_empty :
  relpath "/home/user" "" "/repo" = Raise (ValueError "no path specified").
Proof. reflexivity. Qed.

(** Case analysis on an exception, down to the clause that catches it. *)
Ltac destruct_exn e :=
  destruct e as [?|?|?|?|?|?|?|?|?|?|? ?|[| |] ? ?].

(** ** Frame lemmas for the monad *)

Section Preserves.
Context {St X : Type} (f : St → X).

Lemma preserves_ret {A} (a : A) : preserves f (ret a).
Proof. intros s t. reflexivity. Qed.

Lemma preserves_raise {A} (e : exn) : preserves f (raise (A := A) e).
Proof. intros s t. reflexivity. Qed.

Lemma preserves_lift {A} (r : outcome A) : preserves f (lift r).
Proof. intros s t. reflexivity. Qed.

Lemma preserves_get : preserves f get.
Proof. intros s t. reflexivity. Qed.

Lemma preserves_emit ev : preserves f (emit ev).
Proof. intros s t. reflexivity. Qed.

Lemma preserves_logging_error msg : preserves f (logging_error msg).
Proof. intros s t. reflexivity. Qed.

Lemma preserves_logging_info msg : preserves f (logging_info msg).
Proof. intros s t. reflexivity. Qed.

Lemma preserves_sleep n : preserves f (sleep n).
Proof. intros s t. reflexivity. Qed.

Lemma preserves_modify (g : St → St) :
  (∀ s, f (g s) = f s) → preserves f (modify g).
Proof. intros Hg s t. apply Hg. Qed.

Lemma preserves_bind {A B} (c : M St A) (k : A → M St B) :
  preserves f c → (∀ a, preserves f (k a)) → preserves f (bind c k).
Proof.
  intros Hc Hk s t. unfold bind. specialize (Hc s t).
  destruct (c s t) as [[[a|e] s'] t']; unfold state_of in *; simpl in *.
  - rewrite <- Hc. apply Hk.
  - exact Hc.
Qed.

Lemma preserves_try_except {A} (c : M St A) (h : exn → M St A) :
  preserves f c → (∀ e, preserves f (h e)) → preserves f (try_except c h).
Proof.
  intros Hc Hh s t. unfold try_except. specialize (Hc s t).
  destruct (c s t) as [[[a|e] s'] t']; unfold state_of in *; simpl in *.
  - exact Hc.
  - rewrite <- Hc. apply Hh.
Qed.

Lemma preserves_try_finally {A} (c : M St A) (fin : M St unit) :
  preserves f c → preserves f fin → preserves f (try_finally c fin).
Proof.
  intros Hc Hfin s t. unfold try_finally. specialize (Hc s t).
  destruct (c s t) as [[r s'] t']. specialize (Hfin s' t').
  destruct (fin s' t') as [[[u|e] s''] t'']; unfold state_of in *;
    simpl in *; congruence.
Qed.

Lemma raise_preserves_bind {A B} (c : M St A) (k : A → M St B) :
  preserves f c → (∀ a, raise_preserves f (k a)) →
  raise_preserves f (bind c k).
Proof.
  intros Hc Hk s t e. unfold bind. specialize (Hc s t).
  destruct (c s t) as [[[a|e'] s'] t']; unfold state_of in *; simpl in *.
  - intros He. rewrite <- Hc. exact (Hk a s' t' e He).
  - intros _. exact Hc.
Qed.

Lemma raise_preserves_returns {A} (c : M St A) :
  (∀ s t, is_Return (outcome_of (c s t)) = true) → raise_preserves f c.
Proof.
  intros Hc s t e He. specialize (Hc s t). rewrite He in Hc. discriminate.
Qed.

Lemma raise_preserves_try_except {A} (c : M St A) (h : exn → M St A) :
  raise_preserves f c → (∀ e, preserves f (h e)) →
  raise_preserves f (try_except c h).
Proof.
  intros Hc Hh s t e. unfold try_except. specialize (Hc s t).
  destruct (c s t) as [[[a|e'] s'] t']; unfold state_of, outcome_of in *;
    simpl in *.
  - discriminate.
  - intros _. rewrite <- (Hc e' eq_refl). apply Hh.
Qed.

Lemma preserves_for_each {A} (l : list A) (body : A → M St unit) :
  (∀ x, preserves f (body x)) → preserves f (for_each l body).
Proof.
  intros Hbody. induction l as [|x l IH]; simpl.
  - apply preserves_ret.
  - apply preserves_bind; [apply Hbody | intros _; exact IH].
Qed.
End Preserves.

Lemma preserves_with_locals {St L A} (l0 : L) (c : M (St * L) A) :
  preserves fst c → preserves id (with_locals l0 c).
Proof.
  intros Hc s t. unfold with_locals. specialize (Hc (s, l0) t).
  destruct (c (s, l0) t) as [[r [s' l']] t']. exact Hc.
Qed.

Lemma preserves_get_self {St L} : preserves (@fst St L) get_self.
Proof. intros s t. reflexivity. Qed.

Lemma preserves_get_locals {St L} : preserves (@fst St L) get_locals.
Proof. intros s t. reflexivity. Qed.

Lemma preserves_modify_locals {St L} (g : L → L) :
  preserves (@fst St L) (modify_locals g).
Proof. intros s t. reflexivity. Qed.

Section PreservesCalls.
Context {Report St X : Type} (E : Env Report) (f : St → X).

Lemma preserves_http method url payload headers :
  preserves f (call_http_request E method url payload headers).
Proof. intros s t. reflexivity. Qed.

Lemma preserves_boto3 c : preserves f (call_boto3_client E c).
Proof. intros s t. reflexivity. Qed.

Lemma preserves_upload client filename bkt key :
  preserves f (call_upload_file E client filename bkt key).
Proof. intros s t. destruct client; reflexivity. Qed.

Lemma preserves_enrich reports client bkt path :
  preserves f
    (call_enrich_and_persist_checks_metadata E reports client bkt path).
Proof. intros s t. reflexivity. Qed.

Lemma preserves_persist_checks doc client bkt path :
  preserves f (call_persist_checks_results E doc client bkt path).
Proof. intros s t. reflexivity. Qed.
End PreservesCalls.

Create HintDb frame discriminated.
#[local] Hint Resolve preserves_ret preserves_raise preserves_lift preserves_get
  preserves_emit preserves_logging_error preserves_logging_info
  preserves_sleep preserves_bind preserves_try_except preserves_try_finally
  preserves_for_each preserves_with_locals preserves_get_self
  preserves_get_locals preserves_modify_locals preserves_http preserves_boto3
  preserves_upload preserves_enrich preserves_persist_checks : frame.

Ltac frame_step :=
  first
    [ apply preserves_bind; [|intros ?]
    | apply preserves_try_except; [|intros ?]
    | apply preserves_try_finally
    | apply preserves_for_each; intros ?
    | apply preserves_with_locals
    | apply preserves_modify; reflexivity
    | solve [auto with frame]
    | match goal with
      | |- preserves _ (match ?x with _ => _ end) => destruct x
      | |- preserves _ (if ?b then _ else _) => destruct b
      end ].

Ltac frame := repeat frame_step.

Section FrameMethods.
Context {Report : Type} (E : Env Report).

Lemma persist_repository_preserves root_dir :
  preserves id (persist_repository E root_dir).
Proof.
  unfold persist_repository. frame.
Qed.

Lemma commit_repository_preserves :
  preserves id (commit_repository E).
Proof.
  unfold commit_repository, commit_try, commit_handlers, commit_finally,
    commit_succeeded.
  frame.
Qed.

Lemma persist_scan_results_state reports s t :
  state_of (persist_scan_results E reports s t) = set_scan_reports reports s.
Proof.
  unfold persist_scan_results, bind, modify, lift, get,
    call_enrich_and_persist_checks_metadata, call_persist_checks_results,
    state_of.
  cbv beta iota.
  destruct (reduce_scan_reports E reports); [|reflexivity].
  destruct (enrich_and_persist_checks_metadata _ _ _ _ _ _); [|reflexivity].
  destruct (persist_checks_results _ _ _ _ _ _); reflexivity.
Qed.
End FrameMethods.

(** ** Credential setup *)

Ltac unfold_monad :=
  unfold logging_error, logging_info, sleep;
  unfold bind, ret, raise, modify, lift, get, emit, try_except, try_finally,
    with_locals, get_self, get_locals, modify_locals; cbv beta iota.

Section Setup.
Context {Report : Type} (E : Env Report).
Implicit Types (s : Session Report) (t : list event).

(** What a run of [setup_bridgecrew_credentials] does once the answer to
    its request is known. *)
Lemma setup_run api repo s t :
  setup_bridgecrew_credentials E api repo s t =
    try_except
      (rq <- lift (http_request E t (setup_request api repo)) ;;
       resp <- lift (json_loads (data rq)) ;;
       repo_full_path <- lift (getitem resp "path") ;;
       parts <- lift (split1_method repo_full_path) ;;
       bp <- lift (unpack2 parts) ;;
       modify (set_bucket (Some (fst bp))) ;;
       modify (set_repo_path (Some (snd bp))) ;;
       self <- get ;;
       segments <- lift (split_method (repo_path self)) ;;
       modify (set_timestamp (Some (last_item segments))) ;;
       creds <- lift (getitem resp "creds") ;;
       modify (set_credentials creds) ;;
       self <- get ;;
       access_key <- lift (getitem (credentials self) "AccessKeyId") ;;
       secret_key <- lift (getitem (credentials self) "SecretAccessKey") ;;
       token <- lift (getitem (credentials self) "SessionToken") ;;
       client <- call_boto3_client E
                   (mkClient access_key secret_key token DEFAULT_REGION) ;;
       modify (set_s3_client (Some client)) ;;
       sleep 10)
      setup_handlers
      (set_bc_api_key (Some api) s) (t ++ [EHttpRequest (setup_request api repo)]).
Proof.
  unfold setup_bridgecrew_credentials, call_http_request, setup_request.
  unfold_monad.
  destruct (http_request E t _); reflexivity.
Qed.

Lemma setup_success api repo s t st o full b p creds ak sk tok :
  http_request E t (setup_request api repo) = Return (mkResponse st (Json (JObj o))) →
  o !! "path" = Some (JStr full) →
  str_cut full = Some (b, p) →
  o !! "creds" = Some creds →
  getitem creds "AccessKeyId" = Return ak →
  getitem creds "SecretAccessKey" = Return sk →
  getitem creds "SessionToken" = Return tok →
  boto3_client E (t ++ [EHttpRequest (setup_request api repo)])
    (mkClient ak sk tok DEFAULT_REGION) = None →
  setup_bridgecrew_credentials E api repo s t =
    (Return tt,
     configured_session s api b p creds (mkClient ak sk tok DEFAULT_REGION),
     t ++ [EHttpRequest (setup_request api repo);
           EBoto3Client (mkClient ak sk tok DEFAULT_REGION);
           ESleep 10]).
Proof.
  intros Hans Hpath Hcut Hcreds Hak Hsk Htok Hboto.
  rewrite setup_run, Hans. unfold_monad.
  cbn [data json_loads getitem]. rewrite Hpath. cbv beta iota.
  cbn [split1_method]. unfold str_split1. rewrite Hcut.
  cbn [unpack2 fst snd set_bucket set_repo_path repo_path split_method].
  cbv beta iota. rewrite Hcreds. cbv beta iota.
  cbn [set_credentials set_timestamp credentials]. rewrite Hak, Hsk, Htok.
  cbv beta iota. unfold call_boto3_client. rewrite Hboto.
  cbv beta iota. rewrite <- !app_assoc. reflexivity.
Qed.

Lemma setup_http_error api repo s t msg :
  http_request E t (setup_request api repo) = Raise (HTTPError msg) →
  setup_bridgecrew_credentials E api repo s t =
    (Raise (HTTPError msg), set_bc_api_key (Some api) s,
     t ++ [EHttpRequest (setup_request api repo);
           ELog ERROR [FLit "Failed to get customer assumed role"; FLit nl;
                       FExn (HTTPError msg)]]).
Proof.
  intros Hans. rewrite setup_run, Hans. unfold_monad.
  cbn [setup_handlers]. unfold_monad. rewrite <- !app_assoc. reflexivity.
Qed.

Lemma setup_bad_json api repo s t st msg :
  http_request E t (setup_request api repo) = Return (mkResponse st (BadJson msg)) →
  setup_bridgecrew_credentials E api repo s t =
    (Raise (JSONDecodeError msg), set_bc_api_key (Some api) s,
     t ++ [EHttpRequest (setup_request api repo);
           ELog ERROR [FLit "Response of "; FLit INTEGRATIONS_API_URL;
                       FLit " is not a valid JSON"; FLit nl;
                       FExn (JSONDecodeError msg)]]).
Proof.
  intros Hans. rewrite setup_run, Hans. unfold_monad.
  cbn [data json_loads setup_handlers]. unfold_monad.
  rewrite <- !app_assoc. reflexivity.
Qed.

Lemma setup_bad_utf8 api repo s t st msg :
  http_request E t (setup_request api repo) = Return (mkResponse st (BadUtf8 msg)) →
  setup_bridgecrew_credentials E api repo s t =
    (Raise (UnicodeDecodeError msg), set_bc_api_key (Some api) s,
     t ++ [EHttpRequest (setup_request api repo)]).
Proof.
  intros Hans. rewrite setup_run, Hans. unfold_monad. reflexivity.
Qed.

Lemma setup_not_an_object api repo s t st doc :
  http_request E t (setup_request api repo) = Return (mkResponse st (Json doc)) →
  (∀ o, doc ≠ JObj o) →
  ∃ msg,
    getitem doc "path" = Raise (TypeError msg)
    ∧ setup_bridgecrew_credentials E api repo s t =
        (Raise (TypeError msg), set_bc_api_key (Some api) s,
         t ++ [EHttpRequest (setup_request api repo)]).
Proof.
  intros Hans Hdoc. rewrite setup_run, Hans. unfold_monad.
  cbn [data json_loads].
  destruct doc as [| | | | |o]; cbn [getitem]; try (eexists; split; reflexivity).
  destruct (Hdoc o eq_refl).
Qed.

Lemma setup_path_unsplit api repo s t st o full :
  http_request E t (setup_request api repo) = Return (mkResponse st (Json (JObj o))) →
  o !! "path" = Some (JStr full) →
  str_cut full = None →
  setup_bridgecrew_credentials E api repo s t =
    (Raise (ValueError "not enough values to unpack (expected 2, got 1)"),
     set_bc_api_key (Some api) s,
     t ++ [EHttpRequest (setup_request api repo)]).
Proof.
  intros Hans Hpath Hcut. rewrite setup_run, Hans. unfold_monad.
  cbn [data json_loads getitem]. rewrite Hpath. cbv beta iota.
  cbn [split1_method]. unfold str_split1. rewrite Hcut. reflexivity.
Qed.

Lemma setup_path_no_split api repo s t st o v :
  http_request E t (setup_request api repo) = Return (mkResponse st (Json (JObj o))) →
  o !! "path" = Some v →
  (∀ full, v ≠ JStr full) →
  setup_bridgecrew_credentials E api repo s t =
    (Raise (AttributeError
              ("'" +:+ type_name v +:+ "' object has no attribute 'split'")),
     set_bc_api_key (Some api) s,
     t ++ [EHttpRequest (setup_request api repo)]).
Proof.
  intros Hans Hpath Hv. rewrite setup_run, Hans. unfold_monad.
  cbn [data json_loads getitem]. rewrite Hpath. cbv beta iota.
  destruct v as [| | |full| |]; try reflexivity.
  destruct (Hv full eq_refl).
Qed.

Lemma setup_missing_path api repo s t st o :
  http_request E t (setup_request api repo) = Return (mkResponse st (Json (JObj o))) →
  o !! "path" = None →
  setup_bridgecrew_credentials E api repo s t =
    (Raise (KeyError "path"), set_bc_api_key (Some api) s,
     t ++ [EHttpRequest (setup_request api repo)]).
Proof.
  intros Hans Hpath. rewrite setup_run, Hans. unfold_monad.
  cbn [data json_loads getitem]. rewrite Hpath. reflexivity.
Qed.

Lemma setup_missing_creds api repo s t st o full b p :
  http_request E t (setup_request api repo) = Return (mkResponse st (Json (JObj o))) →
  o !! "path" = Some (JStr full) →
  str_cut full = Some (b, p) →
  o !! "creds" = None →
  setup_bridgecrew_credentials E api repo s t =
    (Raise (KeyError "creds"),
     set_timestamp (Some (last_item (str_split p)))
       (set_repo_path (Some p)
          (set_bucket (Some b) (set_bc_api_key (Some api) s))),
     t ++ [EHttpRequest (setup_request api repo)]).
Proof.
  intros Hans Hpath Hcut Hcreds. rewrite setup_run, Hans. unfold_monad.
  cbn [data json_loads getitem]. rewrite Hpath. cbv beta iota.
  cbn [split1_method]. unfold str_split1. rewrite Hcut.
  cbn [unpack2 fst snd set_bucket set_repo_path repo_path split_method].
  cbv beta iota. rewrite Hcreds. reflexivity.
Qed.

(** The exception handlers re-raise and leave [self] alone. *)
Lemma setup_handlers_run e s t :
  ∃ t', setup_handlers e s t = (Raise e, s, t').
Proof.
  destruct_exn e; cbn [setup_handlers]; unfold_monad; eauto.
Qed.

Lemma setup_handlers_preserves e : preserves id (setup_handlers (Report := Report) e).
Proof. destruct_exn e; cbn [setup_handlers]; frame. Qed.

(** A setup that raises has not bound a storage client. *)
Lemma setup_raise_client api repo :
  raise_preserves s3_client (setup_bridgecrew_credentials E api repo).
Proof.
  unfold setup_bridgecrew_credentials.
  apply raise_preserves_bind; [frame|intros _].
  apply raise_preserves_try_except.
  - repeat (apply raise_preserves_bind; [solve [frame]|intros ?]).
    apply raise_preserves_returns. reflexivity.
  - intros e s t. f_equal. apply setup_handlers_preserves.
Qed.

Lemma setup_no_creds_raises api repo s t st o :
  http_request E t (setup_request api repo) = Return (mkResponse st (Json (JObj o))) →
  o !! "creds" = None →
  ∃ e, outcome_of (setup_bridgecrew_credentials E api repo s t) = Raise e.
Proof.
  intros Hans Hcreds. rewrite setup_run, Hans. unfold_monad.
  cbn [data json_loads getitem].
  destruct (o !! "path") as [v|]; [|eauto].
  destruct v as [| | |full| |]; cbn [split1_method type_name]; eauto.
  unfold str_split1. destruct (str_cut full) as [[b p]|]; cbn [unpack2]; eauto.
  cbn [fst snd set_bucket set_repo_path repo_path split_method].
  cbv beta iota. rewrite Hcreds. eauto.
Qed.

(** A setup that returns got a response with a path that splits and
    credentials that have the three fields, and ends in the configured
    session. *)
Lemma setup_return_inv api repo s t :
  outcome_of (setup_bridgecrew_credentials E api repo s t) = Return tt →
  ∃ b p creds client,
    creds ≠ JNull ∧
    state_of (setup_bridgecrew_credentials E api repo s t)
    = configured_session s api b p creds client.
Proof.
  rewrite setup_run. unfold_monad.
  destruct (http_request E t (setup_request api repo)) as [[st d]|e0].
  2:{ destruct_exn e0; cbn [setup_handlers]; unfold_monad; discriminate. }
  cbn [data]. destruct d as [m|m|doc]; cbn [json_loads setup_handlers];
    unfold_monad; try discriminate.
  destruct (getitem doc "path") as [v|e1];
    [|destruct_exn e1; cbn [setup_handlers]; unfold_monad; discriminate].
  destruct v as [| | |full| |]; cbn [split1_method type_name setup_handlers];
    try discriminate.
  unfold str_split1. destruct (str_cut full) as [[b p]|];
    cbn [unpack2 setup_handlers]; try discriminate.
  cbn [fst snd set_bucket set_repo_path repo_path split_method].
  cbv beta iota.
  destruct (getitem doc "creds") as [creds|e1];
    [|destruct_exn e1; cbn [setup_handlers]; unfold_monad; discriminate].
  cbn [set_credentials set_timestamp credentials].
  destruct (getitem creds "AccessKeyId") as [ak|e1] eqn:Hak;
    [|destruct_exn e1; cbn [setup_handlers]; unfold_monad; discriminate].
  destruct (getitem creds "SecretAccessKey") as [sk|e1];
    [|destruct_exn e1; cbn [setup_handlers]; unfold_monad; discriminate].
  destruct (getitem creds "SessionToken") as [tok|e1];
    [|destruct_exn e1; cbn [setup_handlers]; unfold_monad; discriminate].
  unfold call_boto3_client.
  destruct (boto3_client E _ _) as [e1|];
    [destruct_exn e1; cbn [setup_handlers]; unfold_monad; discriminate|].
  intros _. exists b, p, creds, (mkClient ak sk tok DEFAULT_REGION).
  split; [|reflexivity].
  intros ->. discriminate.
Qed.

Lemma setup_early_failure_state api repo s t :
  fails_before_path (http_request E t (setup_request api repo)) = true →
  state_of (setup_bridgecrew_credentials E api repo s t)
  = set_bc_api_key (Some api) s.
Proof.
  intros Hfail. rewrite setup_run. unfold_monad.
  destruct (http_request E t (setup_request api repo)) as [[st d]|e0].
  2:{ destruct (setup_handlers_run e0 (set_bc_api_key (Some api) s)
                  (t ++ [EHttpRequest (setup_request api repo)])) as [t' ->]. reflexivity. }
  cbn [fails_before_path data] in Hfail. cbn [data].
  destruct d as [m|m|doc]; cbn [json_loads setup_handlers]; unfold_monad;
    try reflexivity.
  destruct doc as [| | | | |o]; try discriminate.
  apply bool_decide_eq_true in Hfail. cbn [getitem]. rewrite Hfail.
  reflexivity.
Qed.

Lemma json_truthy_obj (c : gmap string json) k v :
  c !! k = Some v → json_truthy (JObj c) = true.
Proof.
  intros Hk. cbn [json_truthy]. rewrite bool_decide_eq_false_2; [done|].
  intros ->. rewrite lookup_empty in Hk. discriminate.
Qed.

(** Unfolding the class of valid responses. *)
Lemma valid_setup_response_inv rq :
  valid_setup_response rq = true →
  ∃ o full c ak sk tok,
    data rq = Json (JObj o) ∧ o !! "path" = Some (JStr full) ∧
    o !! "creds" = Some (JObj c) ∧ c !! "AccessKeyId" = Some ak ∧
    c !! "SecretAccessKey" = Some sk ∧ c !! "SessionToken" = Some tok.
Proof.
  unfold valid_setup_response. intros H.
  destruct (data rq) as [| |[| | | | |o]] eqn:Hd; try discriminate.
  destruct (o !! "path") as [[| | |full| |]|] eqn:Hp; try discriminate.
  destruct (o !! "creds") as [[| | | | |c]|] eqn:Hc; try discriminate.
  apply andb_prop in H as [H Htok]. apply andb_prop in H as [Hak Hsk].
  apply bool_decide_eq_true in Hak as [ak Hak].
  apply bool_decide_eq_true in Hsk as [sk Hsk].
  apply bool_decide_eq_true in Htok as [tok Htok].
  exists o, full, c, ak, sk, tok. repeat split; assumption.
Qed.

(** A valid response and a client that can be built make the setup
    return, whatever the path splits into. *)
Lemma setup_valid_success api repo s t rq :
  http_request E t (setup_request api repo) = Return rq →
  valid_setup_response rq = true →
  path_splits rq = true →
  (∀ c, boto3_client E (t ++ [EHttpRequest (setup_request api repo)]) c = None) →
  ∃ o full b p c client,
    data rq = Json (JObj o) ∧ o !! "path" = Some (JStr full) ∧
    str_cut full = Some (b, p) ∧
    setup_bridgecrew_credentials E api repo s t =
      (Return tt, configured_session s api b p (JObj c) client,
       t ++ [EHttpRequest (setup_request api repo); EBoto3Client client; ESleep 10]) ∧
    json_truthy (JObj c) = true.
Proof.
  intros Hans Hvalid Hsplit Hboto.
  destruct (valid_setup_response_inv rq Hvalid)
    as (o & full & c & ak & sk & tok & Hd & Hp & Hc & Hak & Hsk & Htok).
  unfold path_splits in Hsplit. rewrite Hd, Hp in Hsplit.
  apply bool_decide_eq_true in Hsplit as [[b p] Hcut].
  exists o, full, b, p, c, (mkClient ak sk tok DEFAULT_REGION).
  repeat split; try assumption.
  - destruct rq as [st d]. cbn [data] in Hd. subst d.
    apply (setup_success api repo s t st o full b p (JObj c) ak sk tok);
      try assumption; try apply Hboto; cbn [getitem].
    + rewrite Hak. reflexivity.
    + rewrite Hsk. reflexivity.
    + rewrite Htok. reflexivity.
  - exact (json_truthy_obj c _ _ Hak).
Qed.
End Setup.

(** C1 (amended).  A new session receives the answer [rq] to its credential
    request.  When [rq] is valid (a JSON object with a ["path"] string and a
    ["creds"] object with the three fields), its path has a "/" followed by
    at least one character, and the storage client can be built, the setup
    returns and [is_integration_configured] is then true.  When [rq] is
    malformed (the body is not UTF-8 text or not JSON, the document is not
    an object, or the object has no ["path"] or no ["creds"]), the setup
    raises and [is_integration_configured] is then false.  What it raises is
    the exception of the step that fails, which no clause wraps:
    [UnicodeDecodeError] for bytes that are not UTF-8, [JSONDecodeError]
    for text that is not JSON, [TypeError] for a document that is not an
    object, [KeyError] for an object without ["path"]; for an object without
    ["creds"], [KeyError] when its path is a string with a "/", and, as for
    any response, [ValueError] when the path is a string without "/" and
    [AttributeError] when the path is not a string.  Whatever the response,
    a setup that raises on a new session leaves it not configured. *)
Theorem setup_then_configured {Report} (E : Env Report) api repo t rq :
  http_request E t (setup_request api repo) = Return rq →
  let run := setup_bridgecrew_credentials E api repo BcPlatformIntegration t in
  (valid_setup_response rq = true → path_has_session rq = true →
   (∀ c, boto3_client E (t ++ [EHttpRequest (setup_request api repo)]) c = None) →
   outcome_of run = Return tt ∧ is_integration_configured (state_of run) = true)
  ∧ (malformed_setup_response rq = true →
     (∃ e, outcome_of run = Raise e)
     ∧ is_integration_configured (state_of run) = false)
  ∧ (∀ msg, data rq = BadUtf8 msg →
     outcome_of run = Raise (UnicodeDecodeError msg))
  ∧ (∀ msg, data rq = BadJson msg →
     outcome_of run = Raise (JSONDecodeError msg))
  ∧ (∀ doc, data rq = Json doc → (∀ o, doc ≠ JObj o) →
     ∃ msg, getitem doc "path" = Raise (TypeError msg)
            ∧ outcome_of run = Raise (TypeError msg))
  ∧ (∀ o, data rq = Json (JObj o) → o !! "path" = None →
     outcome_of run = Raise (KeyError "path"))
  ∧ (∀ o, data rq = Json (JObj o) → o !! "creds" = None →
     path_splits rq = true → outcome_of run = Raise (KeyError "creds"))
  ∧ (∀ o full, data rq = Json (JObj o) → o !! "path" = Some (JStr full) →
     path_splits rq = false →
     outcome_of run
     = Raise (ValueError "not enough values to unpack (expected 2, got 1)"))
  ∧ (∀ o v, data rq = Json (JObj o) → o !! "path" = Some v →
     (∀ full, v ≠ JStr full) →
     outcome_of run
     = Raise (AttributeError
                ("'" +:+ type_name v +:+ "' object has no attribute 'split'")))
  ∧ (∀ e, outcome_of run = Raise e →
     is_integration_configured (state_of run) = false).
Proof.
  intros Hans run.
  assert (Hutf : ∀ msg, data rq = BadUtf8 msg →
                        outcome_of run = Raise (UnicodeDecodeError msg)).
  { intros msg Hd. destruct rq as [st d]. cbn [data] in Hd. subst d.
    unfold run. rewrite (setup_bad_utf8 E api repo _ t st msg Hans).
    reflexivity. }
  assert (Hbad : ∀ msg, data rq = BadJson msg →
                        outcome_of run = Raise (JSONDecodeError msg)).
  { intros msg Hd. destruct rq as [st d]. cbn [data] in Hd. subst d.
    unfold run. rewrite (setup_bad_json E api repo _ t st msg Hans).
    reflexivity. }
  assert (Hnoobj : ∀ doc, data rq = Json doc → (∀ o, doc ≠ JObj o) →
                          ∃ msg, getitem doc "path" = Raise (TypeError msg)
                                 ∧ outcome_of run = Raise (TypeError msg)).
  { intros doc Hd Hdoc. destruct rq as [st d]. cbn [data] in Hd. subst d.
    destruct (setup_not_an_object E api repo BcPlatformIntegration t st doc
                Hans Hdoc) as (msg & Hget & Hrun).
    exists msg. split; [exact Hget|]. unfold run. rewrite Hrun. reflexivity. }
  assert (Hnopath : ∀ o, data rq = Json (JObj o) → o !! "path" = None →
                         outcome_of run = Raise (KeyError "path")).
  { intros o Hd Hp. destruct rq as [st d]. cbn [data] in Hd. subst d.
    unfold run. rewrite (setup_missing_path E api repo _ t st o Hans Hp).
    reflexivity. }
  assert (Hnocreds : ∀ o, data rq = Json (JObj o) → o !! "creds" = None →
                          ∃ e, outcome_of run = Raise e).
  { intros o Hd Hc. destruct rq as [st d]. cbn [data] in Hd. subst d.
    exact (setup_no_creds_raises E api repo _ t st o Hans Hc). }
  assert (Hmal : malformed_setup_response rq = true →
                 ∃ e, outcome_of run = Raise e).
  { unfold malformed_setup_response. intros H.
    destruct (data rq) as [m|m|doc] eqn:Hd; eauto.
    destruct doc as [| | | | |o];
      try (destruct (Hnoobj _ eq_refl) as (msg & _ & Hrun);
           [intros o; discriminate|eauto]).
    apply orb_prop in H as [H|H]; apply bool_decide_eq_true in H; eauto. }
  assert (Hraise : ∀ e, outcome_of run = Raise e →
                        is_integration_configured (state_of run) = false).
  { intros e He.
    pose proof (setup_raise_client E api repo BcPlatformIntegration t e He) as Hcl.
    unfold is_integration_configured. fold run in Hcl. rewrite Hcl.
    cbn [s3_client BcPlatformIntegration]. apply andb_false_r. }
  split; [|split; [|split; [|split; [|split; [|split; [|split; [|split;
    [|split]]]]]]]].
  - intros Hvalid Hsession Hboto.
    assert (Hsplit : path_splits rq = true).
    { unfold path_has_session in Hsession. unfold path_splits.
      destruct (data rq) as [| |[| | | | |o]]; try discriminate.
      destruct (o !! "path") as [[| | |full| |]|]; try discriminate.
      destruct (str_cut full); [|discriminate].
      apply bool_decide_eq_true. eauto. }
    destruct (setup_valid_success E api repo BcPlatformIntegration t rq
                Hans Hvalid Hsplit Hboto)
      as (o & full & b & p & c & client & Hd & Hp & Hcut & Hrun & Hc).
    unfold run. rewrite Hrun. split; [reflexivity|].
    unfold path_has_session in Hsession. rewrite Hd, Hp, Hcut in Hsession.
    unfold is_integration_configured, state_of, configured_session.
    cbn [fst snd repo_path credentials s3_client str_truthy].
    rewrite Hsession, Hc. reflexivity.
  - intros H. split; [exact (Hmal H)|].
    destruct (Hmal H) as [e He]. exact (Hraise e He).
  - exact Hutf.
  - exact Hbad.
  - exact Hnoobj.
  - exact Hnopath.
  - intros o Hd Hc Hsplit. destruct rq as [st d]. cbn [data] in Hd. subst d.
    unfold path_splits in Hsplit. cbn [data] in Hsplit.
    destruct (o !! "path") as [[| | |full| |]|] eqn:Hp; try discriminate.
    apply bool_decide_eq_true in Hsplit as [[b p] Hcut].
    unfold run.
    rewrite (setup_missing_creds E api repo _ t st o full b p Hans Hp Hcut Hc).
    reflexivity.
  - intros o full Hd Hp Hsplit. destruct rq as [st d]. cbn [data] in Hd. subst d.
    unfold path_splits in Hsplit. cbn [data] in Hsplit. rewrite Hp in Hsplit.
    apply bool_decide_eq_false in Hsplit.
    assert (Hcut : str_cut full = None).
    { destruct (str_cut full) as [x|]; [|reflexivity].
      destruct Hsplit. eauto. }
    unfold run.
    rewrite (setup_path_unsplit E api repo _ t st o full Hans Hp Hcut).
    reflexivity.
  - intros o v Hd Hp Hv. destruct rq as [st d]. cbn [data] in Hd. subst d.
    unfold run.
    rewrite (setup_path_no_split E api repo _ t st o v Hans Hp Hv).
    reflexivity.
  - exact Hraise.
Qed.

Lemma setup_then_configured_witness :
  let run post :=
    setup_bridgecrew_credentials
      (sample_env (Return post) (commit_answer 201 "Success") [] [])
      "api-key" "owner/repo" BcPlatformIntegration [] in
  let good := mkResponse 200 (setup_body "bucket/checkov/owner/repo/1600000000") in
  let not_json :=
    mkResponse 502 (BadJson "Expecting value: line 1 column 1 (char 0)") in
  let not_utf8 :=
    mkResponse 200 (BadUtf8 "'utf-8' codec can't decode byte 0xff in position 0") in
  let not_an_object := mkResponse 200 (Json (JStr "Forbidden")) in
  (outcome_of (run good) = Return tt
   ∧ is_integration_configured (state_of (run good)) = true)
  ∧ ((∃ e, outcome_of (run not_json) = Raise e)
     ∧ is_integration_configured (state_of (run not_json)) = false)
  ∧ ((∃ e, outcome_of (run not_utf8) = Raise e)
     ∧ is_integration_configured (state_of (run not_utf8)) = false)
  ∧ ((∃ e, outcome_of (run not_an_object) = Raise e)
     ∧ is_integration_configured (state_of (run not_an_object)) = false).
Proof.
  intros run good not_json not_utf8 not_an_object.
  split; [|split; [|split]].
  - apply (setup_then_configured
             (sample_env (Return good) (commit_answer 201 "Success") [] [])
             "api-key" "owner/repo" [] good);
      [reflexivity | reflexivity | reflexivity | intros c; reflexivity].
  - apply (setup_then_configured
             (sample_env (Return not_json) (commit_answer 201 "Success") [] [])
             "api-key" "owner/repo" [] not_json);
      reflexivity.
  - apply (setup_then_configured
             (sample_env (Return not_utf8) (commit_answer 201 "Success") [] [])
             "api-key" "owner/repo" [] not_utf8);
      reflexivity.
  - apply (setup_then_configured
             (sample_env (Return not_an_object) (commit_answer 201 "Success") [] [])
             "api-key" "owner/repo" [] not_an_object);
      reflexivity.
Defined.

(** The claim C1 as stated fails: the response below is valid JSON with a
    ["path"] string and full ["creds"], the setup returns, and
    [is_integration_configured] is false. *)
Lemma setup_valid_not_configured :
  let E := sample_env empty_path_answer (commit_answer 201 "Success") [] [] in
  let run :=
    setup_bridgecrew_credentials E "api-key" "owner/repo" BcPlatformIntegration []
  in
  http_request E [] (setup_request "api-key" "owner/repo") = empty_path_answer
  ∧ valid_setup_response (mkResponse 200 (setup_body "bucket/")) = true
  ∧ outcome_of run = Return tt
  ∧ is_integration_configured (state_of run) = false.
Proof. repeat split. Qed.

(** A path with nothing after its first "/" gives an empty [repo_path],
    which [is_integration_configured] takes for unset. *)
Lemma setup_empty_path {Report} (E : Env Report) api repo s t rq :
  http_request E t (setup_request api repo) = Return rq →
  valid_setup_response rq = true →
  path_splits rq = true →
  path_has_session rq = false →
  (∀ c, boto3_client E (t ++ [EHttpRequest (setup_request api repo)]) c = None) →
  outcome_of (setup_bridgecrew_credentials E api repo s t) = Return tt
  ∧ repo_path (state_of (setup_bridgecrew_credentials E api repo s t)) = Some ""
  ∧ is_integration_configured
      (state_of (setup_bridgecrew_credentials E api repo s t)) = false.
Proof.
  intros Hans Hvalid Hsplit Hsession Hboto.
  destruct (setup_valid_success E api repo s t rq Hans Hvalid Hsplit Hboto)
    as (o & full & b & p & c & client & Hd & Hp & Hcut & Hrun & Hc).
  rewrite Hrun. unfold path_has_session in Hsession.
  rewrite Hd, Hp, Hcut in Hsession.
  apply negb_false_iff, String.eqb_eq in Hsession. subst p.
  repeat split.
Qed.

(** C10.  There is a well-formed credential-exchange response (valid JSON
    with a ["path"] string and full ["creds"]) whose path has nothing after
    its first "/", for which [setup_bridgecrew_credentials] returns and
    [is_integration_configured] is false afterwards: the session path is the
    empty string. *)
Theorem setup_returns_but_not_configured :
  ∃ (E : Env nat) (rq : HttpResponse) (b : string),
    let run :=
      setup_bridgecrew_credentials E "api-key" "owner/repo"
        BcPlatformIntegration []
    in
    http_request E [] (setup_request "api-key" "owner/repo") = Return rq
    ∧ valid_setup_response rq = true
    ∧ data rq = setup_body (b +:+ "/")
    ∧ str_cut (b +:+ "/") = Some (b, "")
    ∧ outcome_of run = Return tt
    ∧ repo_path (state_of run) = Some ""
    ∧ is_integration_configured (state_of run) = false.
Proof.
  exists (sample_env (Return (mkResponse 200 (setup_body "checkov-bucket/")))
            (commit_answer 201 "Success") [] []),
    (mkResponse 200 (setup_body "checkov-bucket/")), "checkov-bucket".
  repeat split.
Qed.

(** ** The session invariant *)

(** C8 (amended).  [repo_path] and [credentials] are both unset in a new
    session and both set after every setup that returns; a setup that fails
    before the path is read (the request raises, the body is not JSON, or
    the object has no ["path"]) changes neither, and neither do
    [persist_repository], [persist_scan_results] and [commit_repository].
    A setup on a new session that fails on a missing ["creds"] after the
    path was split leaves [repo_path] set and [credentials] unset. *)
Theorem session_invariant_kept {Report} (E : Env Report) :
  session_invariant (BcPlatformIntegration (Report := Report)) = true
  ∧ (∀ api repo s t,
       outcome_of (setup_bridgecrew_credentials E api repo s t) = Return tt →
       let s' := state_of (setup_bridgecrew_credentials E api repo s t) in
       repo_path_set s' = true ∧ credentials_set s' = true
       ∧ session_invariant s' = true)
  ∧ (∀ api repo s t,
       fails_before_path (http_request E t (setup_request api repo)) = true →
       let s' := state_of (setup_bridgecrew_credentials E api repo s t) in
       repo_path s' = repo_path s ∧ credentials s' = credentials s)
  ∧ (∀ root_dir s t,
       let s' := state_of (persist_repository E root_dir s t) in
       repo_path s' = repo_path s ∧ credentials s' = credentials s)
  ∧ (∀ reports s t,
       let s' := state_of (persist_scan_results E reports s t) in
       repo_path s' = repo_path s ∧ credentials s' = credentials s)
  ∧ (∀ s t,
       let s' := state_of (commit_repository E s t) in
       repo_path s' = repo_path s ∧ credentials s' = credentials s)
  ∧ (∀ api repo t st o,
       http_request E t (setup_request api repo)
       = Return (mkResponse st (Json (JObj o))) →
       path_splits (mkResponse st (Json (JObj o))) = true →
       o !! "creds" = None →
       let s' :=
         state_of (setup_bridgecrew_credentials E api repo BcPlatformIntegration t)
       in
       repo_path_set s' = true ∧ credentials_set s' = false).
Proof.
  split; [reflexivity|].
  split.
  { intros api repo s t Hret.
    destruct (setup_return_inv E api repo s t Hret)
      as (b & p & creds & client & Hcreds & ->).
    unfold session_invariant, repo_path_set, credentials_set, configured_session.
    cbn [repo_path credentials]. destruct creds; try contradiction; auto. }
  split.
  { intros api repo s t Hfail.
    rewrite (setup_early_failure_state E api repo s t Hfail). split; reflexivity. }
  split.
  { intros root_dir s t.
    pose proof (persist_repository_preserves E root_dir s t) as H.
    unfold id in H. rewrite H. split; reflexivity. }
  split.
  { intros reports s t. rewrite persist_scan_results_state. split; reflexivity. }
  split.
  { intros s t. pose proof (commit_repository_preserves E s t) as H.
    unfold id in H. rewrite H. split; reflexivity. }
  intros api repo t st o Hans Hsplit Hcreds.
  unfold path_splits in Hsplit. cbn [data] in Hsplit.
  destruct (o !! "path") as [[| | |full| |]|] eqn:Hp; try discriminate.
  apply bool_decide_eq_true in Hsplit as [[b p] Hcut].
  rewrite (setup_missing_creds E api repo _ t st o full b p Hans Hp Hcut Hcreds).
  split; reflexivity.
Qed.

Lemma session_invariant_kept_witness :
  let E := sample_env good_setup_answer (commit_answer 201 "Success") [] [] in
  let E' := sample_env no_path_answer (commit_answer 201 "Success") [] [] in
  let E'' := sample_env no_creds_answer (commit_answer 201 "Success") [] [] in
  let run E :=
    state_of
      (setup_bridgecrew_credentials E "api-key" "owner/repo"
         BcPlatformIntegration [])
  in
  session_invariant (run E) = true
  ∧ (repo_path (run E') = None ∧ credentials (run E') = JNull)
  ∧ (repo_path_set (run E'') = true ∧ credentials_set (run E'') = false).
Proof.
  intros E E' E'' run. split; [|split].
  - apply (proj1 (proj2 (session_invariant_kept E))
             "api-key" "owner/repo" BcPlatformIntegration []).
    reflexivity.
  - apply (proj1 (proj2 (proj2 (session_invariant_kept E')))
             "api-key" "owner/repo" BcPlatformIntegration []).
    reflexivity.
  - apply (proj2 (proj2 (proj2 (proj2 (proj2 (proj2 (session_invariant_kept E''))))))
             "api-key" "owner/repo" [] 200
             {[ "path" := JStr "bucket/checkov/owner/repo/1600000000" ]});
      reflexivity.
Defined.

(** The claim C8 as stated fails: after a response with a path and without
    ["creds"] the setup raises, [repo_path] is set and [credentials] is
    unset. *)
Lemma setup_leaves_partial_session :
  let E := sample_env no_creds_answer (commit_answer 201 "Success") [] [] in
  let run :=
    setup_bridgecrew_credentials E "api-key" "owner/repo" BcPlatformIntegration []
  in
  outcome_of run = Raise (KeyError "creds")
  ∧ repo_path (state_of run) = Some "checkov/owner/repo/1600000000"
  ∧ credentials (state_of run) = JNull
  ∧ session_invariant (state_of run) = false.
Proof. repeat split. Qed.

(** ** The session after setup *)

(** C9 (amended).  [persist_repository] and [commit_repository] leave every
    attribute of the session as it was; [persist_scan_results] assigns its
    argument to [scan_reports] and leaves the other six attributes as they
    were.  This holds for every session, every environment and every
    outcome of the call. *)
Theorem session_frame {Report} (E : Env Report) (s : Session Report)
    (t : list event) :
  (∀ root_dir, state_of (persist_repository E root_dir s t) = s)
  ∧ state_of (commit_repository E s t) = s
  ∧ (∀ reports,
       let s' := state_of (persist_scan_results E reports s t) in
       scan_reports s' = reports
       ∧ bc_api_key s' = bc_api_key s ∧ s3_client s' = s3_client s
       ∧ bucket s' = bucket s ∧ credentials s' = credentials s
       ∧ repo_path s' = repo_path s ∧ timestamp s' = timestamp s).
Proof.
  split; [|split].
  - intros root_dir. apply (persist_repository_preserves E root_dir s t).
  - apply (commit_repository_preserves E s t).
  - intros reports. rewrite persist_scan_results_state. repeat split.
Qed.

(** The claim C9 as stated fails: [persist_scan_results] on a session that
    was set up changes the attribute [scan_reports]. *)
Lemma persist_scan_results_mutates_session :
  let E := sample_env good_setup_answer (commit_answer 201 "Success") [] [] in
  let setup :=
    setup_bridgecrew_credentials E "api-key" "owner/repo" BcPlatformIntegration []
  in
  let s := state_of setup in
  let run := persist_scan_results E [7%nat] s (trace_of setup) in
  outcome_of setup = Return tt
  ∧ outcome_of run = Return tt
  ∧ scan_reports s = []
  ∧ scan_reports (state_of run) = [7%nat]
  ∧ state_of run ≠ s.
Proof. repeat split. discriminate. Qed.

(** ** Commit *)

Ltac commit_norm :=
  repeat (progress
            (unfold_monad;
             cbn [fst snd set_request set_response request response
                  commit_handlers commit_handler_log])).

Section Commit.
Context {Report : Type} (E : Env Report).
Implicit Types (s : Session Report) (t : list event).

(** The outcome of [commit_repository] for each answer to its request. *)
Lemma commit_run s t :
  commit_repository E s t =
    let t1 := t ++ [EHttpRequest (commit_request s)] in
    match http_request E t (commit_request s) with
    | Raise e => (Raise request_is_none, s, t1 ++ commit_handler_log s e)
    | Return rq =>
        match json_loads (data rq) with
        | Raise e =>
            (Raise (if status rq =? 201 then response_is_unbound
                    else finalize_failure s),
             s, t1 ++ commit_handler_log s e)
        | Return doc =>
            if status rq =? 201 then
              match getitem doc "result" with
              | Raise e => (Raise e, s, t1)
              | Return v =>
                  if json_eq_str v "Success"
                  then (Return tt, s, t1 ++ [finalize_log s])
                  else (Raise (finalize_failure s), s, t1)
              end
            else (Raise (finalize_failure s), s, t1)
        end
    end.
Proof.
  unfold commit_repository, commit_try, commit_finally, commit_succeeded,
    call_http_request, commit_request.
  unfold_monad. cbn [fst snd].
  destruct (http_request E t _) as [rq|e].
  - commit_norm.
    destruct (json_loads (data rq)) as [doc|e].
    + commit_norm.
      destruct (status rq =? 201); [|reflexivity].
      destruct (getitem doc "result") as [v|e]; [|reflexivity].
      destruct (json_eq_str v "Success"); reflexivity.
    + destruct_exn e; commit_norm; rewrite ?app_nil_r;
        destruct (status rq =? 201); reflexivity.
  - destruct_exn e; commit_norm; rewrite ?app_nil_r; reflexivity.
Qed.

Lemma json_eq_str_true v lit : json_eq_str v lit = true ↔ v = JStr lit.
Proof.
  destruct v; cbn [json_eq_str]; try (split; [discriminate|intros [=]]).
  rewrite String.eqb_eq. split; [intros ->; reflexivity|intros [=]; assumption].
Qed.

Lemma commit_handler_log_requests s e :
  http_requests (commit_handler_log s e) = [].
Proof. destruct_exn e; reflexivity. Qed.

(** Every call sends its request, and nothing else over HTTP. *)
Lemma commit_requests s t :
  http_requests (trace_of (commit_repository E s t))
  = http_requests t ++ [EHttpRequest (commit_request s)].
Proof.
  rewrite commit_run. cbv zeta. unfold http_requests.
  destruct (http_request E t (commit_request s)) as [rq|e].
  - destruct (json_loads (data rq)) as [doc|e].
    + destruct (status rq =? 201);
        [destruct (getitem doc "result") as [v|e];
         [destruct (json_eq_str v "Success")|]|];
        cbn [trace_of snd]; rewrite ?List.filter_app; cbn [List.filter];
        rewrite ?app_nil_r; reflexivity.
    + cbn [trace_of snd]. rewrite !List.filter_app.
      fold (http_requests (commit_handler_log s e)).
      rewrite commit_handler_log_requests, app_nil_r. reflexivity.
  - cbn [trace_of snd]. rewrite !List.filter_app.
    fold (http_requests (commit_handler_log s e)).
    rewrite commit_handler_log_requests, app_nil_r. reflexivity.
Qed.

Lemma commit_return_inv s t :
  outcome_of (commit_repository E s t) = Return tt →
  ∃ rq doc,
    http_request E t (commit_request s) = Return rq ∧ status rq = 201
    ∧ data rq = Json doc ∧ getitem doc "result" = Return (JStr "Success").
Proof.
  rewrite commit_run. cbv zeta.
  destruct (http_request E t (commit_request s)) as [[st d]|e]; [|discriminate].
  cbn [data status]. destruct d as [m|m|doc]; cbn [json_loads];
    try discriminate.
  destruct (st =? 201) eqn:Hst; [|discriminate].
  destruct (getitem doc "result") as [v|e] eqn:Hres; [|discriminate].
  destruct (json_eq_str v "Success") eqn:Hv; [|discriminate].
  intros _. apply json_eq_str_true in Hv. subst v.
  apply Z.eqb_eq in Hst. subst st. eauto 10.
Qed.

Lemma commit_success s t rq o :
  http_request E t (commit_request s) = Return rq →
  status rq = 201 → data rq = Json (JObj o) →
  o !! "result" = Some (JStr "Success") →
  commit_repository E s t
  = (Return tt, s, t ++ [EHttpRequest (commit_request s); finalize_log s]).
Proof.
  intros Hans Hst Hd Hres. rewrite commit_run, Hans. cbv zeta.
  rewrite Hd, Hst. cbn [json_loads getitem]. rewrite Hres.
  cbn. rewrite <- app_assoc. reflexivity.
Qed.

Lemma commit_rejected s t rq o res :
  http_request E t (commit_request s) = Return rq →
  data rq = Json (JObj o) → o !! "result" = Some res →
  status rq ≠ 201 ∨ res ≠ JStr "Success" →
  commit_repository E s t
  = (Raise (finalize_failure s), s, t ++ [EHttpRequest (commit_request s)]).
Proof.
  intros Hans Hd Hres Hnot. rewrite commit_run, Hans. cbv zeta.
  rewrite Hd. cbn [json_loads getitem]. rewrite Hres.
  destruct (status rq =? 201) eqn:Hst; [|reflexivity].
  destruct (json_eq_str res "Success") eqn:Hv; [|reflexivity].
  apply json_eq_str_true in Hv. apply Z.eqb_eq in Hst.
  destruct Hnot; contradiction.
Qed.

Lemma commit_missing_result s t rq o :
  http_request E t (commit_request s) = Return rq →
  status rq = 201 → data rq = Json (JObj o) → o !! "result" = None →
  commit_repository E s t
  = (Raise (KeyError "result"), s, t ++ [EHttpRequest (commit_request s)]).
Proof.
  intros Hans Hst Hd Hres. rewrite commit_run, Hans. cbv zeta.
  rewrite Hd, Hst. cbn [json_loads getitem]. rewrite Hres. reflexivity.
Qed.

Lemma commit_not_201 s t rq :
  http_request E t (commit_request s) = Return rq → status rq ≠ 201 →
  outcome_of (commit_repository E s t) = Raise (finalize_failure s).
Proof.
  intros Hans Hst. rewrite commit_run, Hans. cbv zeta.
  apply Z.eqb_neq in Hst. rewrite Hst.
  destruct (json_loads (data rq)); reflexivity.
Qed.

(** The request raised: the [finally] block reads [request.status] while
    [request] is still [None]. *)
Lemma commit_http_error s t e :
  http_request E t (commit_request s) = Raise e →
  commit_repository E s t
  = (Raise request_is_none, s,
     t ++ [EHttpRequest (commit_request s)] ++ commit_handler_log s e).
Proof.
  intros Hans. rewrite commit_run, Hans. cbv zeta.
  rewrite <- app_assoc. reflexivity.
Qed.

(** The body is not JSON: the [finally] block replaces the
    [JSONDecodeError], by an [UnboundLocalError] on status 201 and by the
    failure of a rejected commit otherwise. *)
Lemma commit_bad_json s t rq msg :
  http_request E t (commit_request s) = Return rq → data rq = BadJson msg →
  commit_repository E s t
  = (Raise (if status rq =? 201 then response_is_unbound
            else finalize_failure s), s,
     t ++ [EHttpRequest (commit_request s)] ++ commit_handler_log s (JSONDecodeError msg)).
Proof.
  intros Hans Hd. rewrite commit_run, Hans. cbv zeta. rewrite Hd.
  cbn [json_loads]. rewrite <- app_assoc. reflexivity.
Qed.
End Commit.

(** C2 (amended).  [commit_repository] returns only when the answer to its
    request has status 201 and a JSON body whose ["result"] is ["Success"],
    and with both it returns.  When the body is JSON and the status is not
    201, or the status is 201 and the body is an object whose ["result"]
    field is present and is not ["Success"] (as in [{"result": "Failure"}]),
    it raises the exception
    ["Failed to finalize repository <repo_path> in bridgecrew's platform"],
    which names the session path and is neither a [JSONDecodeError] nor a
    [KeyError].  A status 201 with an object that has no ["result"] field
    raises [KeyError]. *)
Theorem commit_needs_201_and_success {Report} (E : Env Report)
    (s : Session Report) (t : list event) :
  let run := commit_repository E s t in
  (outcome_of run = Return tt →
   ∃ rq doc,
     http_request E t (commit_request s) = Return rq ∧ status rq = 201
     ∧ data rq = Json doc ∧ getitem doc "result" = Return (JStr "Success"))
  ∧ (∀ rq o,
       http_request E t (commit_request s) = Return rq →
       data rq = Json (JObj o) →
       (status rq = 201 → o !! "result" = Some (JStr "Success") →
        outcome_of run = Return tt)
       ∧ (∀ res, o !! "result" = Some res →
          status rq ≠ 201 ∨ res ≠ JStr "Success" →
          outcome_of run = Raise (finalize_failure s))
       ∧ (status rq = 201 → o !! "result" = None →
          outcome_of run = Raise (KeyError "result")))
  ∧ (∀ rq doc,
       http_request E t (commit_request s) = Return rq →
       data rq = Json doc → status rq ≠ 201 →
       outcome_of run = Raise (finalize_failure s))
  ∧ (∀ p, repo_path s = Some p →
       finalize_failure s
       = PyException ("Failed to finalize repository " +:+ p
                      +:+ " in bridgecrew's platform")).
Proof.
  intros run. split; [|split; [|split]].
  - apply commit_return_inv.
  - intros rq o Hans Hd. split; [|split].
    + intros Hst Hres. unfold run.
      rewrite (commit_success E s t rq o Hans Hst Hd Hres). reflexivity.
    + intros res Hres Hnot. unfold run.
      rewrite (commit_rejected E s t rq o res Hans Hd Hres Hnot). reflexivity.
    + intros Hst Hres. unfold run.
      rewrite (commit_missing_result E s t rq o Hans Hst Hd Hres). reflexivity.
  - intros rq doc Hans _ Hst. apply (commit_not_201 E s t rq Hans Hst).
  - intros p Hp. unfold finalize_failure. rewrite Hp. reflexivity.
Qed.

Lemma commit_needs_201_and_success_witness :
  let E := sample_env good_setup_answer (commit_answer 201 "Failure") [] [] in
  let E' := sample_env good_setup_answer (commit_answer 201 "Success") [] [] in
  outcome_of (commit_repository E open_session [])
  = Raise (PyException
             "Failed to finalize repository checkov/owner/repo/1600000000 in bridgecrew's platform")
  ∧ outcome_of (commit_repository E' open_session []) = Return tt.
Proof.
  intros E E'. split.
  - apply (proj1 (proj2 (proj1 (proj2 (commit_needs_201_and_success
                                         E open_session []))
                           (mkResponse 201 (commit_body "Failure"))
                           {[ "result" := JStr "Failure" ]} eq_refl eq_refl))
             (JStr "Failure") eq_refl).
    right. discriminate.
  - apply (proj1 (proj1 (proj2 (commit_needs_201_and_success E' open_session []))
                    (mkResponse 201 (commit_body "Success"))
                    {[ "result" := JStr "Success" ]} eq_refl eq_refl));
      reflexivity.
Defined.

(** The claim C2 as stated fails: the answer below has status 201 and a JSON
    body whose ["result"] is not ["Success"] (the object is empty), and the
    call raises [KeyError], which does not name the session path. *)
Lemma commit_without_result_raises_key_error :
  let E :=
    sample_env good_setup_answer (Return (mkResponse 201 (Json (JObj ∅)))) [] []
  in
  let run := commit_repository E open_session [] in
  repo_path open_session = Some "checkov/owner/repo/1600000000"
  ∧ outcome_of run = Raise (KeyError "result")
  ∧ outcome_of run ≠ Raise (finalize_failure open_session).
Proof. repeat split. discriminate. Qed.

(** C3 (amended).  [commit_repository] keeps no record of an earlier commit:
    every call leaves the session as it was and sends exactly one request,
    the PUT for the session path, so a second call sends it a second time;
    when the platform answers the second request with status 201 and
    ["Success"], the second call returns like the first. *)
Theorem commit_sends_request_every_time {Report} (E : Env Report)
    (s : Session Report) (t : list event) :
  let first := commit_repository E s t in
  let second := commit_repository E (state_of first) (trace_of first) in
  state_of first = s
  ∧ http_requests (trace_of first) = http_requests t ++ [EHttpRequest (commit_request s)]
  ∧ http_requests (trace_of second)
    = http_requests t ++ [EHttpRequest (commit_request s); EHttpRequest (commit_request s)]
  ∧ (∀ rq o,
       http_request E (trace_of first) (commit_request s) = Return rq →
       status rq = 201 → data rq = Json (JObj o) →
       o !! "result" = Some (JStr "Success") →
       outcome_of second = Return tt).
Proof.
  intros first second.
  assert (Hs : state_of first = s) by apply (commit_repository_preserves E s t).
  split; [exact Hs|]. split; [apply commit_requests|]. split.
  - unfold second. rewrite commit_requests. unfold first at 1.
    rewrite commit_requests, Hs, <- app_assoc. reflexivity.
  - intros rq o Hans Hst Hd Hres. unfold second. rewrite Hs.
    rewrite (commit_success E s (trace_of first) rq o Hans Hst Hd Hres).
    reflexivity.
Qed.

Lemma commit_sends_request_every_time_witness :
  let E := sample_env good_setup_answer (commit_answer 201 "Success") [] [] in
  let first := commit_repository E open_session [] in
  outcome_of (commit_repository E (state_of first) (trace_of first)) = Return tt.
Proof.
  intros E first.
  apply (proj2 (proj2 (proj2 (commit_sends_request_every_time E open_session [])))
           (mkResponse 201 (commit_body "Success"))
           {[ "result" := JStr "Success" ]});
    reflexivity.
Defined.

(** The claim C3 as stated fails: on a session whose commit has returned, a
    second [commit_repository] returns as well instead of raising, and the
    trace then holds two PUT requests. *)
Lemma second_commit_is_sent :
  let E := sample_env good_setup_answer (commit_answer 201 "Success") [] [] in
  let first := commit_repository E open_session [] in
  let second := commit_repository E (state_of first) (trace_of first) in
  outcome_of first = Return tt
  ∧ outcome_of second = Return tt
  ∧ http_requests (trace_of first) = [EHttpRequest (commit_request open_session)]
  ∧ http_requests (trace_of second)
    = [EHttpRequest (commit_request open_session); EHttpRequest (commit_request open_session)].
Proof. repeat split. Qed.

(** C4 (the code departs from the claim).  When the commit request raises
    [HTTPError], the [finally] block reads [request.status] while [request]
    is [None] and the call raises [AttributeError].  When the body of a
    status-201 answer is not JSON, the [finally] block reads the unbound
    [response] and the call raises [UnboundLocalError]; with another status
    the call raises the same exception as for a rejected commit.  In no
    case does the caller see the [JSONDecodeError] or the [HTTPError]. *)
Theorem commit_finally_reads_unset_variables :
  let refused :=
    sample_env good_setup_answer (Raise (HTTPError "connection refused")) [] [] in
  let garbled code :=
    sample_env good_setup_answer
      (Return (mkResponse code (BadJson "Expecting value"))) [] [] in
  let failure := sample_env good_setup_answer (commit_answer 502 "Failure") [] [] in
  outcome_of (commit_repository refused open_session [])
  = Raise (AttributeError "'NoneType' object has no attribute 'status'")
  ∧ outcome_of (commit_repository (garbled 201) open_session [])
    = Raise (UnboundLocalError
               "local variable 'response' referenced before assignment")
  ∧ outcome_of (commit_repository (garbled 502) open_session [])
    = outcome_of (commit_repository failure open_session []).
Proof. repeat split. Qed.

(** ** Uploading the repository *)

Section PersistRepository.
Context {Report : Type} (E : Env Report).
Implicit Types (s : Session Report) (t : list event).

Lemma bind_congr {St A B} (c c' : M St A) (k k' : A → M St B) st t :
  c st t = c' st t → (∀ a st' t', k a st' t' = k' a st' t') →
  bind c k st t = bind c' k' st t.
Proof.
  intros Hc Hk. unfold bind. rewrite Hc.
  destruct (c' st t) as [[[a|e] st'] t']; [apply Hk|reflexivity].
Qed.

Lemma for_each_app {St A} (l1 l2 : list A) (body : A → M St unit) st t :
  for_each (l1 ++ l2) body st t
  = (for_each l1 body ;; for_each l2 body) st t.
Proof.
  revert st t. induction l1 as [|x l1 IH]; intros st t.
  - reflexivity.
  - cbn [app for_each]. unfold bind in *.
    destruct (body x st t) as [[[u|e] st'] t']; [|reflexivity].
    apply IH.
Qed.

Lemma for_each_map {St A B} (g : A → B) (l : list A) (body : B → M St unit) :
  for_each (map g l) body = for_each l (λ x, body (g x)).
Proof. induction l as [|x l IH]; cbn [map for_each]; [|rewrite IH]; reflexivity. Qed.

Lemma for_each_filter {St A} (P : A → bool) (l : list A)
    (body : A → M St unit) st t :
  for_each l (λ x, if P x then body x else ret tt) st t
  = for_each (List.filter P l) body st t.
Proof.
  revert st t. induction l as [|x l IH]; intros st t; [reflexivity|].
  cbn [for_each List.filter]. destruct (P x).
  - cbn [for_each]. unfold bind.
    destruct (body x st t) as [[[u|e] st'] t']; [apply IH|reflexivity].
  - unfold bind, ret. apply IH.
Qed.

(** The nested loops visit the eligible files in the order of the walk. *)
Lemma persist_repository_flat root_dir s t :
  persist_repository E root_dir s t
  = for_each (eligible_files E root_dir) (persist_one E root_dir) s t.
Proof.
  unfold persist_repository, eligible_files, walked_files.
  rewrite <- for_each_filter.
  generalize (os_walk E root_dir) as walk. intros walk. revert s t.
  induction walk as [|[[root_path d_names] f_names] walk IH]; intros s t;
    [reflexivity|].
  cbn [for_each flat_map fst snd]. rewrite for_each_app, for_each_map.
  apply bind_congr; [reflexivity|].
  intros _ s' t'. apply IH.
Qed.

Lemma path_join_nonempty a b : b ≠ "" → path_join a b ≠ "".
Proof.
  intros Hb. unfold path_join. destruct (starts_with_slash b); [exact Hb|].
  destruct (String.eqb a "" || ends_with_slash a).
  - destruct a; [exact Hb|discriminate].
  - destruct a; discriminate.
Qed.

Lemma relpath_nonempty cwd path start :
  path ≠ "" → relpath cwd path start = Return (relpath_of cwd path start).
Proof.
  intros Hp. unfold relpath. apply String.eqb_neq in Hp. rewrite Hp.
  reflexivity.
Qed.

(** One file: the upload is attempted once; a failure is logged with the
    path of the file and the exception, which is raised again. *)
Lemma persist_one_run root_dir rf s t p c :
  repo_path s = Some p → s3_client s = Some c → snd rf ≠ "" →
  persist_one E root_dir rf s t =
    match upload_answer E t c (bucket s) p root_dir rf with
    | None => (Return tt, s, t ++ [upload_of E c (bucket s) p root_dir rf])
    | Some e =>
        (Raise e, s,
         t ++ [upload_of E c (bucket s) p root_dir rf;
               upload_failure_log (full_path rf) (bucket s) e])
    end.
Proof.
  intros Hp Hc Hname. unfold persist_one.
  rewrite (relpath_nonempty _ _ _ (path_join_nonempty (fst rf) _ Hname)).
  unfold _persist_file, upload_answer, upload_of, upload_failure_log,
    object_key.
  unfold_monad. rewrite Hp. cbn [os_path_join]. rewrite Hc.
  unfold call_upload_file.
  destruct (upload_file E t c _ _ _); [|reflexivity].
  unfold_monad. rewrite <- app_assoc. reflexivity.
Qed.

(** While the uploads succeed the loop goes on. *)
Lemma persist_all_succeed root_dir s p c (l : list (string * string)) :
  repo_path s = Some p → s3_client s = Some c →
  (∀ rf, rf ∈ l → snd rf ≠ "") →
  ∀ t,
    (∀ pre rf post, l = pre ++ rf :: post →
       upload_answer E (t ++ map (upload_of E c (bucket s) p root_dir) pre)
         c (bucket s) p root_dir rf = None) →
    for_each l (persist_one E root_dir) s t
    = (Return tt, s, t ++ map (upload_of E c (bucket s) p root_dir) l).
Proof.
  intros Hp Hc. induction l as [|rf l IH]; intros Hnames t Hok.
  - cbn [for_each map]. rewrite app_nil_r. reflexivity.
  - cbn [for_each map]. unfold bind.
    rewrite (persist_one_run root_dir rf s t p c Hp Hc);
      [|apply Hnames; left].
    pose proof (Hok [] rf l eq_refl) as H0. cbn [map] in H0.
    rewrite app_nil_r in H0. rewrite H0.
    rewrite IH.
    + rewrite <- app_assoc. reflexivity.
    + intros rf' Hin. apply Hnames. right. exact Hin.
    + intros pre rf' post Hl. rewrite <- app_assoc.
      apply (Hok (rf :: pre) rf' post). rewrite Hl. reflexivity.
Qed.

(** The first upload that fails ends the loop. *)
Lemma persist_first_failure root_dir s p c e
    (pre : list (string * string)) rf post :
  repo_path s = Some p → s3_client s = Some c →
  (∀ x, x ∈ pre ++ rf :: post → snd x ≠ "") →
  ∀ t,
    (∀ pre1 x pre2, pre = pre1 ++ x :: pre2 →
       upload_answer E (t ++ map (upload_of E c (bucket s) p root_dir) pre1)
         c (bucket s) p root_dir x = None) →
    upload_answer E (t ++ map (upload_of E c (bucket s) p root_dir) pre)
      c (bucket s) p root_dir rf = Some e →
    for_each (pre ++ rf :: post) (persist_one E root_dir) s t
    = (Raise e, s,
       t ++ map (upload_of E c (bucket s) p root_dir) pre
         ++ [upload_of E c (bucket s) p root_dir rf;
             upload_failure_log (full_path rf) (bucket s) e]).
Proof.
  intros Hp Hc Hnames t Hok Hfail.
  rewrite for_each_app. unfold bind.
  rewrite (persist_all_succeed root_dir s p c pre Hp Hc).
  - cbn [for_each]. unfold bind.
    rewrite (persist_one_run root_dir rf s _ p c Hp Hc).
    + rewrite Hfail. rewrite <- app_assoc. reflexivity.
    + apply Hnames. apply elem_of_app. right. left.
  - intros x Hin. apply Hnames. apply elem_of_app. left. exact Hin.
  - exact Hok.
Qed.

Lemma walk_names_nonempty_elem root_dir rf :
  walk_names_nonempty E root_dir = true →
  rf ∈ eligible_files E root_dir → snd rf ≠ "".
Proof.
  unfold walk_names_nonempty, eligible_files. intros Hall Hin.
  apply list_elem_of_In, List.filter_In in Hin as [Hin _].
  rewrite forallb_forall in Hall. specialize (Hall rf Hin).
  apply negb_true_iff, String.eqb_neq in Hall. exact Hall.
Qed.

(** Which files are eligible. *)
Lemma elem_of_eligible_files root_dir root_path file_path :
  (root_path, file_path) ∈ eligible_files E root_dir
  ↔ (∃ d_names f_names,
       (root_path, d_names, f_names) ∈ os_walk E root_dir
       ∧ file_path ∈ f_names)
    ∧ snd (splitext file_path) ∈ SUPPORTED_FILE_EXTENSIONS E.
Proof.
  unfold eligible_files, walked_files.
  rewrite list_elem_of_In, List.filter_In, in_flat_map. cbn [snd].
  unfold supported. rewrite bool_decide_eq_true. split.
  - intros [([[r d] f] & Hentry & Hin) Hsup]. split; [|exact Hsup].
    cbn [fst snd] in Hin. apply in_map_iff in Hin as (x & [= <- <-] & Hx).
    exists d, f. rewrite !list_elem_of_In. auto.
  - intros [(d & f & Hentry & Hin) Hsup]. split; [|exact Hsup].
    exists (root_path, d, f). apply list_elem_of_In in Hentry.
    apply list_elem_of_In in Hin.
    split; [exact Hentry|]. cbn [fst snd]. apply in_map. exact Hin.
Qed.
End PersistRepository.

Lemma uploads_upload_of {Report} (E : Env Report) c bkt p root_dir
    (l : list (string * string)) :
  uploads (map (upload_of E c bkt p root_dir) l)
  = map (upload_of E c bkt p root_dir) l.
Proof.
  unfold uploads. induction l as [|rf l IH]; [reflexivity|].
  cbn [map List.filter upload_of is_upload]. f_equal. exact IH.
Qed.

(** C5.  On a session with a session path and a storage client, in an
    environment whose storage accepts every upload, [persist_repository]
    returns after exactly these calls to [upload_file], in the order of the
    walk: one for each walked file whose extension is in
    [SUPPORTED_FILE_EXTENSIONS], with the key [os.path.join] of the session
    path and the path of the file relative to [root_dir]; a file with
    another extension is not among them. *)
Theorem persist_repository_uploads_supported {Report} (E : Env Report)
    root_dir (s : Session Report) (t : list event) p c :
  repo_path s = Some p → s3_client s = Some c →
  walk_names_nonempty E root_dir = true →
  (∀ h f k, upload_file E h c f (bucket s) k = None) →
  persist_repository E root_dir s t
  = (Return tt, s,
     t ++ map (λ rf, EUploadFile c (path_join (fst rf) (snd rf)) (bucket s)
                       (path_join p
                          (relpath_of (os_getcwd E)
                             (path_join (fst rf) (snd rf)) root_dir)))
            (eligible_files E root_dir))
  ∧ (∀ root_path file_path,
       (root_path, file_path) ∈ eligible_files E root_dir
       ↔ (∃ d_names f_names,
            (root_path, d_names, f_names) ∈ os_walk E root_dir
            ∧ file_path ∈ f_names)
         ∧ snd (splitext file_path) ∈ SUPPORTED_FILE_EXTENSIONS E).
Proof.
  intros Hp Hc Hnames Hok. split.
  - rewrite persist_repository_flat.
    apply (persist_all_succeed E root_dir s p c _ Hp Hc).
    + intros rf. apply walk_names_nonempty_elem. exact Hnames.
    + intros pre rf post _. apply Hok.
  - apply elem_of_eligible_files.
Qed.

Lemma persist_repository_uploads_supported_witness :
  let E := sample_env good_setup_answer (commit_answer 201 "Success")
             sample_walk [] in
  let client :=
    mkClient (JStr "AKIAEXAMPLE") (JStr "secret") (JStr "token") "us-west-2" in
  let put full key := EUploadFile client full (Some "bucket") key in
  persist_repository E "/repo" open_session []
  = (Return tt, open_session,
     [put "/repo/main.tf" "checkov/owner/repo/1600000000/main.tf";
      put "/repo/vars.tf" "checkov/owner/repo/1600000000/vars.tf";
      put "/repo/ci.yml" "checkov/owner/repo/1600000000/ci.yml";
      put "/repo/modules/vpc.tf" "checkov/owner/repo/1600000000/modules/vpc.tf";
      put "/repo/modules/stack.json"
        "checkov/owner/repo/1600000000/modules/stack.json"]).
Proof.
  intros E client put.
  apply (proj1 (persist_repository_uploads_supported E "/repo" open_session []
                  "checkov/owner/repo/1600000000" client
                  eq_refl eq_refl eq_refl (λ _ _ _, eq_refl))).
Defined.

(** C6.  On a session with a session path and a storage client, let the
    eligible files be [pre], then [rf], then [post], where the uploads of
    [pre] succeed and the upload of [rf] raises [e].  Then
    [persist_repository] raises [e]; each file of [pre] and [rf] was
    attempted once, in order, and no file of [post] was attempted; the last
    record of the trace is the error log that names the path of [rf] and
    [e]. *)
Theorem persist_repository_first_failure {Report} (E : Env Report)
    root_dir (s : Session Report) (t : list event) p c e pre rf post :
  repo_path s = Some p → s3_client s = Some c →
  walk_names_nonempty E root_dir = true →
  eligible_files E root_dir = pre ++ rf :: post →
  (∀ pre1 x pre2, pre = pre1 ++ x :: pre2 →
     upload_answer E (t ++ map (upload_of E c (bucket s) p root_dir) pre1)
       c (bucket s) p root_dir x = None) →
  upload_answer E (t ++ map (upload_of E c (bucket s) p root_dir) pre)
    c (bucket s) p root_dir rf = Some e →
  let run := persist_repository E root_dir s t in
  run = (Raise e, s,
         t ++ map (upload_of E c (bucket s) p root_dir) pre
           ++ [upload_of E c (bucket s) p root_dir rf;
               ELog ERROR [FLit "failed to persist file ";
                           FLit (path_join (fst rf) (snd rf));
                           FLit " into S3 bucket "; FStr (bucket s);
                           FLit nl; FExn e]])
  ∧ uploads (trace_of run)
    = uploads t ++ map (upload_of E c (bucket s) p root_dir) (pre ++ [rf]).
Proof.
  intros Hp Hc Hnames Hsplit Hok Hfail run.
  assert (Hrun : run = (Raise e, s,
            t ++ map (upload_of E c (bucket s) p root_dir) pre
              ++ [upload_of E c (bucket s) p root_dir rf;
                  upload_failure_log (full_path rf) (bucket s) e])).
  { unfold run. rewrite persist_repository_flat, Hsplit.
    apply (persist_first_failure E root_dir s p c e pre rf post Hp Hc);
      [|exact Hok|exact Hfail].
    intros x Hin. apply (walk_names_nonempty_elem E root_dir x Hnames).
    rewrite Hsplit. exact Hin. }
  split; [exact Hrun|].
  rewrite Hrun. cbn [trace_of snd]. unfold uploads.
  rewrite !List.filter_app. fold (uploads (map (upload_of E c (bucket s) p root_dir) pre)).
  rewrite uploads_upload_of, map_app. reflexivity.
Qed.

Lemma persist_repository_first_failure_witness :
  let E := sample_env good_setup_answer (commit_answer 201 "Success")
             sample_walk ["/repo/ci.yml"] in
  let client :=
    mkClient (JStr "AKIAEXAMPLE") (JStr "secret") (JStr "token") "us-west-2" in
  let put full key := EUploadFile client full (Some "bucket") key in
  let e := OtherError "S3UploadFailedError" "/repo/ci.yml" in
  let run := persist_repository E "/repo" open_session [] in
  List.length (eligible_files E "/repo") = 5%nat
  ∧ outcome_of run = Raise e
  ∧ trace_of run
    = [put "/repo/main.tf" "checkov/owner/repo/1600000000/main.tf";
       put "/repo/vars.tf" "checkov/owner/repo/1600000000/vars.tf";
       put "/repo/ci.yml" "checkov/owner/repo/1600000000/ci.yml";
       ELog ERROR [FLit "failed to persist file "; FLit "/repo/ci.yml";
                   FLit " into S3 bucket "; FStr (Some "bucket"); FLit nl;
                   FExn e]].
Proof.
  intros E client put e run.
  assert (Hrun :
    run = (Raise e, open_session,
           [put "/repo/main.tf" "checkov/owner/repo/1600000000/main.tf";
            put "/repo/vars.tf" "checkov/owner/repo/1600000000/vars.tf";
            put "/repo/ci.yml" "checkov/owner/repo/1600000000/ci.yml";
            ELog ERROR [FLit "failed to persist file "; FLit "/repo/ci.yml";
                        FLit " into S3 bucket "; FStr (Some "bucket"); FLit nl;
                        FExn e]])).
  { assert (Hok : ∀ pre1 x pre2,
              [("/repo", "main.tf"); ("/repo", "vars.tf")] = pre1 ++ x :: pre2 →
              upload_answer E
                ([] ++ map (upload_of E client (bucket open_session)
                              "checkov/owner/repo/1600000000" "/repo") pre1)
                client (bucket open_session) "checkov/owner/repo/1600000000"
                "/repo" x = None).
    { intros pre1 x pre2 H.
      destruct pre1 as [|a [|b [|? ?]]]; cbn [app] in H; simplify_eq;
        reflexivity. }
    apply (proj1 (persist_repository_first_failure E "/repo" open_session []
                    "checkov/owner/repo/1600000000" client e
                    [("/repo", "main.tf"); ("/repo", "vars.tf")]
                    ("/repo", "ci.yml")
                    [("/repo/modules", "vpc.tf"); ("/repo/modules", "stack.json")]
                    eq_refl eq_refl eq_refl eq_refl Hok eq_refl)). }
  rewrite Hrun. repeat split.
Defined.

(** ** The merge of the metadata paths *)

Section Merge.
Implicit Types (m d s : gmap string json) (v dst src : json).

Lemma json_size_lookup m k v :
  m !! k = Some v → (json_size v < json_size (JObj m))%nat.
Proof.
  intros Hk. cbn [json_size].
  rewrite (map_fold_delete_L _ _ k v m); [lia| |exact Hk].
  intros; lia.
Qed.

(** Induction over documents: a mapping may assume the property of the
    values it holds. *)
Lemma json_obj_ind (P : json → Prop) :
  (∀ v, (∀ m, v ≠ JObj m) → P v) →
  (∀ m, (∀ k v, m !! k = Some v → P v) → P (JObj m)) →
  ∀ v, P v.
Proof.
  intros Hleaf Hobj v.
  assert (H : ∀ n v', (json_size v' < n)%nat → P v').
  { induction n as [|n IH]; intros v' Hlt; [lia|].
    destruct v' as [| | | | |m]; try (apply Hleaf; intros ?; discriminate).
    apply Hobj. intros k x Hk. apply IH.
    pose proof (json_size_lookup m k x Hk). lia. }
  apply (H (S (json_size v))). lia.
Qed.

Lemma merge_obj d s :
  merge (JObj d) (JObj s) = JObj (union_with (λ a b, Some (merge a b)) d s).
Proof. reflexivity. Qed.

Lemma merge_scalar dst src : (∀ s, src ≠ JObj s) → merge dst src = src.
Proof.
  intros Hsrc. destruct dst, src; try reflexivity. destruct (Hsrc _ eq_refl).
Qed.

(** Merging a document into itself changes nothing. *)
Lemma merge_self v : merge v v = v.
Proof.
  induction v as [v Hv|m IH] using json_obj_ind.
  - apply merge_scalar. exact Hv.
  - rewrite merge_obj. f_equal. apply map_eq. intros k.
    rewrite lookup_union_with.
    destruct (m !! k) as [x|] eqn:Hk; [|reflexivity].
    cbn. rewrite (IH k x Hk). reflexivity.
Qed.

(** Merging the same document a second time changes nothing. *)
Lemma merge_idempotent src : ∀ dst, merge (merge dst src) src = merge dst src.
Proof.
  induction src as [src Hsrc|s IH] using json_obj_ind; intros dst.
  - rewrite !(merge_scalar _ src Hsrc). reflexivity.
  - destruct dst as [| | | | |d]; [exact (merge_self (JObj s)).. |].
    rewrite !merge_obj. f_equal. apply map_eq. intros k.
    rewrite !lookup_union_with.
    destruct (d !! k) as [a|], (s !! k) as [b|] eqn:Hs; cbn;
      try reflexivity.
    + rewrite (IH k b Hs). reflexivity.
    + rewrite merge_self. reflexivity.
Qed.

Lemma outside_get_path p src : outside p src = true → get_path p src = None.
Proof.
  revert src. induction p as [|k p IH]; intros src; [discriminate|].
  destruct src as [| | | | |s]; try discriminate.
  cbn [outside get_path]. destruct (s !! k) as [v|]; [apply IH|reflexivity].
Qed.

(** A path that leaves the metadata map at a key the map does not have
    leads to the same value before and after the merge. *)
Lemma merge_outside p : ∀ dst src,
  outside p src = true → get_path p (merge dst src) = get_path p dst.
Proof.
  induction p as [|k p IH]; intros dst src Hout; [discriminate|].
  destruct src as [| | | | |s]; try discriminate.
  destruct dst as [| | | | |d];
    [exact (outside_get_path (k :: p) (JObj s) Hout).. |].
  rewrite merge_obj. cbn [outside] in Hout. cbn [get_path].
  rewrite lookup_union_with.
  destruct (d !! k) as [a|], (s !! k) as [b|]; cbn; try reflexivity.
  - apply IH. exact Hout.
  - apply outside_get_path. exact Hout.
Qed.
End Merge.

(** What [persist_scan_results] uploads: the merge of the metadata paths
    into the reduced result. *)
Lemma persist_scan_results_run {Report} (E : Env Report) reports
    (s : Session Report) t reduced paths :
  reduce_scan_reports E reports = Return reduced →
  enrich_and_persist_checks_metadata E t reports (s3_client s) (bucket s)
    (repo_path s) = Return paths →
  let t1 := t ++ [EEnrichMetadata (s3_client s) (bucket s) (repo_path s)] in
  persist_scan_results E reports s t
  = (match persist_checks_results E t1 (merge reduced paths) (s3_client s)
             (bucket s) (repo_path s) with
     | Some e => Raise e
     | None => Return tt
     end,
     set_scan_reports reports s,
     t1 ++ [EPersistChecksResults (merge reduced paths) (s3_client s) (bucket s)
              (repo_path s)]).
Proof.
  intros Hred Hpaths t1.
  unfold persist_scan_results, call_enrich_and_persist_checks_metadata,
    call_persist_checks_results.
  unfold_monad. rewrite Hred.
  cbn [s3_client bucket repo_path set_scan_reports]. rewrite Hpaths.
  reflexivity.
Qed.

(** C7.  The merge of the metadata path map [src] into the reduced result
    [dst]: every key path that leaves [src] at a key [src] does not have
    leads to the same value in the merged document as in [dst], and merging
    [src] a second time gives the same document as merging it once.
    [persist_scan_results] hands this merged document to
    [persist_checks_results]. *)
Theorem merge_keeps_other_keys_and_is_idempotent (dst src : json) :
  (∀ p, outside p src = true → get_path p (merge dst src) = get_path p dst)
  ∧ merge (merge dst src) src = merge dst src
  ∧ (∀ Report (E : Env Report) reports (s : Session Report) t,
       reduce_scan_reports E reports = Return dst →
       enrich_and_persist_checks_metadata E t reports (s3_client s) (bucket s)
         (repo_path s) = Return src →
       List.last (trace_of (persist_scan_results E reports s t)) (ESleep 0)
       = EPersistChecksResults (merge dst src) (s3_client s) (bucket s)
           (repo_path s)).
Proof.
  split; [|split].
  - intros p. apply merge_outside.
  - apply merge_idempotent.
  - intros Report E reports s t Hred Hpaths.
    rewrite (persist_scan_results_run E reports s t dst src Hred Hpaths).
    cbn [trace_of snd]. apply last_last.
Qed.

Lemma merge_keeps_other_keys_and_is_idempotent_witness :
  get_path ["terraform"; "checks"] (merge sample_reduced sample_metadata_paths)
  = Some (JNum 2)
  ∧ get_path ["cloudformation"] (merge sample_reduced sample_metadata_paths)
    = Some (JObj {[ "checks" := JNum 1 ]})
  ∧ List.last
      (trace_of
         (persist_scan_results
            (sample_env good_setup_answer (commit_answer 201 "Success") [] [])
            [1%nat; 2%nat] open_session []))
      (ESleep 0)
    = EPersistChecksResults
        (JObj {[ "terraform" :=
                   JObj (<[ "checks" := JNum 2 ]>
                           {[ "checks_metadata_path" := JStr "m.json" ]}) ]})
        (s3_client open_session) (bucket open_session) (repo_path open_session).
Proof.
  split; [|split].
  - rewrite (proj1 (merge_keeps_other_keys_and_is_idempotent
                      sample_reduced sample_metadata_paths)
               ["terraform"; "checks"] eq_refl).
    reflexivity.
  - rewrite (proj1 (merge_keeps_other_keys_and_is_idempotent
                      sample_reduced sample_metadata_paths)
               ["cloudformation"] eq_refl).
    reflexivity.
  - rewrite (proj2 (proj2 (merge_keeps_other_keys_and_is_idempotent
                             (JObj {[ "terraform" := JObj {[ "checks" := JNum 2 ]} ]})
                             (JObj {[ "terraform" :=
                                        JObj {[ "checks_metadata_path" := JStr "m.json" ]} ]})))
               nat
               (sample_env good_setup_answer (commit_answer 201 "Success") [] [])
               [1%nat; 2%nat] open_session [] eq_refl eq_refl).
    reflexivity.
Defined.


(** * Further properties *)

(** ** Strings *)

Section Strings.
Implicit Types (s a b : string).

Lemma str_cut_none s : str_cut s = None ↔ str_contains slash s = false.
Proof.
  induction s as [|c s IH]; cbn [str_cut str_contains]; [tauto|].
  destruct (Ascii.eqb c slash); cbn [orb]; [split; discriminate|].
  rewrite <- IH. destruct (str_cut s) as [[a b]|]; split; congruence.
Qed.

(** Cutting at the first "/" loses nothing: the two parts and the "/" make
    up the string, and the first part has no "/". *)
Lemma str_cut_some s a b :
  str_cut s = Some (a, b) →
  s = a +:+ "/" +:+ b ∧ str_contains slash a = false.
Proof.
  revert a. induction s as [|c s IH]; intros a; cbn [str_cut]; [discriminate|].
  destruct (Ascii.eqb c slash) eqn:Hc.
  - intros [= <- <-]. apply Ascii.eqb_eq in Hc. subst c. split; reflexivity.
  - destruct (str_cut s) as [[a' b']|]; [|discriminate].
    intros [= <- <-]. destruct (IH a' eq_refl) as [-> Ha'].
    split; [reflexivity|]. cbn [str_contains]. rewrite Hc. exact Ha'.
Qed.

Lemma str_split_cut s :
  str_split s = match str_cut s with
                | Some (a, b) => a :: str_split b
                | None => [s]
                end.
Proof.
  induction s as [|c s IH]; cbn [str_split str_cut]; [reflexivity|].
  destruct (Ascii.eqb c slash); [reflexivity|].
  rewrite IH. destruct (str_cut s) as [[a b]|]; reflexivity.
Qed.

Lemma str_split_nonempty s : str_split s ≠ [].
Proof.
  rewrite str_split_cut. destruct (str_cut s) as [[a b]|]; discriminate.
Qed.

Lemma append_cons c a b : String c a +:+ b = String c (a +:+ b).
Proof. reflexivity. Qed.

Lemma length_append a b :
  String.length (a +:+ b) = (String.length a + String.length b)%nat.
Proof.
  induction a as [|c a IH]; [reflexivity|].
  rewrite append_cons. cbn [String.length]. rewrite IH. reflexivity.
Qed.

Lemma append_assoc a b c : (a +:+ b) +:+ c = a +:+ (b +:+ c).
Proof.
  induction a as [|x a IH]; [reflexivity|].
  rewrite !append_cons, IH. reflexivity.
Qed.

Lemma append_empty a b : a +:+ b = "" → b = "".
Proof. destruct a; [intros H; exact H|discriminate]. Qed.

Lemma ends_with_slash_append a b :
  b ≠ "" → ends_with_slash (a +:+ b) = ends_with_slash b.
Proof.
  intros Hb. induction a as [|c a IH]; [reflexivity|].
  rewrite append_cons. cbn [ends_with_slash].
  destruct (a +:+ b) eqn:Hab; [|exact IH].
  destruct (Hb (append_empty a b Hab)).
Qed.

Lemma ends_with_slash_append_slash a : ends_with_slash (a +:+ "/") = true.
Proof. rewrite ends_with_slash_append; [reflexivity|discriminate]. Qed.

(** The last segment of a string ends the string, has no "/" and follows a
    "/" unless it is the whole string. *)
Lemma last_segment s :
  ∃ pre,
    s = pre +:+ last_item (str_split s)
    ∧ str_contains slash (last_item (str_split s)) = false
    ∧ (pre = "" ∨ ends_with_slash pre = true).
Proof.
  remember (String.length s) as n eqn:Hn. revert s Hn.
  induction n as [n IH] using lt_wf_ind. intros s Hn.
  rewrite str_split_cut. destruct (str_cut s) as [[a b]|] eqn:Hcut.
  - destruct (str_cut_some s a b Hcut) as [Hs Ha].
    destruct (IH (String.length b)) with (s := b) as (pre & Hb & Hlast & Hpre);
      [|reflexivity|].
    { rewrite Hn, Hs, !length_append. cbn. lia. }
    unfold last_item in *.
    assert (Hl : List.last (a :: str_split b) "" = List.last (str_split b) "").
    { pose proof (str_split_nonempty b).
      destruct (str_split b); [contradiction|reflexivity]. }
    rewrite Hl. exists (a +:+ "/" +:+ pre). split; [|split].
    + rewrite Hs at 1. rewrite Hb at 1. rewrite !append_assoc. reflexivity.
    + exact Hlast.
    + right. destruct Hpre as [->|Hpre].
      * apply (ends_with_slash_append_slash a).
      * rewrite <- append_assoc. rewrite ends_with_slash_append; [exact Hpre|].
        intros ->. discriminate.
  - exists "". cbn [last_item List.last String.append]. unfold last_item.
    cbn [List.last]. split; [reflexivity|]. split; [|left; reflexivity].
    apply str_cut_none. exact Hcut.
Qed.
End Strings.

(** ** More on credential setup *)

Section SetupMore.
Context {Report : Type} (E : Env Report).
Implicit Types (s : Session Report) (t : list event).

Lemma setup_handlers_log e s t :
  setup_handlers e s t = (Raise e, s, t ++ setup_handler_log s e).
Proof.
  destruct_exn e; cbn [setup_handlers setup_handler_log]; unfold_monad;
    rewrite ?app_nil_r; reflexivity.
Qed.

Lemma getitem_return v k x :
  getitem v k = Return x → ∃ o, v = JObj o ∧ o !! k = Some x.
Proof.
  destruct v as [| | | | |o]; cbn [getitem]; try discriminate.
  destruct (o !! k) as [y|] eqn:Hk; [|discriminate].
  intros [= <-]. eauto.
Qed.

(** A setup that returns went through every step. *)
Lemma setup_return_steps api repo s t :
  outcome_of (setup_bridgecrew_credentials E api repo s t) = Return tt →
  ∃ st o full b p c ak sk tok,
    http_request E t (setup_request api repo)
    = Return (mkResponse st (Json (JObj o)))
    ∧ o !! "path" = Some (JStr full) ∧ str_cut full = Some (b, p)
    ∧ o !! "creds" = Some (JObj c)
    ∧ c !! "AccessKeyId" = Some ak ∧ c !! "SecretAccessKey" = Some sk
    ∧ c !! "SessionToken" = Some tok
    ∧ boto3_client E (t ++ [EHttpRequest (setup_request api repo)])
        (mkClient ak sk tok DEFAULT_REGION) = None.
Proof.
  rewrite setup_run. unfold_monad.
  destruct (http_request E t (setup_request api repo)) as [[st d]|e0] eqn:Hans.
  2:{ rewrite setup_handlers_log. discriminate. }
  cbn [data]. destruct d as [m|m|doc]; cbn [json_loads];
    rewrite ?setup_handlers_log; try discriminate.
  destruct (getitem doc "path") as [v|e1] eqn:Hpath;
    [|rewrite setup_handlers_log; discriminate].
  apply getitem_return in Hpath as (o & -> & Hpath).
  destruct v as [| | |full| |]; cbn [split1_method type_name];
    rewrite ?setup_handlers_log; try discriminate.
  unfold str_split1. destruct (str_cut full) as [[b p]|] eqn:Hcut;
    cbn [unpack2]; rewrite ?setup_handlers_log; try discriminate.
  cbn [fst snd set_bucket set_repo_path repo_path split_method].
  cbv beta iota.
  destruct (getitem (JObj o) "creds") as [creds|e1] eqn:Hcreds;
    [|rewrite setup_handlers_log; discriminate].
  cbn [getitem] in Hcreds. destruct (o !! "creds") as [x|] eqn:Hc; [|discriminate].
  injection Hcreds as ->.
  cbn [set_credentials set_timestamp credentials].
  destruct (getitem creds "AccessKeyId") as [ak|e1] eqn:Hak;
    [|rewrite setup_handlers_log; discriminate].
  apply getitem_return in Hak as (c & -> & Hak).
  destruct (getitem (JObj c) "SecretAccessKey") as [sk|e1] eqn:Hsk;
    [|rewrite setup_handlers_log; discriminate].
  destruct (getitem (JObj c) "SessionToken") as [tok|e1] eqn:Htok;
    [|rewrite setup_handlers_log; discriminate].
  apply getitem_return in Hsk as (c1 & [= <-] & Hsk).
  apply getitem_return in Htok as (c2 & [= <-] & Htok).
  unfold call_boto3_client.
  destruct (boto3_client E _ _) as [e1|] eqn:Hboto;
    [rewrite setup_handlers_log; discriminate|].
  intros _. exists st, o, full, b, p, c, ak, sk, tok. repeat split; assumption.
Qed.

(** The whole result of a setup that returns. *)
Lemma setup_return_result api repo s t :
  outcome_of (setup_bridgecrew_credentials E api repo s t) = Return tt →
  ∃ st o full b p c ak sk tok,
    http_request E t (setup_request api repo)
    = Return (mkResponse st (Json (JObj o)))
    ∧ o !! "path" = Some (JStr full) ∧ str_cut full = Some (b, p)
    ∧ o !! "creds" = Some (JObj c)
    ∧ c !! "AccessKeyId" = Some ak ∧ c !! "SecretAccessKey" = Some sk
    ∧ c !! "SessionToken" = Some tok
    ∧ setup_bridgecrew_credentials E api repo s t
      = (Return tt,
         configured_session s api b p (JObj c)
           (mkClient ak sk tok DEFAULT_REGION),
         t ++ [EHttpRequest (setup_request api repo);
               EBoto3Client (mkClient ak sk tok DEFAULT_REGION); ESleep 10]).
Proof.
  intros Hret.
  destruct (setup_return_steps api repo s t Hret)
    as (st & o & full & b & p & c & ak & sk & tok
        & Hans & Hp & Hcut & Hc & Hak & Hsk & Htok & Hboto).
  exists st, o, full, b, p, c, ak, sk, tok. repeat split; try assumption.
  apply (setup_success E api repo s t st o full b p (JObj c) ak sk tok);
    try assumption; cbn [getitem].
  - rewrite Hak. reflexivity.
  - rewrite Hsk. reflexivity.
  - rewrite Htok. reflexivity.
Qed.

(** The run up to the point where the path has been split and stored. *)
Lemma setup_after_path api repo s t st o full b p :
  http_request E t (setup_request api repo)
  = Return (mkResponse st (Json (JObj o))) →
  o !! "path" = Some (JStr full) → str_cut full = Some (b, p) →
  setup_bridgecrew_credentials E api repo s t =
    try_except
      (creds <- lift (getitem (JObj o) "creds") ;;
       modify (set_credentials creds) ;;
       self <- get ;;
       access_key <- lift (getitem (credentials self) "AccessKeyId") ;;
       secret_key <- lift (getitem (credentials self) "SecretAccessKey") ;;
       token <- lift (getitem (credentials self) "SessionToken") ;;
       client <- call_boto3_client E
                   (mkClient access_key secret_key token DEFAULT_REGION) ;;
       modify (set_s3_client (Some client)) ;;
       sleep 10)
      setup_handlers
      (session_with_path s api b p)
      (t ++ [EHttpRequest (setup_request api repo)]).
Proof.
  intros Hans Hpath Hcut. rewrite setup_run, Hans. unfold_monad.
  cbn [data json_loads getitem]. rewrite Hpath. cbv beta iota.
  cbn [split1_method]. unfold str_split1. rewrite Hcut.
  cbn [unpack2 fst snd set_bucket set_repo_path repo_path split_method].
  cbv beta iota. reflexivity.
Qed.
End SetupMore.

(** X1.  Whatever exception [http.request] raises in
    [setup_bridgecrew_credentials], the caller gets that same exception;
    only [bc_api_key] has been assigned, no storage client is built and
    nothing follows the request but the error record of the [except] clause
    that catches the exception: a clause catches its class and the classes
    derived from it (urllib3's [MaxRetryError] is caught by
    [except HTTPError]), and an exception that no clause catches leaves no
    record. *)
Theorem setup_propagates_request_exception {Report} (E : Env Report)
    api repo (s : Session Report) (t : list event) e :
  http_request E t (setup_request api repo) = Raise e →
  setup_bridgecrew_credentials E api repo s t
  = (Raise e, set_bc_api_key (Some api) s,
     t ++ EHttpRequest (setup_request api repo)
       :: setup_handler_log (set_bc_api_key (Some api) s) e).
Proof.
  intros Hans. rewrite setup_run, Hans. unfold_monad.
  rewrite setup_handlers_log, <- app_assoc. reflexivity.
Qed.

Lemma setup_propagates_request_exception_witness :
  let run e :=
    setup_bridgecrew_credentials
      (sample_env (Raise e) (commit_answer 201 "Success") [] [])
      "api-key" "owner/repo" BcPlatformIntegration [] in
  let key_only := mkSession (Some "api-key") None None JNull None None [] in
  let timeout := HTTPError "read timed out" in
  let retries := Subclass OfHTTPError "MaxRetryError" "too many retries" in
  let header := TypeError "expected string or bytes-like object" in
  run timeout
  = (Raise timeout, key_only,
     [EHttpRequest (setup_request "api-key" "owner/repo");
      ELog ERROR [FLit "Failed to get customer assumed role"; FLit nl;
                  FExn timeout]])
  ∧ run retries
    = (Raise retries, key_only,
       [EHttpRequest (setup_request "api-key" "owner/repo");
        ELog ERROR [FLit "Failed to get customer assumed role"; FLit nl;
                    FExn retries]])
  ∧ run header
    = (Raise header, key_only,
       [EHttpRequest (setup_request "api-key" "owner/repo")]).
Proof.
  intros run key_only timeout retries header. split; [|split].
  - apply (setup_propagates_request_exception
             (sample_env (Raise timeout) (commit_answer 201 "Success") [] [])
             "api-key" "owner/repo" BcPlatformIntegration [] timeout eq_refl).
  - apply (setup_propagates_request_exception
             (sample_env (Raise retries) (commit_answer 201 "Success") [] [])
             "api-key" "owner/repo" BcPlatformIntegration [] retries eq_refl).
  - apply (setup_propagates_request_exception
             (sample_env (Raise header) (commit_answer 201 "Success") [] [])
             "api-key" "owner/repo" BcPlatformIntegration [] header eq_refl).
Defined.

(** X2.  When the ["path"] of the response is a string without "/",
    [setup_bridgecrew_credentials] raises the [ValueError] of the failed
    unpacking and has assigned neither [bucket] nor [repo_path]: only
    [bc_api_key] has changed. *)
Theorem setup_path_without_slash {Report} (E : Env Report)
    api repo (s : Session Report) (t : list event) st o full :
  http_request E t (setup_request api repo)
  = Return (mkResponse st (Json (JObj o))) →
  o !! "path" = Some (JStr full) →
  str_contains slash full = false →
  setup_bridgecrew_credentials E api repo s t
  = (Raise (ValueError "not enough values to unpack (expected 2, got 1)"),
     set_bc_api_key (Some api) s,
     t ++ [EHttpRequest (setup_request api repo)]).
Proof.
  intros Hans Hpath Hslash. apply str_cut_none in Hslash.
  rewrite setup_run, Hans. unfold_monad.
  cbn [data json_loads getitem]. rewrite Hpath. cbv beta iota.
  cbn [split1_method]. unfold str_split1. rewrite Hslash. reflexivity.
Qed.

Lemma setup_path_without_slash_witness :
  let E := sample_env (path_answer (JStr "bucket"))
             (commit_answer 201 "Success") [] [] in
  setup_bridgecrew_credentials E "api-key" "owner/repo" BcPlatformIntegration []
  = (Raise (ValueError "not enough values to unpack (expected 2, got 1)"),
     mkSession (Some "api-key") None None JNull None None [],
     [EHttpRequest (setup_request "api-key" "owner/repo")]).
Proof.
  intros E.
  apply (setup_path_without_slash E "api-key" "owner/repo"
           BcPlatformIntegration [] 200
           (<[ "path" := JStr "bucket" ]> {[ "creds" := sample_creds ]})
           "bucket" eq_refl eq_refl eq_refl).
Defined.

(** X3.  When the ["path"] of the response is not a string (null, a number,
    a list, an object), [setup_bridgecrew_credentials] raises
    [AttributeError] for the missing [split] method and only [bc_api_key]
    has changed. *)
Theorem setup_path_not_a_string {Report} (E : Env Report)
    api repo (s : Session Report) (t : list event) st o v :
  http_request E t (setup_request api repo)
  = Return (mkResponse st (Json (JObj o))) →
  o !! "path" = Some v →
  (∀ full, v ≠ JStr full) →
  setup_bridgecrew_credentials E api repo s t
  = (Raise (AttributeError
              ("'" +:+ type_name v +:+ "' object has no attribute 'split'")),
     set_bc_api_key (Some api) s,
     t ++ [EHttpRequest (setup_request api repo)]).
Proof.
  intros Hans Hpath Hv. rewrite setup_run, Hans. unfold_monad.
  cbn [data json_loads getitem]. rewrite Hpath. cbv beta iota.
  destruct v as [| | |full| |]; try reflexivity.
  destruct (Hv full eq_refl).
Qed.

Lemma setup_path_not_a_string_witness :
  let E := sample_env (path_answer JNull) (commit_answer 201 "Success") [] [] in
  setup_bridgecrew_credentials E "api-key" "owner/repo" BcPlatformIntegration []
  = (Raise (AttributeError "'NoneType' object has no attribute 'split'"),
     mkSession (Some "api-key") None None JNull None None [],
     [EHttpRequest (setup_request "api-key" "owner/repo")]).
Proof.
  intros E.
  apply (setup_path_not_a_string E "api-key" "owner/repo"
           BcPlatformIntegration [] 200
           (<[ "path" := JNull ]> {[ "creds" := sample_creds ]})
           JNull eq_refl eq_refl).
  intros full. discriminate.
Defined.

(** X4.  After a setup that returns, [bucket], a "/" and [repo_path] make
    up the ["path"] string of the response, [bucket] has no "/", and
    [timestamp] is the part of [repo_path] after its last "/" (all of it
    when it has none). *)
Theorem setup_splits_path {Report} (E : Env Report)
    api repo (s : Session Report) (t : list event) st o full :
  http_request E t (setup_request api repo)
  = Return (mkResponse st (Json (JObj o))) →
  o !! "path" = Some (JStr full) →
  outcome_of (setup_bridgecrew_credentials E api repo s t) = Return tt →
  ∃ b p ts pre,
    let s' := state_of (setup_bridgecrew_credentials E api repo s t) in
    bucket s' = Some b ∧ repo_path s' = Some p ∧ timestamp s' = Some ts
    ∧ full = b +:+ "/" +:+ p ∧ str_contains slash b = false
    ∧ p = pre +:+ ts ∧ str_contains slash ts = false
    ∧ (pre = "" ∨ ends_with_slash pre = true).
Proof.
  intros Hans Hpath Hret.
  destruct (setup_return_result E api repo s t Hret)
    as (st' & o' & full' & b & p & c & ak & sk & tok
        & Hans' & Hp & Hcut & _ & _ & _ & _ & Hrun).
  rewrite Hans in Hans'. injection Hans' as _ <-.
  rewrite Hpath in Hp. injection Hp as <-.
  destruct (str_cut_some full b p Hcut) as [Hfull Hb].
  destruct (last_segment p) as (pre & Hpre & Hts & Hslash).
  exists b, p, (last_item (str_split p)), pre. cbv zeta. rewrite Hrun.
  repeat split; assumption.
Qed.

Lemma setup_splits_path_witness :
  let E := sample_env good_setup_answer (commit_answer 201 "Success") [] [] in
  let s' :=
    state_of (setup_bridgecrew_credentials E "api-key" "owner/repo"
                BcPlatformIntegration []) in
  bucket s' = Some "bucket"
  ∧ repo_path s' = Some "checkov/owner/repo/1600000000"
  ∧ timestamp s' = Some "1600000000".
Proof.
  intros E s'.
  destruct (setup_splits_path E "api-key" "owner/repo" BcPlatformIntegration []
              200
              (<[ "path" := JStr "bucket/checkov/owner/repo/1600000000" ]>
                 {[ "creds" := sample_creds ]})
              "bucket/checkov/owner/repo/1600000000" eq_refl eq_refl eq_refl)
    as (b & p & ts & pre & _).
  repeat split.
Defined.

(** X5.  [setup_bridgecrew_credentials] stores the API key it is given
    before anything can fail: after every call, returning or raising,
    [bc_api_key] is that key. *)
Theorem setup_records_api_key {Report} (E : Env Report)
    api repo (s : Session Report) (t : list event) :
  bc_api_key (state_of (setup_bridgecrew_credentials E api repo s t))
  = Some api.
Proof.
  rewrite setup_run.
  match goal with
  | |- bc_api_key (state_of (?c ?s0 ?t0)) = _ =>
      assert (H : preserves bc_api_key c)
  end.
  { apply preserves_try_except; [frame|].
    intros e. destruct_exn e; cbn [setup_handlers]; frame. }
  rewrite H. reflexivity.
Qed.

(** X7.  When [boto3.client] raises [ClientError], the setup raises it
    again after writing the whole ["creds"] document of the response, secret
    key and session token included, into the error log; [repo_path] and
    [credentials] stay assigned and no client is bound. *)
Theorem setup_client_error_logs_credentials {Report} (E : Env Report)
    api repo (s : Session Report) (t : list event) st o full b p c ak sk tok msg :
  http_request E t (setup_request api repo)
  = Return (mkResponse st (Json (JObj o))) →
  o !! "path" = Some (JStr full) → str_cut full = Some (b, p) →
  o !! "creds" = Some (JObj c) →
  c !! "AccessKeyId" = Some ak → c !! "SecretAccessKey" = Some sk →
  c !! "SessionToken" = Some tok →
  boto3_client E (t ++ [EHttpRequest (setup_request api repo)])
    (mkClient ak sk tok DEFAULT_REGION) = Some (ClientError msg) →
  setup_bridgecrew_credentials E api repo s t
  = (Raise (ClientError msg),
     session_with_credentials s api b p (JObj c),
     t ++ [EHttpRequest (setup_request api repo);
           EBoto3Client (mkClient ak sk tok DEFAULT_REGION);
           ELog ERROR [FLit "Failed to initiate client with credentials ";
                       FJson (JObj c); FLit nl; FExn (ClientError msg)]]).
Proof.
  intros Hans Hpath Hcut Hcreds Hak Hsk Htok Hboto.
  rewrite (setup_after_path E api repo s t st o full b p Hans Hpath Hcut).
  unfold_monad. cbn [getitem]. rewrite Hcreds. cbv beta iota.
  cbn [set_credentials session_with_path credentials getitem].
  rewrite Hak, Hsk, Htok. cbv beta iota.
  unfold call_boto3_client. rewrite Hboto.
  rewrite setup_handlers_log. cbn [setup_handler_log credentials].
  rewrite <- !app_assoc. reflexivity.
Qed.

Lemma setup_client_error_logs_credentials_witness :
  let E :=
    with_boto3_failure
      (sample_env good_setup_answer (commit_answer 201 "Success") [] [])
      (ClientError "InvalidClientTokenId") in
  let run :=
    setup_bridgecrew_credentials E "api-key" "owner/repo" BcPlatformIntegration []
  in
  outcome_of run = Raise (ClientError "InvalidClientTokenId")
  ∧ List.last (trace_of run) (ESleep 0)
    = ELog ERROR [FLit "Failed to initiate client with credentials ";
                  FJson sample_creds; FLit nl;
                  FExn (ClientError "InvalidClientTokenId")].
Proof.
  intros E run. unfold run.
  rewrite (setup_client_error_logs_credentials E "api-key" "owner/repo"
             BcPlatformIntegration [] 200
             (<[ "path" := JStr "bucket/checkov/owner/repo/1600000000" ]>
                {[ "creds" := sample_creds ]})
             "bucket/checkov/owner/repo/1600000000" "bucket"
             "checkov/owner/repo/1600000000"
             (<[ "AccessKeyId" := JStr "AKIAEXAMPLE" ]>
                (<[ "SecretAccessKey" := JStr "secret" ]>
                   {[ "SessionToken" := JStr "token" ]}))
             (JStr "AKIAEXAMPLE") (JStr "secret") (JStr "token")
             "InvalidClientTokenId"
             eq_refl eq_refl eq_refl eq_refl eq_refl eq_refl eq_refl eq_refl).
  split; reflexivity.
Defined.

(** X8.  When the ["creds"] object of the response lacks one of
    ["AccessKeyId"], ["SecretAccessKey"], ["SessionToken"], the setup raises
    [KeyError] for the first one missing in that order, after it has
    assigned the path and the incomplete credentials; [boto3.client] is not
    called and no client is bound. *)
Theorem setup_missing_credential_field {Report} (E : Env Report)
    api repo (s : Session Report) (t : list event) st o full b p c k :
  http_request E t (setup_request api repo)
  = Return (mkResponse st (Json (JObj o))) →
  o !! "path" = Some (JStr full) → str_cut full = Some (b, p) →
  o !! "creds" = Some (JObj c) →
  first_missing_credential c = Some k →
  setup_bridgecrew_credentials E api repo s t
  = (Raise (KeyError k), session_with_credentials s api b p (JObj c),
     t ++ [EHttpRequest (setup_request api repo)]).
Proof.
  intros Hans Hpath Hcut Hcreds Hmiss.
  rewrite (setup_after_path E api repo s t st o full b p Hans Hpath Hcut).
  unfold_monad. cbn [getitem]. rewrite Hcreds. cbv beta iota.
  cbn [set_credentials session_with_path credentials getitem].
  unfold first_missing_credential in Hmiss.
  destruct (c !! "AccessKeyId") as [ak|] eqn:Hak.
  2:{ rewrite bool_decide_eq_true_2 in Hmiss by reflexivity.
      injection Hmiss as <-. reflexivity. }
  rewrite bool_decide_eq_false_2 in Hmiss by discriminate.
  destruct (c !! "SecretAccessKey") as [sk|] eqn:Hsk.
  2:{ rewrite bool_decide_eq_true_2 in Hmiss by reflexivity.
      injection Hmiss as <-. reflexivity. }
  rewrite bool_decide_eq_false_2 in Hmiss by discriminate.
  destruct (c !! "SessionToken") as [tok|] eqn:Htok.
  2:{ rewrite bool_decide_eq_true_2 in Hmiss by reflexivity.
      injection Hmiss as <-. reflexivity. }
  rewrite bool_decide_eq_false_2 in Hmiss by discriminate. discriminate.
Qed.

Lemma setup_missing_credential_field_witness :
  let creds := JObj {[ "AccessKeyId" := JStr "AKIAEXAMPLE" ]} in
  let E := sample_env (creds_answer creds) (commit_answer 201 "Success") [] [] in
  let run :=
    setup_bridgecrew_credentials E "api-key" "owner/repo" BcPlatformIntegration []
  in
  outcome_of run = Raise (KeyError "SecretAccessKey")
  ∧ credentials (state_of run) = creds ∧ s3_client (state_of run) = None
  ∧ trace_of run = [EHttpRequest (setup_request "api-key" "owner/repo")].
Proof.
  intros creds E run. unfold run.
  rewrite (setup_missing_credential_field E "api-key" "owner/repo"
             BcPlatformIntegration [] 200
             (<[ "path" := JStr "bucket/checkov/owner/repo/1600000000" ]>
                {[ "creds" := creds ]})
             "bucket/checkov/owner/repo/1600000000" "bucket"
             "checkov/owner/repo/1600000000"
             {[ "AccessKeyId" := JStr "AKIAEXAMPLE" ]} "SecretAccessKey"
             eq_refl eq_refl eq_refl eq_refl eq_refl).
  repeat split.
Defined.

(** X9.  When ["creds"] is present and is not an object (null, a string, a
    number, a list), the setup raises [TypeError] at the first subscript,
    after it has assigned the path and stored that value in [credentials];
    [boto3.client] is not called. *)
Theorem setup_creds_not_an_object {Report} (E : Env Report)
    api repo (s : Session Report) (t : list event) st o full b p v :
  http_request E t (setup_request api repo)
  = Return (mkResponse st (Json (JObj o))) →
  o !! "path" = Some (JStr full) → str_cut full = Some (b, p) →
  o !! "creds" = Some v → (∀ c, v ≠ JObj c) →
  ∃ msg,
    getitem v "AccessKeyId" = Raise (TypeError msg)
    ∧ setup_bridgecrew_credentials E api repo s t
      = (Raise (TypeError msg), session_with_credentials s api b p v,
         t ++ [EHttpRequest (setup_request api repo)]).
Proof.
  intros Hans Hpath Hcut Hcreds Hv.
  rewrite (setup_after_path E api repo s t st o full b p Hans Hpath Hcut).
  unfold_monad. cbn [getitem]. rewrite Hcreds. cbv beta iota.
  cbn [set_credentials session_with_path credentials].
  destruct v as [| | | | |c]; cbn [getitem]; eauto.
  destruct (Hv c eq_refl).
Qed.

Lemma setup_creds_not_an_object_witness :
  let E := sample_env (creds_answer JNull) (commit_answer 201 "Success") [] [] in
  let run :=
    setup_bridgecrew_credentials E "api-key" "owner/repo" BcPlatformIntegration []
  in
  outcome_of run = Raise (TypeError "'NoneType' object is not subscriptable")
  ∧ repo_path (state_of run) = Some "checkov/owner/repo/1600000000"
  ∧ credentials (state_of run) = JNull.
Proof.
  intros E run. unfold run.
  destruct (setup_creds_not_an_object E "api-key" "owner/repo"
              BcPlatformIntegration [] 200
              (<[ "path" := JStr "bucket/checkov/owner/repo/1600000000" ]>
                 {[ "creds" := JNull ]})
              "bucket/checkov/owner/repo/1600000000" "bucket"
              "checkov/owner/repo/1600000000" JNull
              eq_refl eq_refl eq_refl eq_refl (λ c H, eq_ind JNull
                 (λ j, match j with JNull => True | _ => False end) I _ H))
    as (msg & Hmsg & Hrun).
  rewrite Hrun. injection Hmsg as <-. repeat split.
Defined.

(** X10.  After every setup that returns, [is_integration_configured] is
    true exactly when the session path is not the empty string: the
    credentials and the client it also tests are always in place then. *)
Theorem configured_iff_session_path {Report} (E : Env Report)
    api repo (s : Session Report) (t : list event) :
  outcome_of (setup_bridgecrew_credentials E api repo s t) = Return tt →
  let s' := state_of (setup_bridgecrew_credentials E api repo s t) in
  json_truthy (credentials s') = true
  ∧ (∃ client, s3_client s' = Some client)
  ∧ (is_integration_configured s' = true ↔ repo_path s' ≠ Some "").
Proof.
  intros Hret.
  destruct (setup_return_result E api repo s t Hret)
    as (st & o & full & b & p & c & ak & sk & tok
        & _ & _ & _ & _ & Hak & _ & _ & Hrun).
  cbv zeta. rewrite Hrun.
  unfold is_integration_configured, state_of, configured_session.
  cbn [fst snd repo_path credentials s3_client str_truthy].
  rewrite (json_truthy_obj c _ _ Hak). split; [reflexivity|]. split; [eauto|].
  rewrite !andb_true_r, negb_true_iff, String.eqb_neq.
  split; [intros Hp [= ->]; contradiction|intros Hp ->; contradiction].
Qed.

Lemma configured_iff_session_path_witness :
  let E := sample_env good_setup_answer (commit_answer 201 "Success") [] [] in
  let E' := sample_env empty_path_answer (commit_answer 201 "Success") [] [] in
  let run E :=
    state_of (setup_bridgecrew_credentials E "api-key" "owner/repo"
                BcPlatformIntegration []) in
  is_integration_configured (run E) = true
  ∧ ¬ is_integration_configured (run E') = true.
Proof.
  intros E E' run. split.
  - apply (proj2 (proj2 (configured_iff_session_path E "api-key" "owner/repo"
                           BcPlatformIntegration [] eq_refl))).
    discriminate.
  - intros H.
    apply (proj1 (proj2 (proj2 (configured_iff_session_path E' "api-key"
                                  "owner/repo" BcPlatformIntegration []
                                  eq_refl)))) in H.
    apply H. reflexivity.
Defined.

(** X11.  A setup that fails before the path is read (the request raises,
    the body is not JSON, or the object has no ["path"]) raises, replaces
    [bc_api_key] and leaves every other attribute as it was: a session that
    was configured stays configured, with the path, credentials and client
    of the earlier setup. *)
Theorem failed_setup_keeps_configuration {Report} (E : Env Report)
    api repo (s : Session Report) (t : list event) :
  fails_before_path (http_request E t (setup_request api repo)) = true →
  let run := setup_bridgecrew_credentials E api repo s t in
  (∃ e, outcome_of run = Raise e)
  ∧ state_of run = set_bc_api_key (Some api) s
  ∧ is_integration_configured (state_of run) = is_integration_configured s.
Proof.
  intros Hfail run.
  assert (Hstate : state_of run = set_bc_api_key (Some api) s)
    by apply (setup_early_failure_state E api repo s t Hfail).
  split; [|split; [exact Hstate|rewrite Hstate; reflexivity]].
  destruct (outcome_of run) as [[]|e] eqn:Hout; [|eauto].
  destruct (setup_return_steps E api repo s t Hout)
    as (st & o & full & b & p & c & ak & sk & tok & Hans & Hp & _).
  rewrite Hans in Hfail. cbn [fails_before_path data] in Hfail.
  apply bool_decide_eq_true in Hfail. congruence.
Qed.

Lemma failed_setup_keeps_configuration_witness :
  let E := sample_env bad_json_answer (commit_answer 201 "Success") [] [] in
  let run :=
    setup_bridgecrew_credentials E "new-key" "owner/repo" open_session [] in
  bc_api_key (state_of run) = Some "new-key"
  ∧ repo_path (state_of run) = Some "checkov/owner/repo/1600000000"
  ∧ is_integration_configured (state_of run) = true.
Proof.
  intros E run.
  destruct (failed_setup_keeps_configuration E "new-key" "owner/repo"
              open_session [] eq_refl) as (_ & Hstate & Hconf).
  fold run in Hstate, Hconf. rewrite Hconf, Hstate. repeat split.
Defined.

(** X12.  A setup that returns overwrites the path, the credentials and the
    client of any earlier setup: its result depends on the session it was
    called on only through [scan_reports]. *)
Theorem setup_overwrites_session {Report} (E : Env Report)
    api repo (s1 s2 : Session Report) (t : list event) :
  outcome_of (setup_bridgecrew_credentials E api repo s1 t) = Return tt →
  scan_reports s1 = scan_reports s2 →
  setup_bridgecrew_credentials E api repo s2 t
  = setup_bridgecrew_credentials E api repo s1 t.
Proof.
  intros Hret Hreports.
  destruct (setup_return_steps E api repo s1 t Hret)
    as (st & o & full & b & p & c & ak & sk & tok
        & Hans & Hp & Hcut & Hc & Hak & Hsk & Htok & Hboto).
  assert (Hget : ∀ k x, c !! k = Some x → getitem (JObj c) k = Return x).
  { intros k x Hk. cbn [getitem]. rewrite Hk. reflexivity. }
  rewrite !(setup_success E api repo _ t st o full b p (JObj c) ak sk tok)
    by auto.
  unfold configured_session. rewrite Hreports. reflexivity.
Qed.

Lemma setup_overwrites_session_witness :
  let E := sample_env good_setup_answer (commit_answer 201 "Success") [] [] in
  let stale :=
    mkSession (Some "old-key") None (Some "old-bucket") (JStr "stale")
      (Some "old/path") (Some "path") [] in
  state_of (setup_bridgecrew_credentials E "api-key" "owner/repo" stale [])
  = open_session.
Proof.
  intros E stale.
  rewrite (setup_overwrites_session E "api-key" "owner/repo"
             BcPlatformIntegration stale [] eq_refl eq_refl).
  reflexivity.
Defined.

(** ** What a method emits *)

Section Emits.
Context {St : Type} (Q : event → bool).

Lemma emits_nothing {A} (c : M St A) :
  (∀ s t, trace_of (c s t) = t) → emits_only Q c.
Proof.
  intros Hc s t. exists []. rewrite Hc, app_nil_r. split; reflexivity.
Qed.

Lemma emits_ret {A} (a : A) : emits_only Q (ret (St := St) a).
Proof. apply emits_nothing. reflexivity. Qed.

Lemma emits_raise {A} e : emits_only Q (raise (St := St) (A := A) e).
Proof. apply emits_nothing. reflexivity. Qed.

Lemma emits_lift {A} (r : outcome A) : emits_only Q (lift (St := St) r).
Proof. apply emits_nothing. reflexivity. Qed.

Lemma emits_get : emits_only Q (get (St := St)).
Proof. apply emits_nothing. reflexivity. Qed.

Lemma emits_modify g : emits_only Q (modify (St := St) g).
Proof. apply emits_nothing. reflexivity. Qed.

Lemma emits_emit ev : Q ev = true → emits_only Q (emit (St := St) ev).
Proof.
  intros Hev s t. exists [ev]. split; [reflexivity|].
  cbn [forallb]. rewrite Hev. reflexivity.
Qed.

Lemma emits_bind {A B} (c : M St A) (k : A → M St B) :
  emits_only Q c → (∀ a, emits_only Q (k a)) → emits_only Q (bind c k).
Proof.
  intros Hc Hk s t. unfold bind. destruct (Hc s t) as (t1 & Ht1 & Hq1).
  destruct (c s t) as [[[a|e] s'] t']; cbn [trace_of snd] in Ht1; subst t'.
  - destruct (Hk a s' (t ++ t1)) as (t2 & Ht2 & Hq2).
    exists (t1 ++ t2). rewrite Ht2, app_assoc, forallb_app, Hq1, Hq2.
    split; reflexivity.
  - exists t1. split; [reflexivity|exact Hq1].
Qed.

Lemma emits_try_except {A} (c : M St A) (h : exn → M St A) :
  emits_only Q c → (∀ e, emits_only Q (h e)) → emits_only Q (try_except c h).
Proof.
  intros Hc Hh s t. unfold try_except. destruct (Hc s t) as (t1 & Ht1 & Hq1).
  destruct (c s t) as [[[a|e] s'] t']; cbn [trace_of snd] in Ht1; subst t'.
  - exists t1. split; [reflexivity|exact Hq1].
  - destruct (Hh e s' (t ++ t1)) as (t2 & Ht2 & Hq2).
    exists (t1 ++ t2). rewrite Ht2, app_assoc, forallb_app, Hq1, Hq2.
    split; reflexivity.
Qed.

Lemma emits_try_finally {A} (c : M St A) (fin : M St unit) :
  emits_only Q c → emits_only Q fin → emits_only Q (try_finally c fin).
Proof.
  intros Hc Hfin s t. unfold try_finally. destruct (Hc s t) as (t1 & Ht1 & Hq1).
  destruct (c s t) as [[r s'] t']; cbn [trace_of snd] in Ht1; subst t'.
  destruct (Hfin s' (t ++ t1)) as (t2 & Ht2 & Hq2).
  destruct (fin s' (t ++ t1)) as [[[u|e] s''] t'']; cbn [trace_of snd] in *;
    subst t''; exists (t1 ++ t2);
    rewrite app_assoc, forallb_app, Hq1, Hq2; split; reflexivity.
Qed.

Lemma emits_for_each {A} (l : list A) (body : A → M St unit) :
  (∀ x, emits_only Q (body x)) → emits_only Q (for_each l body).
Proof.
  intros Hbody. induction l as [|x l IH]; cbn [for_each].
  - apply emits_ret.
  - apply emits_bind; [apply Hbody|intros _; exact IH].
Qed.

Lemma raise_emits_bind {A B} (c : M St A) (k : A → M St B) :
  emits_only Q c → (∀ a, raise_emits_only Q (k a)) →
  raise_emits_only Q (bind c k).
Proof.
  intros Hc Hk s t e. unfold bind. destruct (Hc s t) as (t1 & Ht1 & Hq1).
  destruct (c s t) as [[[a|e'] s'] t']; cbn [trace_of snd] in Ht1; subst t'.
  - intros He. destruct (Hk a s' (t ++ t1) e He) as (t2 & Ht2 & Hq2).
    exists (t1 ++ t2). rewrite Ht2, app_assoc, forallb_app, Hq1, Hq2.
    split; reflexivity.
  - intros _. exists t1. split; [reflexivity|exact Hq1].
Qed.

Lemma raise_emits_returns {A} (c : M St A) :
  (∀ s t, is_Return (outcome_of (c s t)) = true) → raise_emits_only Q c.
Proof.
  intros Hc s t e He. specialize (Hc s t). rewrite He in Hc. discriminate.
Qed.

Lemma raise_emits_try_except {A} (c : M St A) (h : exn → M St A) :
  raise_emits_only Q c → (∀ e, emits_only Q (h e)) →
  raise_emits_only Q (try_except c h).
Proof.
  intros Hc Hh s t e. unfold try_except. specialize (Hc s t).
  destruct (c s t) as [[[a|e'] s'] t']; cbn [outcome_of fst]; [discriminate|].
  intros _. destruct (Hc e' eq_refl) as (t1 & Ht1 & Hq1).
  cbn [trace_of snd] in Ht1. subst t'.
  destruct (Hh e' s' (t ++ t1)) as (t2 & Ht2 & Hq2).
  exists (t1 ++ t2). rewrite Ht2, app_assoc, forallb_app, Hq1, Hq2.
  split; reflexivity.
Qed.
End Emits.

Lemma emits_with_locals {St L A} Q (l0 : L) (c : M (St * L) A) :
  emits_only Q c → emits_only Q (with_locals l0 c).
Proof.
  intros Hc s t. unfold with_locals. destruct (Hc (s, l0) t) as (t1 & Ht1 & Hq1).
  destruct (c (s, l0) t) as [[r [s' l']] t']. exists t1. auto.
Qed.

Lemma emits_get_self {St L} Q : emits_only Q (get_self (St := St) (L := L)).
Proof. apply emits_nothing. reflexivity. Qed.

Lemma emits_get_locals {St L} Q : emits_only Q (get_locals (St := St) (L := L)).
Proof. apply emits_nothing. reflexivity. Qed.

Lemma emits_modify_locals {St L} Q (g : L → L) :
  emits_only Q (modify_locals (St := St) g).
Proof. apply emits_nothing. reflexivity. Qed.

Section EmitsCalls.
Context {Report St : Type} (E : Env Report) (Q : event → bool).

Lemma emits_http method url payload headers :
  (∀ rq, Q (EHttpRequest rq) = true) →
  emits_only Q (call_http_request (St := St) E method url payload headers).
Proof.
  intros HQ s t. eexists [_]. split; [reflexivity|].
  cbn [forallb]. rewrite HQ. reflexivity.
Qed.

Lemma emits_boto3 c :
  (∀ c, Q (EBoto3Client c) = true) →
  emits_only Q (call_boto3_client (St := St) E c).
Proof.
  intros HQ s t. eexists [_]. split; [reflexivity|].
  cbn [forallb]. rewrite HQ. reflexivity.
Qed.

Lemma emits_upload client filename bkt key :
  (∀ c f b k, Q (EUploadFile c f b k) = true) →
  emits_only Q (call_upload_file (St := St) E client filename bkt key).
Proof.
  intros HQ. destruct client as [c|]; [|apply emits_raise].
  intros s t. eexists [_]. split; [reflexivity|].
  cbn [forallb]. rewrite HQ. reflexivity.
Qed.

Lemma emits_enrich reports client bkt path :
  (∀ c b p, Q (EEnrichMetadata c b p) = true) →
  emits_only Q
    (call_enrich_and_persist_checks_metadata (St := St) E reports client bkt path).
Proof.
  intros HQ s t. eexists [_]. split; [reflexivity|].
  cbn [forallb]. rewrite HQ. reflexivity.
Qed.

Lemma emits_persist_checks doc client bkt path :
  (∀ d c b p, Q (EPersistChecksResults d c b p) = true) →
  emits_only Q (call_persist_checks_results (St := St) E doc client bkt path).
Proof.
  intros HQ s t. eexists [_]. split; [reflexivity|].
  cbn [forallb]. rewrite HQ. reflexivity.
Qed.
End EmitsCalls.

Ltac emits_step :=
  first
    [ apply emits_bind; [|intros ?]
    | apply emits_try_except; [|intros ?]
    | apply emits_try_finally
    | apply emits_for_each; intros ?
    | apply emits_with_locals
    | apply emits_ret | apply emits_raise | apply emits_lift | apply emits_get
    | apply emits_modify | apply emits_get_self | apply emits_get_locals
    | apply emits_modify_locals
    | apply emits_emit; reflexivity
    | apply emits_http; intros; reflexivity
    | apply emits_boto3; intros; reflexivity
    | apply emits_upload; intros; reflexivity
    | apply emits_enrich; intros; reflexivity
    | apply emits_persist_checks; intros; reflexivity
    | match goal with
      | |- emits_only _ (match ?x with _ => _ end) => destruct x
      | |- emits_only _ (if ?b then _ else _) => destruct b
      end ].

Ltac emits := unfold logging_error, logging_info, sleep; repeat emits_step.

(** X6.  [setup_bridgecrew_credentials] sleeps only when it succeeds: a
    call that returns has made exactly the request, the client construction
    and the ten-second sleep, in this order; a call that raises has not
    slept. *)
Theorem setup_sleeps_only_on_success {Report} (E : Env Report)
    api repo (s : Session Report) (t : list event) :
  let run := setup_bridgecrew_credentials E api repo s t in
  (outcome_of run = Return tt →
   ∃ c, trace_of run
        = t ++ [EHttpRequest (setup_request api repo); EBoto3Client c;
                ESleep 10])
  ∧ (∀ e, outcome_of run = Raise e →
     ∃ t', trace_of run = t ++ t'
           ∧ forallb (λ ev, negb (is_sleep ev)) t' = true).
Proof.
  intros run. split.
  - intros Hret.
    destruct (setup_return_result E api repo s t Hret)
      as (st & o & full & b & p & c & ak & sk & tok
          & _ & _ & _ & _ & _ & _ & _ & Hrun).
    exists (mkClient ak sk tok DEFAULT_REGION). unfold run. rewrite Hrun.
    reflexivity.
  - assert (H : raise_emits_only (λ ev, negb (is_sleep ev))
                  (setup_bridgecrew_credentials E api repo)).
    { unfold setup_bridgecrew_credentials.
      apply raise_emits_bind; [solve [emits]|intros _].
      apply raise_emits_try_except.
      - repeat (apply raise_emits_bind; [solve [emits]|intros ?]).
        apply raise_emits_returns. reflexivity.
      - intros e. destruct_exn e; cbn [setup_handlers]; emits. }
    intros e. apply H.
Qed.

(** X13.  Each method makes only the calls of its own kind and appends them
    to the calls made before: the setup an HTTP request, a client
    construction and a sleep; [persist_repository] only uploads;
    [persist_scan_results] only the two calls into the [wrapper] module;
    [commit_repository] only an HTTP request.  Log records apart, none of
    them makes a call of another kind, in any environment and for any
    outcome. *)
Theorem methods_make_their_own_calls {Report} (E : Env Report) :
  (∀ api repo,
     emits_only
       (λ ev, is_http_request ev || is_client ev || is_sleep ev || is_log ev)
       (setup_bridgecrew_credentials E api repo))
  ∧ (∀ root_dir,
       emits_only (λ ev, is_upload ev || is_log ev)
         (persist_repository E root_dir))
  ∧ (∀ reports, emits_only is_wrapper_call (persist_scan_results E reports))
  ∧ emits_only (λ ev, is_http_request ev || is_log ev) (commit_repository E).
Proof.
  split; [|split; [|split]].
  - intros api repo. unfold setup_bridgecrew_credentials.
    apply emits_bind; [solve [emits]|intros _].
    apply emits_try_except.
    + emits.
    + intros e. destruct_exn e; cbn [setup_handlers]; emits.
  - intros root_dir. unfold persist_repository, _persist_file. emits.
  - intros reports. unfold persist_scan_results. emits.
  - unfold commit_repository, commit_try, commit_finally, commit_succeeded.
    apply emits_with_locals, emits_try_finally.
    + apply emits_try_except; [emits|].
      intros e. destruct_exn e; cbn [commit_handlers]; emits.
    + emits.
Qed.

(** ** More on commit *)

Section CommitMore.
Context {Report : Type} (E : Env Report).
Implicit Types (s : Session Report) (t : list event).

Lemma commit_handler_log_no_info s e :
  List.filter is_info_log (commit_handler_log s e) = [].
Proof. destruct_exn e; reflexivity. Qed.
End CommitMore.

(** X14.  [commit_repository] writes its "Finalize repository" record, the
    only INFO record of the module, exactly when it returns: a call that
    raises adds no INFO record to the log. *)
Theorem commit_logs_info_iff_returns {Report} (E : Env Report)
    (s : Session Report) (t : list event) :
  let run := commit_repository E s t in
  List.filter is_info_log (trace_of run)
  = List.filter is_info_log t
      ++ (if is_Return (outcome_of run) then [finalize_log s] else []).
Proof.
  cbv zeta. rewrite commit_run. cbv zeta.
  destruct (http_request E t (commit_request s)) as [rq|e].
  - destruct (json_loads (data rq)) as [doc|e].
    + destruct (status rq =? 201);
        [destruct (getitem doc "result") as [v|e];
         [destruct (json_eq_str v "Success")|]|];
        cbn [trace_of outcome_of fst snd is_Return];
        rewrite ?List.filter_app; cbn [List.filter is_info_log finalize_log];
        rewrite ?app_nil_r; reflexivity.
    + cbn [trace_of outcome_of fst snd is_Return].
      rewrite !List.filter_app, commit_handler_log_no_info.
      cbn [List.filter is_info_log]. rewrite !app_nil_r. reflexivity.
  - cbn [trace_of outcome_of fst snd is_Return].
    rewrite !List.filter_app, commit_handler_log_no_info.
    cbn [List.filter is_info_log]. rewrite !app_nil_r. reflexivity.
Qed.

(** X15.  The caller of [commit_repository] never sees the exception that
    [http.request] raised: whatever it was, the call raises the
    [AttributeError] of the [finally] block and the session is unchanged.
    The [except] clause that catches the exception has written its error
    record before: the one of [except HTTPError] for an [HTTPError] and for
    an instance of a class derived from it (urllib3's [MaxRetryError]), the
    one of [except JSONDecodeError] likewise; an exception of a class that
    neither clause catches leaves no record. *)
Theorem commit_replaces_request_exception {Report} (E : Env Report)
    (s : Session Report) (t : list event) e :
  http_request E t (commit_request s) = Raise e →
  commit_repository E s t
  = (Raise (AttributeError "'NoneType' object has no attribute 'status'"), s,
     t ++ EHttpRequest (commit_request s)
       :: match e with
          | HTTPError _ | Subclass OfHTTPError _ _ =>
              [ELog ERROR [FLit "Failed to commit repository ";
                           FStr (repo_path s); FLit nl; FExn e]]
          | JSONDecodeError _ | Subclass OfJSONDecodeError _ _ =>
              [ELog ERROR [FLit "Response of "; FLit INTEGRATIONS_API_URL;
                           FLit " is not a valid JSON"; FLit nl; FExn e]]
          | _ => []
          end).
Proof.
  intros Hans. rewrite commit_run, Hans. cbv zeta.
  rewrite <- app_assoc. reflexivity.
Qed.

Lemma commit_replaces_request_exception_witness :
  let retries := Subclass OfHTTPError "MaxRetryError" "too many retries" in
  let refused := TypeError "expected string or bytes-like object" in
  commit_repository (sample_env good_setup_answer (Raise retries) [] [])
    open_session []
  = (Raise (AttributeError "'NoneType' object has no attribute 'status'"),
     open_session,
     [EHttpRequest (commit_request open_session);
      ELog ERROR [FLit "Failed to commit repository ";
                  FStr (repo_path open_session); FLit nl; FExn retries]])
  ∧ commit_repository (sample_env good_setup_answer (Raise refused) [] [])
      open_session []
    = (Raise (AttributeError "'NoneType' object has no attribute 'status'"),
       open_session, [EHttpRequest (commit_request open_session)]).
Proof.
  intros retries refused. split.
  - apply (commit_replaces_request_exception
             (sample_env good_setup_answer (Raise retries) [] [])
             open_session [] retries eq_refl).
  - apply (commit_replaces_request_exception
             (sample_env good_setup_answer (Raise refused) [] [])
             open_session [] refused eq_refl).
Defined.

(** X16.  When the commit is answered with status 201 and a JSON body that
    is not an object (a list, a string, a number, null), the subscript
    [response["result"]] raises [TypeError]: the call raises it in place of
    the failure that names the session path, and logs nothing. *)
Theorem commit_body_not_an_object {Report} (E : Env Report)
    (s : Session Report) (t : list event) rq doc :
  http_request E t (commit_request s) = Return rq →
  status rq = 201 → data rq = Json doc → (∀ o, doc ≠ JObj o) →
  ∃ msg,
    getitem doc "result" = Raise (TypeError msg)
    ∧ commit_repository E s t
      = (Raise (TypeError msg), s, t ++ [EHttpRequest (commit_request s)]).
Proof.
  intros Hans Hst Hd Hdoc. rewrite commit_run, Hans. cbv zeta.
  rewrite Hd, Hst. cbn [json_loads].
  destruct doc as [| | | | |o]; cbn [getitem Z.eqb Pos.eqb]; eauto.
  destruct (Hdoc o eq_refl).
Qed.

Lemma commit_body_not_an_object_witness :
  let E := sample_env good_setup_answer
             (Return (mkResponse 201 (Json (JStr "Success")))) [] [] in
  outcome_of (commit_repository E open_session [])
  = Raise (TypeError "string indices must be integers").
Proof.
  intros E.
  destruct (commit_body_not_an_object E open_session []
              (mkResponse 201 (Json (JStr "Success"))) (JStr "Success")
              eq_refl eq_refl eq_refl
              (λ o H, eq_ind (JStr "Success")
                 (λ j, match j with JStr _ => True | _ => False end) I _ H))
    as (msg & Hmsg & Hrun).
  rewrite Hrun. injection Hmsg as <-. reflexivity.
Defined.

(** ** Paths *)

Section Paths.
Lemma str_split_no_slash s :
  Forall (λ x, str_contains slash x = false) (str_split s).
Proof.
  induction s as [|c s IH]; cbn [str_split].
  - constructor; [reflexivity|constructor].
  - destruct (Ascii.eqb c slash) eqn:Hc.
    + constructor; [reflexivity|exact IH].
    + destruct (str_split s) as [|x xs]; [constructor; [|constructor]|].
      * cbn [str_contains]. rewrite Hc. reflexivity.
      * inversion IH as [|? ? Hx Hxs]; subst. constructor; [|exact Hxs].
        cbn [str_contains]. rewrite Hc. exact Hx.
Qed.

Lemma no_slash_no_leading_slash x :
  str_contains slash x = false → starts_with_slash x = false.
Proof.
  destruct x as [|c x]; [reflexivity|]. cbn [str_contains starts_with_slash].
  destruct (Ascii.eqb c slash); [discriminate|reflexivity].
Qed.

Lemma nonempty_comps_components path : Forall component (nonempty_comps path).
Proof.
  unfold nonempty_comps. pose proof (str_split_no_slash path) as H.
  induction H as [|x l Hx Hl IH]; cbn [List.filter]; [constructor|].
  destruct (String.eqb x "") eqn:Hempty; cbn [negb]; [exact IH|].
  constructor; [|exact IH]. split.
  - apply String.eqb_neq. exact Hempty.
  - apply no_slash_no_leading_slash. exact Hx.
Qed.

Lemma path_join_component a b :
  component a → component b → component (path_join a b).
Proof.
  intros [Ha Hsa] [Hb Hsb]. unfold path_join. rewrite Hsb.
  destruct a as [|c a]; [contradiction|].
  destruct (String.eqb (String c a) "" || ends_with_slash (String c a));
    rewrite append_cons; split; try discriminate; exact Hsa.
Qed.

Lemma path_join_list_component l :
  l ≠ [] → Forall component l → component (path_join_list l).
Proof.
  destruct l as [|a rest]; [contradiction|]. intros _ H.
  apply Forall_cons in H as [Ha Hrest]. cbn [path_join_list].
  revert a Ha. induction Hrest as [|b rest Hb Hrest IH]; intros a Ha;
    cbn [fold_left]; [exact Ha|].
  apply IH. apply path_join_component; assumption.
Qed.

(** [os.path.relpath] never returns a path that starts with "/". *)
Lemma relpath_of_relative cwd path start :
  starts_with_slash (relpath_of cwd path start) = false.
Proof.
  unfold relpath_of.
  set (start_list := nonempty_comps (abspath cwd start)).
  set (path_list := nonempty_comps (abspath cwd path)).
  set (i := common_prefix_len start_list path_list).
  set (rel_list := repeat ".." (List.length start_list - i) ++ skipn i path_list).
  assert (Hrel : Forall component rel_list).
  { unfold rel_list. apply Forall_app. split.
    - apply Forall_forall. intros x Hx. apply list_elem_of_In in Hx.
      apply repeat_spec in Hx. subst x. split; [discriminate|reflexivity].
    - apply Forall_drop. apply nonempty_comps_components. }
  destruct rel_list as [|a rest] eqn:Hl; [reflexivity|].
  apply (path_join_list_component (a :: rest)); [discriminate|exact Hrel].
Qed.

Lemma path_join_relative a b :
  starts_with_slash b = false → path_join a b = a +:+ join_separator a +:+ b.
Proof.
  intros Hb. unfold path_join, join_separator. rewrite Hb.
  destruct (String.eqb a "" || ends_with_slash a); reflexivity.
Qed.

Lemma rfind_from_absent c s i acc :
  str_contains c s = false → rfind_from c s i acc = acc.
Proof.
  revert i acc. induction s as [|a s IH]; intros i acc; [reflexivity|].
  cbn [str_contains rfind_from]. destruct (Ascii.eqb a c); [discriminate|].
  cbn [orb]. apply IH.
Qed.

Lemma rfind_from_lower c s i acc :
  -1 ≤ acc → 0 ≤ i → -1 ≤ rfind_from c s i acc.
Proof.
  revert i acc. induction s as [|a s IH]; intros i acc Hacc Hi; [exact Hacc|].
  cbn [rfind_from]. apply IH; [destruct (Ascii.eqb a c)|]; lia.
Qed.

(** A name without a dot, or whose only dot comes first, has the empty
    extension. *)
Lemma splitext_no_extension f : no_extension f = true → splitext f = (f, "").
Proof.
  unfold no_extension. intros H. apply orb_prop in H as [H|H].
  - apply negb_true_iff in H. unfold splitext, rfind.
    rewrite (rfind_from_absent dot f 0 (-1) H).
    pose proof (rfind_from_lower slash f 0 (-1)) as Hsep.
    destruct (-1 >? rfind_from slash f 0 (-1)) eqn:Hgt; [|reflexivity].
    apply Z.gtb_lt in Hgt. lia.
  - destruct f as [|c rest]; [discriminate|].
    apply andb_prop in H as [H Hslash]. apply andb_prop in H as [Hc Hdot].
    apply negb_true_iff in Hslash, Hdot. apply Ascii.eqb_eq in Hc. subst c.
    unfold splitext, rfind. cbn [rfind_from].
    change (Ascii.eqb dot dot) with true. change (Ascii.eqb dot slash) with false.
    cbv iota. rewrite (rfind_from_absent dot rest _ _ Hdot).
    rewrite (rfind_from_absent slash rest _ _ Hslash). reflexivity.
Qed.
End Paths.

(** ** More on uploading the repository *)

Section PersistMore.
Context {Report : Type} (E : Env Report).
Implicit Types (s : Session Report) (t : list event).

Lemma persist_one_no_path root_dir rf s t :
  repo_path s = None → snd rf ≠ "" →
  persist_one E root_dir rf s t
  = (Raise (TypeError "expected str, bytes or os.PathLike object, not NoneType"),
     s, t).
Proof.
  intros Hp Hname. unfold persist_one.
  rewrite (relpath_nonempty _ _ _ (path_join_nonempty (fst rf) _ Hname)).
  unfold _persist_file. unfold_monad. rewrite Hp. reflexivity.
Qed.

Lemma persist_one_no_client root_dir rf s t p :
  repo_path s = Some p → s3_client s = None → snd rf ≠ "" →
  persist_one E root_dir rf s t
  = (Raise (AttributeError "'NoneType' object has no attribute 'upload_file'"),
     s,
     t ++ [upload_failure_log (full_path rf) (bucket s)
             (AttributeError "'NoneType' object has no attribute 'upload_file'")]).
Proof.
  intros Hp Hc Hname. unfold persist_one.
  rewrite (relpath_nonempty _ _ _ (path_join_nonempty (fst rf) _ Hname)).
  unfold _persist_file. unfold_monad. rewrite Hp. cbn [os_path_join].
  rewrite Hc. reflexivity.
Qed.

(** Whatever the storage answers, the uploads attempted are the first
    eligible files, in order, followed by log records only. *)
Lemma persist_trace_shape root_dir s p c (l : list (string * string)) :
  repo_path s = Some p → s3_client s = Some c →
  (∀ rf, rf ∈ l → snd rf ≠ "") →
  ∀ t, ∃ n log,
    trace_of (for_each l (persist_one E root_dir) s t)
    = t ++ map (upload_of E c (bucket s) p root_dir) (firstn n l) ++ log
    ∧ uploads log = [].
Proof.
  intros Hp Hc. induction l as [|rf l IH]; intros Hnames t.
  - exists 0%nat, []. cbn. rewrite app_nil_r. split; reflexivity.
  - cbn [for_each]. unfold bind.
    rewrite (persist_one_run E root_dir rf s t p c Hp Hc);
      [|apply Hnames; left].
    destruct (upload_answer E t c (bucket s) p root_dir rf) as [e|].
    + exists 1%nat, [upload_failure_log (full_path rf) (bucket s) e].
      split; reflexivity.
    + destruct (IH (λ x Hx, Hnames x (list_elem_of_further _ _ _ Hx))
                  (t ++ [upload_of E c (bucket s) p root_dir rf]))
        as (n & log & Htrace & Hlog).
      exists (S n), log. rewrite Htrace, <- app_assoc. split; [reflexivity|exact Hlog].
Qed.

End PersistMore.

Lemma filter_none {A} (P : A → bool) (l : list A) :
  (∀ x, x ∈ l → P x = false) → List.filter P l = [].
Proof.
  induction l as [|x l IH]; intros H; [reflexivity|]. cbn [List.filter].
  rewrite (H x) by left. apply IH. intros y Hy. apply H. right. exact Hy.
Qed.

(** X17.  When no file of the walk has a supported extension,
    [persist_repository] returns without a single call and without looking
    at the session: it succeeds even on a session that was never set up. *)
Theorem persist_repository_nothing_to_upload {Report} (E : Env Report)
    root_dir (s : Session Report) (t : list event) :
  (∀ rf, rf ∈ walked_files E root_dir → supported E (snd rf) = false) →
  persist_repository E root_dir s t = (Return tt, s, t).
Proof.
  intros Hnone. rewrite persist_repository_flat. unfold eligible_files.
  rewrite (filter_none _ _ Hnone). reflexivity.
Qed.

Lemma persist_repository_nothing_to_upload_witness :
  let E := sample_env good_setup_answer (commit_answer 201 "Success")
             [("/repo", [], ["README.md"; "Makefile"; ".gitignore"])] [] in
  persist_repository E "/repo" BcPlatformIntegration []
  = (Return tt, BcPlatformIntegration, []).
Proof.
  intros E.
  apply (persist_repository_nothing_to_upload E "/repo" BcPlatformIntegration []).
  intros rf Hrf. apply list_elem_of_In in Hrf.
  destruct Hrf as [<-|[<-|[<-|[]]]]; reflexivity.
Defined.

(** X18.  A file whose name has no dot, or whose only dot is its first
    character ([Makefile], [.gitignore], [.tf]), has the empty extension;
    unless the empty string is a supported extension it is never among the
    files [persist_repository] uploads. *)
Theorem files_without_extension_are_skipped {Report} (E : Env Report)
    root_dir root_path file_path :
  no_extension file_path = true →
  "" ∉ SUPPORTED_FILE_EXTENSIONS E →
  splitext file_path = (file_path, "")
  ∧ supported E file_path = false
  ∧ (root_path, file_path) ∉ eligible_files E root_dir.
Proof.
  intros Hno Hempty. pose proof (splitext_no_extension file_path Hno) as Hext.
  assert (Hsup : supported E file_path = false).
  { unfold supported. rewrite Hext. cbn [snd].
    apply bool_decide_eq_false. exact Hempty. }
  split; [exact Hext|]. split; [exact Hsup|].
  intros Hin. apply elem_of_eligible_files in Hin as [_ Hin].
  unfold supported in Hsup. apply bool_decide_eq_false in Hsup. contradiction.
Qed.

Lemma files_without_extension_are_skipped_witness :
  let E := sample_env good_setup_answer (commit_answer 201 "Success")
             [("/repo", [], [".tf"; "main.tf"])] [] in
  supported E ".tf" = false ∧ ("/repo", ".tf") ∉ eligible_files E "/repo".
Proof.
  intros E.
  assert (Hempty : "" ∉ SUPPORTED_FILE_EXTENSIONS E).
  { intros H. apply list_elem_of_In in H.
    destruct H as [H|[H|[H|[H|[H|[]]]]]]; discriminate. }
  exact (proj2 (files_without_extension_are_skipped E "/repo" "/repo" ".tf"
                  eq_refl Hempty)).
Defined.

(** X19.  On a session without a session path, [persist_repository] raises
    [TypeError] at the first eligible file, from [os.path.join]; it has
    made no upload call and written no log record. *)
Theorem persist_repository_without_session_path {Report} (E : Env Report)
    root_dir (s : Session Report) (t : list event) rf rest :
  repo_path s = None →
  walk_names_nonempty E root_dir = true →
  eligible_files E root_dir = rf :: rest →
  persist_repository E root_dir s t
  = (Raise (TypeError "expected str, bytes or os.PathLike object, not NoneType"),
     s, t).
Proof.
  intros Hp Hnames Hel. rewrite persist_repository_flat, Hel.
  cbn [for_each]. unfold bind.
  rewrite (persist_one_no_path E root_dir rf s t Hp); [reflexivity|].
  apply (walk_names_nonempty_elem E root_dir rf Hnames). rewrite Hel. left.
Qed.

Lemma persist_repository_without_session_path_witness :
  let E := sample_env good_setup_answer (commit_answer 201 "Success")
             sample_walk [] in
  persist_repository E "/repo" BcPlatformIntegration []
  = (Raise (TypeError "expected str, bytes or os.PathLike object, not NoneType"),
     BcPlatformIntegration, []).
Proof.
  intros E.
  apply (persist_repository_without_session_path E "/repo"
           BcPlatformIntegration [] ("/repo", "main.tf")
           [("/repo", "vars.tf"); ("/repo", "ci.yml");
            ("/repo/modules", "vpc.tf"); ("/repo/modules", "stack.json")]
           eq_refl eq_refl eq_refl).
Defined.

(** X20.  On a session with a session path and without a storage client,
    [persist_repository] raises [AttributeError] at the first eligible
    file; the failure is logged with the path of that file like a failed
    upload, and no upload call is made. *)
Theorem persist_repository_without_client {Report} (E : Env Report)
    root_dir (s : Session Report) (t : list event) p rf rest :
  repo_path s = Some p → s3_client s = None →
  walk_names_nonempty E root_dir = true →
  eligible_files E root_dir = rf :: rest →
  persist_repository E root_dir s t
  = (Raise (AttributeError "'NoneType' object has no attribute 'upload_file'"),
     s,
     t ++ [ELog ERROR
             [FLit "failed to persist file ";
              FLit (path_join (fst rf) (snd rf));
              FLit " into S3 bucket "; FStr (bucket s); FLit nl;
              FExn (AttributeError
                      "'NoneType' object has no attribute 'upload_file'")]]).
Proof.
  intros Hp Hc Hnames Hel. rewrite persist_repository_flat, Hel.
  cbn [for_each]. unfold bind.
  rewrite (persist_one_no_client E root_dir rf s t p Hp Hc); [reflexivity|].
  apply (walk_names_nonempty_elem E root_dir rf Hnames). rewrite Hel. left.
Qed.

Lemma persist_repository_without_client_witness :
  let E := sample_env no_creds_answer (commit_answer 201 "Success")
             sample_walk [] in
  let s :=
    state_of (setup_bridgecrew_credentials E "api-key" "owner/repo"
                BcPlatformIntegration []) in
  let run := persist_repository E "/repo" s [] in
  outcome_of run
  = Raise (AttributeError "'NoneType' object has no attribute 'upload_file'")
  ∧ uploads (trace_of run) = [].
Proof.
  intros E s run. unfold run.
  rewrite (persist_repository_without_client E "/repo" s []
             "checkov/owner/repo/1600000000" ("/repo", "main.tf")
             [("/repo", "vars.tf"); ("/repo", "ci.yml");
              ("/repo/modules", "vpc.tf"); ("/repo/modules", "stack.json")]
             eq_refl eq_refl eq_refl eq_refl).
  split; reflexivity.
Defined.

(** X21.  Whatever the storage answers, the uploads [persist_repository]
    attempts are the first eligible files of the walk, each once and in
    order, and every key is the session path, a "/" unless the session path
    is empty or ends with one, and the path of the file relative to
    [root_dir], which never starts with "/": every key lies under the
    session path. *)
Theorem uploads_are_keyed_under_session_path {Report} (E : Env Report)
    root_dir (s : Session Report) (t : list event) p c :
  repo_path s = Some p → s3_client s = Some c →
  walk_names_nonempty E root_dir = true →
  ∃ n,
    uploads (trace_of (persist_repository E root_dir s t))
    = uploads t
      ++ map (λ rf, EUploadFile c (path_join (fst rf) (snd rf)) (bucket s)
                      (p +:+ join_separator p
                         +:+ relpath_of (os_getcwd E)
                               (path_join (fst rf) (snd rf)) root_dir))
           (firstn n (eligible_files E root_dir))
    ∧ ∀ rf,
        starts_with_slash
          (relpath_of (os_getcwd E) (path_join (fst rf) (snd rf)) root_dir)
        = false.
Proof.
  intros Hp Hc Hnames. rewrite persist_repository_flat.
  destruct (persist_trace_shape E root_dir s p c (eligible_files E root_dir)
              Hp Hc (λ rf, walk_names_nonempty_elem E root_dir rf Hnames) t)
    as (n & log & Htrace & Hlog).
  exists n. split; [|intros rf; apply relpath_of_relative].
  rewrite Htrace. unfold uploads in *.
  rewrite !List.filter_app, Hlog, app_nil_r.
  fold (uploads (map (upload_of E c (bucket s) p root_dir)
                   (firstn n (eligible_files E root_dir)))).
  rewrite uploads_upload_of. f_equal. apply map_ext. intros rf.
  unfold upload_of, object_key, full_path. f_equal.
  apply path_join_relative, relpath_of_relative.
Qed.

Lemma uploads_are_keyed_under_session_path_witness :
  let E := sample_env good_setup_answer (commit_answer 201 "Success")
             sample_walk ["/repo/vars.tf"] in
  ∃ n,
    uploads (trace_of (persist_repository E "/repo" open_session []))
    = map (λ rf, EUploadFile
                   (mkClient (JStr "AKIAEXAMPLE") (JStr "secret") (JStr "token")
                      "us-west-2")
                   (path_join (fst rf) (snd rf)) (Some "bucket")
                   ("checkov/owner/repo/1600000000" +:+ "/"
                      +:+ relpath_of "/home/user" (path_join (fst rf) (snd rf))
                            "/repo"))
        (firstn n (eligible_files E "/repo")).
Proof.
  intros E.
  destruct (uploads_are_keyed_under_session_path E "/repo" open_session []
              "checkov/owner/repo/1600000000"
              (mkClient (JStr "AKIAEXAMPLE") (JStr "secret") (JStr "token")
                 "us-west-2")
              eq_refl eq_refl eq_refl) as (n & Hn & _).
  exists n. exact Hn.
Defined.

(** ** The methods in sequence *)

(** X22.  After a setup that returns, [commit_repository] sends one PUT
    whose ["path"] is the part of the response's ["path"] after its first
    "/", whose branch is ["master"] and whose [Authorization] header is the
    API key the setup was given; with the setup's POST these are the only
    requests made. *)
Theorem commit_sends_stored_path_and_key {Report} (E : Env Report)
    api repo (s : Session Report) (t : list event) st o full :
  http_request E t (setup_request api repo)
  = Return (mkResponse st (Json (JObj o))) →
  o !! "path" = Some (JStr full) →
  let setup := setup_bridgecrew_credentials E api repo s t in
  outcome_of setup = Return tt →
  ∃ b p,
    full = b +:+ "/" +:+ p ∧ str_contains slash b = false
    ∧ http_requests
        (trace_of (commit_repository E (state_of setup) (trace_of setup)))
      = http_requests t
        ++ [EHttpRequest (setup_request api repo);
            EHttpRequest
              (mkRequest "PUT" INTEGRATIONS_API_URL
                 (JObj (<[ "path" := JStr p ]> {[ "branch" := JStr "master" ]}))
                 (JObj (<[ "Authorization" := JStr api ]>
                          {[ "Content-Type" := JStr "application/json" ]})))].
Proof.
  intros Hans Hpath setup Hret.
  destruct (setup_return_result E api repo s t Hret)
    as (st' & o' & full' & b & p & c & ak & sk & tok
        & Hans' & Hp & Hcut & _ & _ & _ & _ & Hrun).
  rewrite Hans in Hans'. injection Hans' as _ <-.
  rewrite Hpath in Hp. injection Hp as <-.
  destruct (str_cut_some full b p Hcut) as [Hfull Hb].
  exists b, p. split; [exact Hfull|]. split; [exact Hb|].
  rewrite commit_requests. unfold setup. rewrite Hrun.
  cbn [trace_of state_of fst snd]. unfold http_requests.
  rewrite List.filter_app. cbn [List.filter is_http_request].
  rewrite <- app_assoc. reflexivity.
Qed.

Lemma commit_sends_stored_path_and_key_witness :
  let E := sample_env good_setup_answer (commit_answer 201 "Success") [] [] in
  let setup :=
    setup_bridgecrew_credentials E "api-key" "owner/repo" BcPlatformIntegration []
  in
  ∃ b p,
    "bucket/checkov/owner/repo/1600000000" = b +:+ "/" +:+ p
    ∧ http_requests
        (trace_of (commit_repository E (state_of setup) (trace_of setup)))
      = [EHttpRequest (setup_request "api-key" "owner/repo");
         EHttpRequest
           (mkRequest "PUT" INTEGRATIONS_API_URL
              (JObj (<[ "path" := JStr p ]> {[ "branch" := JStr "master" ]}))
              (JObj (<[ "Authorization" := JStr "api-key" ]>
                       {[ "Content-Type" := JStr "application/json" ]})))].
Proof.
  intros E setup.
  destruct (commit_sends_stored_path_and_key E "api-key" "owner/repo"
              BcPlatformIntegration [] 200
              (<[ "path" := JStr "bucket/checkov/owner/repo/1600000000" ]>
                 {[ "creds" := sample_creds ]})
              "bucket/checkov/owner/repo/1600000000" eq_refl eq_refl eq_refl)
    as (b & p & Hfull & _ & Hreq).
  exists b, p. split; [exact Hfull|exact Hreq].
Defined.

(** X23.  After a setup that returns, [persist_repository] uploads into the
    bucket named before the first "/" of the response's ["path"], under the
    part after it, through the client that was built from the three fields
    of ["creds"] for the region [us-west-2]; with a storage that accepts
    every upload it uploads every eligible file so. *)
Theorem uploads_use_the_setup {Report} (E : Env Report)
    api repo (s : Session Report) (t : list event) root_dir
    st o full b p c ak sk tok :
  http_request E t (setup_request api repo)
  = Return (mkResponse st (Json (JObj o))) →
  o !! "path" = Some (JStr full) → str_cut full = Some (b, p) →
  o !! "creds" = Some (JObj c) →
  c !! "AccessKeyId" = Some ak → c !! "SecretAccessKey" = Some sk →
  c !! "SessionToken" = Some tok →
  boto3_client E (t ++ [EHttpRequest (setup_request api repo)])
    (mkClient ak sk tok DEFAULT_REGION) = None →
  walk_names_nonempty E root_dir = true →
  (∀ h f k, upload_file E h (mkClient ak sk tok DEFAULT_REGION) f (Some b) k
            = None) →
  let setup := setup_bridgecrew_credentials E api repo s t in
  outcome_of setup = Return tt
  ∧ uploads (trace_of (persist_repository E root_dir (state_of setup)
                         (trace_of setup)))
    = uploads t
      ++ map (λ rf, EUploadFile (mkClient ak sk tok "us-west-2")
                      (path_join (fst rf) (snd rf)) (Some b)
                      (path_join p
                         (relpath_of (os_getcwd E)
                            (path_join (fst rf) (snd rf)) root_dir)))
           (eligible_files E root_dir).
Proof.
  intros Hans Hpath Hcut Hcreds Hak Hsk Htok Hboto Hnames Hok setup.
  assert (Hget : ∀ k x, c !! k = Some x → getitem (JObj c) k = Return x).
  { intros k x Hk. cbn [getitem]. rewrite Hk. reflexivity. }
  unfold setup.
  rewrite (setup_success E api repo s t st o full b p (JObj c) ak sk tok)
    by auto.
  cbn [outcome_of state_of trace_of fst snd]. split; [reflexivity|].
  rewrite persist_repository_flat.
  rewrite (persist_all_succeed E root_dir
             (configured_session s api b p (JObj c)
                (mkClient ak sk tok DEFAULT_REGION)) p
             (mkClient ak sk tok DEFAULT_REGION) (eligible_files E root_dir)
             eq_refl eq_refl
             (λ rf, walk_names_nonempty_elem E root_dir rf Hnames)).
  - cbn [trace_of snd]. unfold uploads. rewrite !List.filter_app.
    cbn [List.filter is_upload]. rewrite app_nil_r.
    fold (uploads (map (upload_of E (mkClient ak sk tok DEFAULT_REGION)
                          (bucket (configured_session s api b p (JObj c)
                                     (mkClient ak sk tok DEFAULT_REGION)))
                          p root_dir) (eligible_files E root_dir))).
    rewrite uploads_upload_of. reflexivity.
  - intros pre rf post _. apply Hok.
Qed.

Lemma uploads_use_the_setup_witness :
  let E := sample_env good_setup_answer (commit_answer 201 "Success")
             sample_walk [] in
  let setup :=
    setup_bridgecrew_credentials E "api-key" "owner/repo" BcPlatformIntegration []
  in
  List.length
    (uploads (trace_of (persist_repository E "/repo" (state_of setup)
                          (trace_of setup))))
  = 5%nat.
Proof.
  intros E setup. unfold setup.
  rewrite (proj2 (uploads_use_the_setup E "api-key" "owner/repo"
                    BcPlatformIntegration [] "/repo" 200
                    (<[ "path" := JStr "bucket/checkov/owner/repo/1600000000" ]>
                       {[ "creds" := sample_creds ]})
                    "bucket/checkov/owner/repo/1600000000" "bucket"
                    "checkov/owner/repo/1600000000"
                    (<[ "AccessKeyId" := JStr "AKIAEXAMPLE" ]>
                       (<[ "SecretAccessKey" := JStr "secret" ]>
                          {[ "SessionToken" := JStr "token" ]}))
                    (JStr "AKIAEXAMPLE") (JStr "secret") (JStr "token")
                    eq_refl eq_refl eq_refl eq_refl eq_refl eq_refl eq_refl
                    eq_refl eq_refl (λ _ _ _, eq_refl))).
  reflexivity.
Defined.

(** X24.  [persist_scan_results] calls [reduce_scan_reports], then
    [enrich_and_persist_checks_metadata], then [persist_checks_results],
    each with the client, bucket and path the session holds; an exception of
    one step is raised as it is and the later steps are not called, so
    [persist_checks_results] runs at most once and only after the other two
    returned. *)
Theorem persist_scan_results_call_order {Report} (E : Env Report)
    reports (s : Session Report) (t : list event) :
  let run := persist_scan_results E reports s t in
  let enrich := EEnrichMetadata (s3_client s) (bucket s) (repo_path s) in
  match reduce_scan_reports E reports with
  | Raise e => outcome_of run = Raise e ∧ trace_of run = t
  | Return reduced =>
      match enrich_and_persist_checks_metadata E t reports (s3_client s)
              (bucket s) (repo_path s) with
      | Raise e => outcome_of run = Raise e ∧ trace_of run = t ++ [enrich]
      | Return paths =>
          ∃ doc,
            trace_of run
            = t ++ [enrich;
                    EPersistChecksResults doc (s3_client s) (bucket s)
                      (repo_path s)]
            ∧ outcome_of run
              = match persist_checks_results E (t ++ [enrich]) doc
                        (s3_client s) (bucket s) (repo_path s) with
                | Some e => Raise e
                | None => Return tt
                end
      end
  end.
Proof.
  cbv zeta.
  unfold persist_scan_results, call_enrich_and_persist_checks_metadata,
    call_persist_checks_results.
  unfold_monad.
  destruct (reduce_scan_reports E reports) as [reduced|e];
    [|split; reflexivity].
  cbn [s3_client bucket repo_path set_scan_reports].
  destruct (enrich_and_persist_checks_metadata E t reports _ _ _)
    as [paths|e]; [|split; reflexivity].
  exists (merge reduced paths). rewrite <- app_assoc.
  destruct (persist_checks_results E _ _ _ _ _); split; reflexivity.
Qed.
